(** * Connection pool and repository layer

    A shallow embedding of [src/database/connection.py] and
    [src/database/repository.py], and the properties of the pooling,
    transaction and record-mapping contract proved over it.

    Layout:
    - Python values, exceptions and outcomes;
    - the database driver as an interface ([Driver]): the [sqlite3] module
      is outside the repository, so everything about the pool is proved for
      every driver;
    - [queue.Queue], [ConnectionPool], [execute], [execute_many];
    - the repository accessors and the record constructors;
    - an interleaving machine for several threads sharing one pool;
    - an in-memory driver with transactions, used where a property depends
      on what the datastore does with a statement;
    - the theorems. *)

From Stdlib Require Import ZArith List String Ascii Bool Lia Permutation Floats.
Import ListNotations.

Local Open Scope Z_scope.
Local Open Scope list_scope.

Set Implicit Arguments.

(* ================================================================== *)
(** ** Python values, exceptions, outcomes *)

(** The values that cross the driver boundary: what [sqlite3] accepts as
    a bound parameter and returns in a column. *)
Inductive pyval : Type :=
| PyNone
| PyInt (n : Z)
| PyFloat (x : float)
| PyStr (s : string).

(** Exceptions by class.  The last three derive from [BaseException] but
    not from [Exception]. *)
Inductive exn : Type :=
| RuntimeError (msg : string)
| TypeError (msg : string)
| Empty                                (* queue.Empty *)
| DatabaseError (cls : string) (msg : string)   (* sqlite3.Error and subclasses *)
| OtherException (cls : string)        (* any other subclass of Exception *)
| KeyboardInterrupt
| SystemExit
| GeneratorExit.

(** [isinstance(e, Exception)]: the test of an [except Exception:] clause. *)
Definition isinstance_Exception (e : exn) : bool :=
  match e with
  | KeyboardInterrupt | SystemExit | GeneratorExit => false
  | _ => true
  end.

(** How a call ends: it returns a value or raises. *)
Inductive Outcome (A : Type) : Type :=
| Normal (a : A)
| Raise (e : exn).
Arguments Normal {A} a.
Arguments Raise {A} e.

Definition raised {A} (o : Outcome A) : bool :=
  match o with Normal _ => false | Raise _ => true end.

(* ================================================================== *)
(** ** The driver interface *)

(** A connection handle. *)
Definition Conn : Type := nat.

(** A result row as the cursor delivers it ([sqlite3.Row]): the selected
    columns in order, each with its name. *)
Definition Row : Type := list (string * pyval).

(** A cursor after the statement ran: the rows [fetchall] yields and the
    driver's [rowcount]. *)
Record Cursor : Type := { fetchall : list Row; rowcount : Z }.

(** What the code asks of [sqlite3]: every operation acts on the state of
    the datastore and its connections ([World]) and may raise. *)
Class Driver : Type := {
  World : Type;
  drv_connect : string -> World -> Outcome Conn * World;
  drv_execute : Conn -> string -> list pyval -> World -> Outcome Cursor * World;
  drv_executemany :
    Conn -> string -> list (list pyval) -> World -> Outcome Cursor * World;
  drv_commit : Conn -> World -> Outcome unit * World;
  drv_rollback : Conn -> World -> Outcome unit * World;
  drv_close : Conn -> World -> Outcome unit * World
}.

(** Observable calls, in the order they happen. *)
Inductive Event : Type :=
| EvConnect (url : string)
| EvGet (c : Conn)            (* the queue handed out [c] *)
| EvTimeout                   (* a [get] gave up after its timeout *)
| EvPut (c : Conn)            (* [c] went back into the queue *)
| EvExecute (c : Conn) (sql : string) (params : list pyval)
| EvExecuteMany (c : Conn) (sql : string) (params_list : list (list pyval))
| EvCommit (c : Conn)
| EvRollback (c : Conn)
| EvClose (c : Conn).

(** [DATABASE_URL] and [POOL_SIZE]: read from the environment once, when
    the module is imported. *)
Class Config : Type := {
  DATABASE_URL : string;
  POOL_SIZE : Z
}.

(** The values used when the environment sets neither. *)
Definition default_config : Config :=
  {| DATABASE_URL := "app.db"; POOL_SIZE := 5 |}.

Section WithDriver.

Context {drv : Driver} {cfg : Config}.

(** What a unit of work can reach through its connection: the datastore
    and, for the record, the log of calls. *)
Record Env : Type := mkEnv {
  world : World;
  trace : list Event
}.

(** A computation that uses the driver: the body of a [with] block, a
    unit of work. *)
Definition DB (A : Type) : Type := Env -> Outcome A * Env.

Definition ret {A} (a : A) : DB A := fun e => (Normal a, e).

Definition throw {A} (x : exn) : DB A := fun e => (Raise x, e).

Definition bind {A B} (m : DB A) (k : A -> DB B) : DB B :=
  fun e =>
    match m e with
    | (Normal a, e') => k a e'
    | (Raise x, e') => (Raise x, e')
    end.

Notation "x <- m ;; k" := (bind m (fun x => k))
  (at level 61, m at next level, right associativity).

(** A driver call, logged before it runs. *)
Definition call {A} (ev : Event) (op : World -> Outcome A * World) : DB A :=
  fun e =>
    let (r, w) := op (world e) in
    (r, mkEnv w (trace e ++ [ev])).

(** The run-time state around the pool object: what units of work act on,
    and a logical clock in the unit of the [timeout] argument, which only
    waiting advances. *)
Record Rt : Type := mkRt {
  env : Env;
  clock : Z
}.

Definition log (ev : Event) (r : Rt) : Rt :=
  mkRt (mkEnv (world (env r)) (trace (env r) ++ [ev])) (clock r).

Definition elapse (dt : Z) (r : Rt) : Rt :=
  mkRt (env r) (clock r + dt).

(** Running a driver computation leaves the clock alone. *)
Definition lift {A} (m : DB A) (r : Rt) : Outcome A * Rt :=
  let (o, e') := m (env r) in (o, mkRt e' (clock r)).

Definition sqlite3_connect (url : string) : DB Conn :=
  call (EvConnect url) (drv_connect url).

Definition Connection_execute (c : Conn) (sql : string) (params : list pyval)
  : DB Cursor :=
  call (EvExecute c sql params) (drv_execute c sql params).

Definition Connection_executemany (c : Conn) (sql : string)
    (params_list : list (list pyval)) : DB Cursor :=
  call (EvExecuteMany c sql params_list) (drv_executemany c sql params_list).

Definition Connection_commit (c : Conn) : DB unit :=
  call (EvCommit c) (drv_commit c).

Definition Connection_rollback (c : Conn) : DB unit :=
  call (EvRollback c) (drv_rollback c).

Definition Connection_close (c : Conn) : DB unit :=
  call (EvClose c) (drv_close c).

(* ================================================================== *)
(** ** [queue.Queue] *)

(** A FIFO queue; [maxsize <= 0] means unbounded. *)
Record Queue : Type := mkQueue { maxsize : Z; items : list Conn }.

Definition Queue_empty (q : Queue) : bool :=
  match items q with [] => true | _ :: _ => false end.

Definition Queue_full (q : Queue) : bool :=
  (0 <? maxsize q) && (maxsize q <=? Z.of_nat (List.length (items q))).

(** [put] with no timeout: on a full queue the caller waits for a free
    slot, here [None]. *)
Definition Queue_put (q : Queue) (c : Conn) : option Queue :=
  if Queue_full q then None else Some (mkQueue (maxsize q) (items q ++ [c])).

(** [get_nowait]. *)
Definition Queue_get_nowait (q : Queue) : Outcome Conn * Queue :=
  match items q with
  | [] => (Raise Empty, q)
  | c :: rest => (Normal c, mkQueue (maxsize q) rest)
  end.

(** [get(timeout=t)] when no other thread puts in the meantime: an item
    is taken at once; on an empty queue the call waits until [t] has
    passed and raises [Empty]. *)
Definition Queue_get (q : Queue) (timeout : Z) (e : Rt)
  : Outcome Conn * Queue * Rt :=
  match items q with
  | [] => (Raise Empty, q, log EvTimeout (elapse timeout e))
  | c :: rest => (Normal c, mkQueue (maxsize q) rest, log (EvGet c) e)
  end.

(* ================================================================== *)
(** ** [ConnectionPool] *)

Record ConnectionPool : Type := mkPool {
  _database_url : string;
  _pool : Queue
}.

Definition set_pool (self : ConnectionPool) (q : Queue) : ConnectionPool :=
  mkPool (_database_url self) q.

(** The idle connections of a pool. *)
Definition idle (self : ConnectionPool) : list Conn := items (_pool self).

(** The loop of [__init__]: [n] times, connect and put.  (The row
    factory set on each connection is why a cursor delivers [Row]s.)
    [None]: a [put] would wait forever. *)
Fixpoint init_loop (n : nat) (url : string) (q : Queue) (e : Rt)
  : option (Outcome Queue * Rt) :=
  match n with
  | O => Some (Normal q, e)
  | S n' =>
      match lift (sqlite3_connect url) e with
      | (Raise x, e1) => Some (Raise x, e1)
      | (Normal conn, e1) =>
          match Queue_put q conn with
          | None => None
          | Some q1 => init_loop n' url q1 e1
          end
      end
  end.

(** [ConnectionPool(database_url, pool_size)]; [range(pool_size)] is
    empty for a size below one. *)
Definition ConnectionPool_init (database_url : string) (pool_size : Z)
    (e : Rt) : option (Outcome ConnectionPool * Rt) :=
  match init_loop (Z.to_nat pool_size) database_url (mkQueue pool_size []) e with
  | None => None
  | Some (Raise x, e1) => Some (Raise x, e1)
  | Some (Normal q, e1) => Some (Normal (mkPool database_url q), e1)
  end.

Definition exhausted_message : string :=
  "Connection pool exhausted — no available connections.".

(** The [try / except Exception / else] around [yield conn], after the
    unit of work ended with [r]. *)
Definition settle {A} (conn : Conn) (r : Outcome A) : DB A :=
  match r with
  | Raise x =>
      if isinstance_Exception x then
        (_ <- Connection_rollback conn ;; throw x)
      else throw x
  | Normal v =>
      (_ <- Connection_commit conn ;; ret v)
  end.

(** [with self.acquire() as conn: body conn].  The result carries the
    pool object as the call leaves it; [None]: the final [put] would wait
    forever. *)
Definition acquire {A} (self : ConnectionPool) (body : Conn -> DB A) (e : Rt)
  : option (Outcome A * ConnectionPool * Rt) :=
  match Queue_get (_pool self) 5 e with
  | (Raise x, q, e1) =>
      match x with
      | Empty => Some (Raise (RuntimeError exhausted_message), set_pool self q, e1)
      | _ => Some (Raise x, set_pool self q, e1)
      end
  | (Normal conn, q, e1) =>
      let (r, e2) := lift (body conn) e1 in
      let (r', e3) := lift (settle conn r) e2 in
      (* finally *)
      match Queue_put q conn with
      | None => None
      | Some q' => Some (r', set_pool self q', log (EvPut conn) e3)
      end
  end.

(** The loop of [close_all] over the queue's items: take the head, close
    it, go on.  Returns what is left in the queue. *)
Fixpoint close_loop (cs : list Conn) (e : Rt) : Outcome unit * list Conn * Rt :=
  match cs with
  | [] => (Normal tt, [], e)
  | conn :: rest =>
      match lift (Connection_close conn) e with
      | (Raise x, e1) => (Raise x, rest, e1)
      | (Normal _, e1) => close_loop rest e1
      end
  end.

Definition close_all (self : ConnectionPool) (e : Rt)
  : Outcome unit * ConnectionPool * Rt :=
  let '(r, rest, e1) := close_loop (idle self) e in
  (r, set_pool self (mkQueue (maxsize (_pool self)) rest), e1).


(* ================================================================== *)
(** ** The module-level pool and the query helpers *)

(** The state of the process: the module global [_pool] (the one pool
    object, once built) and everything outside it. *)
Record Process : Type := mkProcess {
  module_pool : option ConnectionPool;
  rt : Rt
}.

(** A call at module level; [None]: the call never returns. *)
Definition M (A : Type) : Type := Process -> option (Outcome A * Process).

Definition retM {A} (a : A) : M A := fun p => Some (Normal a, p).

Definition raiseM {A} (x : exn) : M A := fun p => Some (Raise x, p).

Definition bindM {A B} (m : M A) (k : A -> M B) : M B :=
  fun p =>
    match m p with
    | None => None
    | Some (Raise x, p') => Some (Raise x, p')
    | Some (Normal a, p') => k a p'
    end.

Notation "x <~ m ;; k" := (bindM m (fun x => k))
  (at level 61, m at next level, right associativity).

(** A pure call that may raise, such as a constructor. *)
Definition liftO {A} (o : Outcome A) : M A := fun p => Some (o, p).

(** [get_pool()]: builds the pool on first use and keeps it. *)
Definition get_pool : M ConnectionPool :=
  fun p =>
    match module_pool p with
    | Some pool => Some (Normal pool, p)
    | None =>
        match ConnectionPool_init DATABASE_URL POOL_SIZE (rt p) with
        | None => None
        | Some (Raise x, e1) => Some (Raise x, mkProcess None e1)
        | Some (Normal pool, e1) => Some (Normal pool, mkProcess (Some pool) e1)
        end
    end.

(** [with get_pool().acquire() as conn: body conn].  The pool object is
    shared with the module global, so what [acquire] does to its queue is
    seen by the next call. *)
Definition with_connection {A} (body : Conn -> DB A) : M A :=
  fun p =>
    match get_pool p with
    | None => None
    | Some (Raise x, p1) => Some (Raise x, p1)
    | Some (Normal pool, p1) =>
        match acquire pool body (rt p1) with
        | None => None
        | Some (r, pool', e') => Some (r, mkProcess (Some pool') e')
        end
    end.

(** A Python [dict] with string keys, in insertion order, keys unique. *)
Definition dict : Type := list (string * pyval).

Fixpoint dict_get (d : dict) (k : string) : option pyval :=
  match d with
  | [] => None
  | (k', v) :: d' => if String.eqb k' k then Some v else dict_get d' k
  end.

Definition dict_keys (d : dict) : list string := map fst d.

(** [dict(row)] for a [sqlite3.Row]: one entry per column name, with the
    value [row[name]], which is that of the first column so named. *)
Fixpoint dict_of_Row_from (seen : dict) (r : Row) : dict :=
  match r with
  | [] => seen
  | (k, v) :: r' =>
      match dict_get seen k with
      | Some _ => dict_of_Row_from seen r'
      | None => dict_of_Row_from (seen ++ [(k, v)]) r'
      end
  end.

Definition dict_of_Row (r : Row) : dict := dict_of_Row_from [] r.

Record QueryResult : Type := mkQueryResult {
  rows : list dict;
  row_count : Z
}.

(** The body of [execute]'s [with] block. *)
Definition execute_body (sql : string) (params : list pyval) (conn : Conn)
  : DB QueryResult :=
  cursor <- Connection_execute conn sql params ;;
  ret (mkQueryResult (map dict_of_Row (fetchall cursor)) (rowcount cursor)).

Definition execute (sql : string) (params : list pyval) : M QueryResult :=
  with_connection (execute_body sql params).

(** The body of [execute_many]'s [with] block. *)
Definition execute_many_body (sql : string) (params_list : list (list pyval))
    (conn : Conn) : DB Z :=
  cursor <- Connection_executemany conn sql params_list ;;
  ret (rowcount cursor).

Definition execute_many (sql : string) (params_list : list (list pyval)) : M Z :=
  with_connection (execute_many_body sql params_list).

(* ================================================================== *)
(** ** Records and their constructors *)

(** A dataclass keeps whatever value it is given for a field: the fields
    are Python values, and the annotations are kept aside. *)
Inductive pytype : Type := Tint | Tfloat | Tstr | Tbool.

(** [isinstance(v, t)] for the annotation classes. *)
Definition has_type (t : pytype) (v : pyval) : bool :=
  match t, v with
  | Tint, PyInt _ => true
  | Tfloat, PyFloat _ => true
  | Tstr, PyStr _ => true
  | _, _ => false
  end.

Record UserRecord : Type := mkUserRecord {
  u_id : pyval;
  u_username : pyval;
  u_email : pyval;
  u_password_hash : pyval;
  u_is_active : pyval
}.

Definition UserRecord_annotations : list (string * pytype) :=
  [("id", Tint); ("username", Tstr); ("email", Tstr);
   ("password_hash", Tstr); ("is_active", Tbool)]%string.

Record OrderRecord : Type := mkOrderRecord {
  o_id : pyval;
  o_user_id : pyval;
  o_total_amount : pyval;
  o_status : pyval;
  o_created_at : pyval
}.

Definition OrderRecord_annotations : list (string * pytype) :=
  [("id", Tint); ("user_id", Tint); ("total_amount", Tfloat);
   ("status", Tstr); ("created_at", Tstr)]%string.

Definition mem_string (k : string) (l : list string) : bool :=
  existsb (String.eqb k) l.

(** Binding the keyword arguments [kw] to the parameters [fields] of a generated [__init__]:
    a key that names no parameter is refused, and so is a parameter left
    without a value.  No value is inspected. *)
Fixpoint bind_fields (fields : list string) (kw : dict) : option (list pyval) :=
  match fields with
  | [] => Some []
  | f :: fs =>
      match dict_get kw f, bind_fields fs kw with
      | Some v, Some vs => Some (v :: vs)
      | _, _ => None
      end
  end.

Definition bind_kwargs (fields : list string) (kw : dict) : Outcome (list pyval) :=
  if forallb (fun k => mem_string k fields) (dict_keys kw) then
    match bind_fields fields kw with
    | Some vs => Normal vs
    | None => Raise (TypeError "__init__() missing required positional arguments")
    end
  else Raise (TypeError "__init__() got an unexpected keyword argument").

(** [UserRecord] called with the keyword arguments [kw]. *)
Definition UserRecord_init (kw : dict) : Outcome UserRecord :=
  match bind_kwargs (map fst UserRecord_annotations) kw with
  | Normal [a; b; c; d; f] => Normal (mkUserRecord a b c d f)
  | Normal _ => Raise (TypeError "__init__() missing required positional arguments")
  | Raise x => Raise x
  end.

(** [OrderRecord] called with the keyword arguments [kw]. *)
Definition OrderRecord_init (kw : dict) : Outcome OrderRecord :=
  match bind_kwargs (map fst OrderRecord_annotations) kw with
  | Normal [a; b; c; d; f] => Normal (mkOrderRecord a b c d f)
  | Normal _ => Raise (TypeError "__init__() missing required positional arguments")
  | Raise x => Raise x
  end.

(** The list comprehension over [rows], one [OrderRecord] per row: the
    first failure ends it. *)
Fixpoint OrderRecord_list (rs : list dict) : Outcome (list OrderRecord) :=
  match rs with
  | [] => Normal []
  | row :: rs' =>
      match OrderRecord_init row with
      | Raise x => Raise x
      | Normal o =>
          match OrderRecord_list rs' with
          | Raise x => Raise x
          | Normal os => Normal (o :: os)
          end
      end
  end.

(* ================================================================== *)
(** ** The repository *)

Definition get_user_by_id (user_id : Z) : M (option UserRecord) :=
  result <~ execute
    "SELECT id, username, email, password_hash, is_active FROM users WHERE id = ?"
    [PyInt user_id] ;;
  match rows result with
  | [] => retM None
  | row :: _ => u <~ liftO (UserRecord_init row) ;; retM (Some u)
  end.

Definition get_user_by_username (username : string) : M (option UserRecord) :=
  result <~ execute
    "SELECT id, username, email, password_hash, is_active FROM users WHERE username = ?"
    [PyStr username] ;;
  match rows result with
  | [] => retM None
  | row :: _ => u <~ liftO (UserRecord_init row) ;; retM (Some u)
  end.

Definition create_user (username email password_hash : string) : M Z :=
  result <~ execute
    "INSERT INTO users (username, email, password_hash, is_active) VALUES (?, ?, ?, 1)"
    [PyStr username; PyStr email; PyStr password_hash] ;;
  retM (row_count result).

Definition deactivate_user (user_id : Z) : M bool :=
  result <~ execute
    "UPDATE users SET is_active = 0 WHERE id = ?"
    [PyInt user_id] ;;
  retM (0 <? row_count result).

Definition get_orders_by_user (user_id : Z) : M (list OrderRecord) :=
  result <~ execute
    "SELECT id, user_id, total_amount, status, created_at FROM orders WHERE user_id = ?"
    [PyInt user_id] ;;
  liftO (OrderRecord_list (rows result)).

Definition get_order_by_id (order_id : Z) : M (option OrderRecord) :=
  result <~ execute
    "SELECT id, user_id, total_amount, status, created_at FROM orders WHERE id = ?"
    [PyInt order_id] ;;
  match rows result with
  | [] => retM None
  | row :: _ => o <~ liftO (OrderRecord_init row) ;; retM (Some o)
  end.

Definition create_order (user_id : Z) (total_amount : float) : M Z :=
  result <~ execute
    "INSERT INTO orders (user_id, total_amount, status) VALUES (?, ?, 'pending')"
    [PyInt user_id; PyFloat total_amount] ;;
  retM (row_count result).

Definition update_order_status (order_id : Z) (status : string) : M bool :=
  result <~ execute
    "UPDATE orders SET status = ? WHERE id = ?"
    [PyStr status; PyInt order_id] ;;
  retM (0 <? row_count result).

(* ================================================================== *)
(** ** Threads sharing one pool *)

(** Where a thread stands inside [with pool.acquire() as conn: body conn].
    Each of [get], the unit of work, commit or rollback, and [put] is one
    atomic step; the queue's own lock makes [get] and [put] so.  A unit
    of work is a function: it ends, by returning or by raising. *)
Inductive Phase (A : Type) : Type :=
| Start                                     (* about to call [get] *)
| Waiting (deadline : Z)                    (* inside [get], queue empty *)
| Holding (conn : Conn)                     (* at the [yield] *)
| Settling (conn : Conn) (r : Outcome A)    (* unit of work over *)
| Releasing (conn : Conn) (r : Outcome A)   (* in the [finally] clause *)
| Refused                                   (* left by [raise RuntimeError] *)
| Finished (r : Outcome A).                 (* left through [finally] *)
Arguments Start {A}.
Arguments Waiting {A} deadline.
Arguments Holding {A} conn.
Arguments Refused {A}.

(** How the call ended, when it has. *)
Definition outcome_of {A} (ph : Phase A) : option (Outcome A) :=
  match ph with
  | Refused => Some (Raise (RuntimeError exhausted_message))
  | Finished r => Some r
  | _ => None
  end.

(** The connection a thread has checked out. *)
Definition holds {A} (ph : Phase A) : list Conn :=
  match ph with
  | Holding c | Settling c _ | Releasing c _ => [c]
  | _ => []
  end.

(** Taking the head of the queue, as [get] does once an item is there. *)
Definition grant {A} (self : ConnectionPool) (e : Rt) (c : Conn) (rest : list Conn)
  : ConnectionPool * Rt * Phase A :=
  (set_pool self (mkQueue (maxsize (_pool self)) rest), log (EvGet c) e, Holding c).

Definition step_thread {A} (body : Conn -> DB A) (self : ConnectionPool)
    (e : Rt) (ph : Phase A) : ConnectionPool * Rt * Phase A :=
  match ph with
  | Start =>
      match idle self with
      | c :: rest => grant self e c rest
      | [] => (self, e, Waiting (clock e + 5))
      end
  | Waiting deadline =>
      match idle self with
      | c :: rest => grant self e c rest
      | [] =>
          if deadline <=? clock e
          then (self, log EvTimeout e, Refused)
          else (self, e, Waiting deadline)
      end
  | Holding c =>
      let (r, e') := lift (body c) e in (self, e', Settling c r)
  | Settling c r =>
      let (r', e') := lift (settle c r) e in (self, e', Releasing c r')
  | Releasing c r =>
      match Queue_put (_pool self) c with
      | None => (self, e, ph)
      | Some q' => (set_pool self q', log (EvPut c) e, Finished r)
      end
  | Refused => (self, e, ph)
  | Finished _ => (self, e, ph)
  end.

Record Sys (A : Type) : Type := mkSys {
  sys_pool : ConnectionPool;
  sys_rt : Rt;
  sys_threads : list (Phase A)
}.

(** What the scheduler may do: let time pass, or let one thread take its
    next step. *)
Inductive Action : Type :=
| Tick (dt : nat)
| Run (i : nat).

Fixpoint set_nth {X} (i : nat) (x : X) (l : list X) : list X :=
  match l, i with
  | [], _ => []
  | _ :: l', O => x :: l'
  | y :: l', S i' => y :: set_nth i' x l'
  end.

Definition step {A} (bodies : nat -> Conn -> DB A) (a : Action) (s : Sys A)
  : Sys A :=
  match a with
  | Tick dt => mkSys (sys_pool s) (elapse (Z.of_nat dt) (sys_rt s)) (sys_threads s)
  | Run i =>
      match nth_error (sys_threads s) i with
      | None => s
      | Some ph =>
          let '(pool', e', ph') :=
            step_thread (bodies i) (sys_pool s) (sys_rt s) ph in
          mkSys pool' e' (set_nth i ph' (sys_threads s))
      end
  end.

Definition run {A} (bodies : nat -> Conn -> DB A) (acts : list Action)
    (s : Sys A) : Sys A :=
  fold_left (fun s a => step bodies a s) acts s.

(** The connections checked out by the threads of a system. *)
Definition checked_out {A} (s : Sys A) : list Conn :=
  flat_map holds (sys_threads s).

(** A pool of [n] threads that have all just called [acquire]. *)
Definition spawn {A} (self : ConnectionPool) (e : Rt) (n : nat) : Sys A :=
  mkSys self e (repeat Start n).

End WithDriver.

Arguments Start {A}.
Arguments Waiting {A} deadline.
Arguments Holding {A} conn.
Arguments Settling {A} conn r.
Arguments Releasing {A} conn r.
Arguments Refused {A}.
Arguments Finished {A} r.

Notation "x <- m ;; k" := (bind m (fun x => k))
  (at level 61, m at next level, right associativity).

Notation "x <~ m ;; k" := (bindM m (fun x => k))
  (at level 61, m at next level, right associativity).

(* ================================================================== *)
(** ** An in-memory datastore with transactions *)

Module Mem.

(** Modelled from the spec: the schema of the two tables, of which the
    repository holds only the statements.  Section 3 of the specification
    gives a user a unique id, a unique username, an email, a password hash
    and an active flag, and an order a unique id, the id of its user, a
    total amount, a status and a creation timestamp.  A cell holds the
    value that was bound to it. *)
Record UserRow : Type := mkUserRow {
  ur_id : Z;
  ur_username : pyval;
  ur_email : pyval;
  ur_password_hash : pyval;
  ur_is_active : pyval
}.

Record OrderRow : Type := mkOrderRow {
  or_id : Z;
  or_user_id : pyval;
  or_total_amount : pyval;
  or_status : pyval;
  or_created_at : pyval
}.

(** The content of the datastore; [timestamp] is what the datastore
    writes into [created_at]. *)
Record Data : Type := mkData {
  users : list UserRow;
  orders : list OrderRow;
  timestamp : string
}.

(** [=] in a [WHERE] clause: equal values of one storage class; [NULL]
    equals nothing.  (An integer and a real of the same magnitude, which
    SQLite also takes as equal, do not meet in the statements below.) *)
Definition sql_eq (a b : pyval) : bool :=
  match a, b with
  | PyInt x, PyInt y => x =? y
  | PyStr x, PyStr y => String.eqb x y
  | PyFloat x, PyFloat y => PrimFloat.eqb x y
  | _, _ => false
  end.

(** The id given to a new row: one more than the largest in use. *)
Definition next_id (ids : list Z) : Z := 1 + fold_right Z.max 0 ids.

Definition user_out (u : UserRow) : Row :=
  [("id", PyInt (ur_id u)); ("username", ur_username u); ("email", ur_email u);
   ("password_hash", ur_password_hash u); ("is_active", ur_is_active u)]%string.

Definition order_out (o : OrderRow) : Row :=
  [("id", PyInt (or_id o)); ("user_id", or_user_id o);
   ("total_amount", or_total_amount o); ("status", or_status o);
   ("created_at", or_created_at o)]%string.

(** The statements the datastore is asked to run. *)
Inductive Stmt : Type :=
| SelectUserById
| SelectUserByUsername
| InsertUser
| DeactivateUser
| SelectOrdersByUser
| SelectOrderById
| InsertOrder
| UpdateOrderStatus.

Definition statements : list (string * Stmt) :=
  [("SELECT id, username, email, password_hash, is_active FROM users WHERE id = ?",
    SelectUserById);
   ("SELECT id, username, email, password_hash, is_active FROM users WHERE username = ?",
    SelectUserByUsername);
   ("INSERT INTO users (username, email, password_hash, is_active) VALUES (?, ?, ?, 1)",
    InsertUser);
   ("UPDATE users SET is_active = 0 WHERE id = ?",
    DeactivateUser);
   ("SELECT id, user_id, total_amount, status, created_at FROM orders WHERE user_id = ?",
    SelectOrdersByUser);
   ("SELECT id, user_id, total_amount, status, created_at FROM orders WHERE id = ?",
    SelectOrderById);
   ("INSERT INTO orders (user_id, total_amount, status) VALUES (?, ?, 'pending')",
    InsertOrder);
   ("UPDATE orders SET status = ? WHERE id = ?",
    UpdateOrderStatus)]%string.

Fixpoint prepare_in (tbl : list (string * Stmt)) (sql : string) : option Stmt :=
  match tbl with
  | [] => None
  | (text, st) :: tbl' => if String.eqb text sql then Some st else prepare_in tbl' sql
  end.

(** Any other text is refused as a statement the datastore cannot run. *)
Definition prepare (sql : string) : option Stmt := prepare_in statements sql.

(** The statements that write. *)
Definition is_dml (st : Stmt) : bool :=
  match st with
  | InsertUser | DeactivateUser | InsertOrder | UpdateOrderStatus => true
  | _ => false
  end.

Definition count {X} (f : X -> bool) (l : list X) : Z :=
  Z.of_nat (List.length (filter f l)).

Definition bindings_error : exn :=
  DatabaseError "ProgrammingError" "Incorrect number of bindings supplied.".

(** One statement on the content [d]: the rows it returns, its
    [rowcount] ([-1] for a [SELECT]) and the content after it. *)
Definition run_stmt (st : Stmt) (params : list pyval) (d : Data)
  : Outcome (list Row * Z * Data) :=
  match st, params with
  | SelectUserById, [k] =>
      Normal (map user_out (filter (fun u => sql_eq (PyInt (ur_id u)) k) (users d)),
              -1, d)
  | SelectUserByUsername, [k] =>
      Normal (map user_out (filter (fun u => sql_eq (ur_username u) k) (users d)),
              -1, d)
  | InsertUser, [name; email; hash] =>
      if existsb (fun u => sql_eq (ur_username u) name) (users d)
      then Raise (DatabaseError "IntegrityError"
                    "UNIQUE constraint failed: users.username")
      else
        let u := mkUserRow (next_id (map ur_id (users d))) name email hash (PyInt 1) in
        Normal ([], 1, mkData (users d ++ [u]) (orders d) (timestamp d))
  | DeactivateUser, [k] =>
      let hit u := sql_eq (PyInt (ur_id u)) k in
      let upd u :=
        if hit u
        then mkUserRow (ur_id u) (ur_username u) (ur_email u)
                       (ur_password_hash u) (PyInt 0)
        else u in
      Normal ([], count hit (users d),
              mkData (map upd (users d)) (orders d) (timestamp d))
  | SelectOrdersByUser, [k] =>
      Normal (map order_out (filter (fun o => sql_eq (or_user_id o) k) (orders d)),
              -1, d)
  | SelectOrderById, [k] =>
      Normal (map order_out (filter (fun o => sql_eq (PyInt (or_id o)) k) (orders d)),
              -1, d)
  | InsertOrder, [uid; amount] =>
      let o := mkOrderRow (next_id (map or_id (orders d))) uid amount
                          (PyStr "pending") (PyStr (timestamp d)) in
      Normal ([], 1, mkData (users d) (orders d ++ [o]) (timestamp d))
  | UpdateOrderStatus, [status; k] =>
      let hit o := sql_eq (PyInt (or_id o)) k in
      let upd o :=
        if hit o
        then mkOrderRow (or_id o) (or_user_id o) (or_total_amount o)
                        status (or_created_at o)
        else o in
      Normal ([], count hit (orders d),
              mkData (users d) (map upd (orders d)) (timestamp d))
  | _, _ => Raise bindings_error
  end.

(** The datastore and its connections: the committed content, the one
    open write transaction with the connection that owns it and the
    content as that connection sees it, the number of handles given out,
    and the handles closed since. *)
Record MemWorld : Type := mkWorld {
  committed : Data;
  txn : option (Conn * Data);
  opened : nat;
  closed : list Conn
}.

Definition is_open (c : Conn) (w : MemWorld) : bool :=
  (c <? opened w)%nat && negb (existsb (Nat.eqb c) (closed w)).

(** The content as connection [c] sees it. *)
Definition view (c : Conn) (w : MemWorld) : Data :=
  match txn w with
  | Some (c', d) => if (c' =? c)%nat then d else committed w
  | None => committed w
  end.

(** Another connection is in the middle of writing. *)
Definition locked (c : Conn) (w : MemWorld) : bool :=
  match txn w with
  | Some (c', _) => negb (c' =? c)%nat
  | None => false
  end.

Definition closed_error : exn :=
  DatabaseError "ProgrammingError" "Cannot operate on a closed database.".

Definition syntax_error : exn := DatabaseError "OperationalError" "syntax error".

(** One prepared statement on connection [c].  A statement that writes
    opens a transaction if none is open; a statement that fails leaves
    the content as it was before it. *)
Definition exec_stmt (c : Conn) (st : Stmt) (params : list pyval) (w : MemWorld)
  : Outcome (list Row * Z) * MemWorld :=
  if is_dml st && locked c w
  then (Raise (DatabaseError "OperationalError" "database is locked"), w)
  else
    match run_stmt st params (view c w) with
    | Raise x =>
        (Raise x,
         if is_dml st
         then mkWorld (committed w) (Some (c, view c w)) (opened w) (closed w)
         else w)
    | Normal (rs, n, d') =>
        (Normal (rs, n),
         if is_dml st
         then mkWorld (committed w) (Some (c, d')) (opened w) (closed w)
         else w)
    end.

Definition mem_connect (_ : string) (w : MemWorld) : Outcome Conn * MemWorld :=
  (Normal (opened w), mkWorld (committed w) (txn w) (S (opened w)) (closed w)).

Definition mem_execute (c : Conn) (sql : string) (params : list pyval)
    (w : MemWorld) : Outcome Cursor * MemWorld :=
  if negb (is_open c w) then (Raise closed_error, w)
  else
    match prepare sql with
    | None => (Raise syntax_error, w)
    | Some st =>
        match exec_stmt c st params w with
        | (Raise x, w') => (Raise x, w')
        | (Normal (rs, n), w') => (Normal {| fetchall := rs; rowcount := n |}, w')
        end
    end.

(** The statement once per parameter tuple, in order, inside the same
    transaction; the first failure ends the batch. *)
Fixpoint exec_each (c : Conn) (st : Stmt) (params_list : list (list pyval))
    (total : Z) (w : MemWorld) : Outcome Z * MemWorld :=
  match params_list with
  | [] => (Normal total, w)
  | params :: rest =>
      match exec_stmt c st params w with
      | (Raise x, w') => (Raise x, w')
      | (Normal (_, n), w') => exec_each c st rest (total + n) w'
      end
  end.

Definition mem_executemany (c : Conn) (sql : string)
    (params_list : list (list pyval)) (w : MemWorld) : Outcome Cursor * MemWorld :=
  if negb (is_open c w) then (Raise closed_error, w)
  else
    match prepare sql with
    | None => (Raise syntax_error, w)
    | Some st =>
        if is_dml st then
          match exec_each c st params_list 0 w with
          | (Raise x, w') => (Raise x, w')
          | (Normal n, w') => (Normal {| fetchall := []; rowcount := n |}, w')
          end
        else
          (Raise (DatabaseError "ProgrammingError"
                    "executemany() can only execute DML statements."), w)
    end.

Definition mem_commit (c : Conn) (w : MemWorld) : Outcome unit * MemWorld :=
  if negb (is_open c w) then (Raise closed_error, w)
  else
    match txn w with
    | Some (c', d) =>
        if (c' =? c)%nat
        then (Normal tt, mkWorld d None (opened w) (closed w))
        else (Normal tt, w)
    | None => (Normal tt, w)
    end.

Definition mem_rollback (c : Conn) (w : MemWorld) : Outcome unit * MemWorld :=
  if negb (is_open c w) then (Raise closed_error, w)
  else
    match txn w with
    | Some (c', _) =>
        if (c' =? c)%nat
        then (Normal tt, mkWorld (committed w) None (opened w) (closed w))
        else (Normal tt, w)
    | None => (Normal tt, w)
    end.

(** Closing drops what the connection had not committed. *)
Definition mem_close (c : Conn) (w : MemWorld) : Outcome unit * MemWorld :=
  let t :=
    match txn w with
    | Some (c', d) => if (c' =? c)%nat then None else Some (c', d)
    | None => None
    end in
  (Normal tt, mkWorld (committed w) t (opened w) (c :: closed w)).

#[global] Instance driver : Driver := {|
  World := MemWorld;
  drv_connect := mem_connect;
  drv_execute := mem_execute;
  drv_executemany := mem_executemany;
  drv_commit := mem_commit;
  drv_rollback := mem_rollback;
  drv_close := mem_close
|}.

(** A datastore with content [d] and no connection yet. *)
Definition fresh (d : Data) : MemWorld := mkWorld d None 0 [].

(** A process that has not touched the pool yet, over [fresh d]. *)
Definition boot (d : Data) : Process :=
  mkProcess None (mkRt (mkEnv (fresh d) []) 0).

End Mem.


(* ================================================================== *)
(** * The in-process services

    [payments/processor.py], [payments/invoice.py] and
    [notifications/sender.py] keep their objects in module-level
    dictionaries keyed by a generated id.  A function that asks the
    operating system for something (a fresh [uuid4], the time) takes what
    it was given as an argument. *)

(** ** Dictionaries keyed by text *)

Section PyDict.

Variable V : Type.

(** A [dict] with [str] keys: the entries in insertion order. *)
Definition pydict : Type := list (string * V).

(** [d.get(k)]. *)
Fixpoint pd_get (d : pydict) (k : string) : option V :=
  match d with
  | [] => None
  | (k', v) :: d' => if String.eqb k' k then Some v else pd_get d' k
  end.

(** [d[k] = v]: the value of an existing key is replaced where it
    stands, a new key goes to the end. *)
Fixpoint pd_set (d : pydict) (k : string) (v : V) : pydict :=
  match d with
  | [] => [(k, v)]
  | (k', v') :: d' =>
      if String.eqb k' k then (k, v) :: d' else (k', v') :: pd_set d' k v
  end.

(** [d.pop(k, None)], the value dropped: also [del d[k]] for a key that
    is there. *)
Definition pd_del (d : pydict) (k : string) : pydict :=
  filter (fun kv => negb (String.eqb (fst kv) k)) d.

End PyDict.

Arguments pd_get {V} d k.
Arguments pd_set {V} d k v.
Arguments pd_del {V} d k.

(** [ValueError(msg)], as an exception of that class. *)
Definition ValueError (msg : string) : exn :=
  OtherException (String.append "ValueError: " msg).

(** [TypeError(msg)] and [AttributeError(msg)] likewise. *)
Definition AttributeError (msg : string) : exn :=
  OtherException (String.append "AttributeError: " msg).

(** What the code takes from Python's built-in types and leaves to them:
    [str.lower], [str.strip], and the conversion of an [int] to a
    [float] in mixed arithmetic. *)
Class Builtins : Type := {
  str_lower : string -> string;
  str_strip : string -> string;
  float_of_int : Z -> float
}.

Unset Elimination Schemes.

(** A JSON value as [json.loads] builds it and [json.dumps] takes it. *)
Inductive json : Type :=
| JNull
| JBool (b : bool)
| JInt (n : Z)
| JFloat (x : float)
| JStr (s : string)
| JList (items : list json)
| JObject (members : list (string * json)).

Set Elimination Schemes.

(** The [json] module, and the built-in conversions applied to what it
    returns.  [json_loads] is [None] when [json.loads] raises
    [JSONDecodeError] or [UnicodeDecodeError]. *)
Class Json : Type := {
  json_dumps : json -> string;
  json_loads : string -> option json;
  py_float : json -> Outcome float;
  py_int : json -> Outcome Z
}.

(** A value of the datastore as JSON data. *)
Definition json_of_pyval (v : pyval) : json :=
  match v with
  | PyNone => JNull
  | PyInt n => JInt n
  | PyFloat x => JFloat x
  | PyStr s => JStr s
  end.

(** [hmac.new(key, msg, hashlib.sha256).hexdigest()], and the rest of
    what [hashlib], [hmac] and [bytes] do for the code. *)
Class Crypto : Type := {
  hmac_sha256_hex : string -> string -> string;
  pbkdf2_sha256_hex : string -> string -> string;   (* password, salt *)
  bytes_fromhex : string -> option string;           (* None: ValueError *)
  bytes_hex : string -> string
}.

(** ** [payments/processor.py] *)

Module Processor.

(** [PAYMENT_GATEWAY_URL] and [PAYMENT_API_KEY], read from the
    environment on import. *)
Class Gateway : Type := {
  PAYMENT_GATEWAY_URL : string;
  PAYMENT_API_KEY : string
}.

Inductive PaymentStatus : Type := PENDING | SUCCEEDED | FAILED | REFUNDED.

(** [status.value]. *)
Definition value (s : PaymentStatus) : string :=
  match s with
  | PENDING => "pending"
  | SUCCEEDED => "succeeded"
  | FAILED => "failed"
  | REFUNDED => "refunded"
  end.

Definition status_eqb (a b : PaymentStatus) : bool :=
  match a, b with
  | PENDING, PENDING | SUCCEEDED, SUCCEEDED
  | FAILED, FAILED | REFUNDED, REFUNDED => true
  | _, _ => false
  end.

Record PaymentIntent : Type := mkPaymentIntent {
  id : string;
  user_id : Z;
  amount_cents : Z;
  currency : string;
  status : PaymentStatus;
  created_at : float;
  metadata : dict
}.

(** [intent.status = s]. *)
Definition set_status (intent : PaymentIntent) (s : PaymentStatus) : PaymentIntent :=
  mkPaymentIntent (id intent) (user_id intent) (amount_cents intent)
                  (currency intent) s (created_at intent) (metadata intent).

Record ChargeResult : Type := mkChargeResult {
  success : bool;
  payment_intent_id : string;
  error_message : string
}.

Record RefundResult : Type := mkRefundResult {
  refund_success : bool;
  refund_id : string;
  refund_error_message : string
}.

(** The module global [_intents]. *)
Definition Intents : Type := pydict PaymentIntent.

Section WithEnvironment.

Context {py : Builtins} {gw : Gateway}.

(** [create_payment_intent(user_id, amount_cents, currency, metadata)];
    [uuid] is the text of the [uuid4] drawn and [now] the time read for
    [created_at]. *)
Definition create_payment_intent (uuid : string) (now : float)
    (user_id amount_cents : Z) (currency : string) (metadata : option dict)
    (_intents : Intents) : Outcome PaymentIntent * Intents :=
  if amount_cents <=? 0 then
    (Raise (ValueError "amount_cents must be a positive integer."), _intents)
  else
    let intent :=
      mkPaymentIntent uuid user_id amount_cents (str_lower currency) PENDING now
        (match metadata with Some m => m | None => [] end) in
    (Normal intent, pd_set _intents (id intent) intent).

Definition not_configured : bool :=
  String.eqb PAYMENT_GATEWAY_URL "" || String.eqb PAYMENT_API_KEY "".

(** [charge(payment_intent_id)]. *)
Definition charge (payment_intent_id : string) (_intents : Intents)
  : ChargeResult * Intents :=
  match pd_get _intents payment_intent_id with
  | None =>
      (mkChargeResult false payment_intent_id "Payment intent not found.", _intents)
  | Some intent =>
      if negb (status_eqb (status intent) PENDING) then
        (mkChargeResult false payment_intent_id
           (String.append "Intent is in status '"
              (String.append (value (status intent)) "', expected 'pending'.")),
         _intents)
      else if not_configured then
        (mkChargeResult false (id intent) "Payment gateway not configured.",
         pd_set _intents payment_intent_id (set_status intent FAILED))
      else
        (mkChargeResult true (id intent) "",
         pd_set _intents payment_intent_id (set_status intent SUCCEEDED))
  end.

(** [refund(payment_intent_id, amount_cents)]; [uuid] is the text of the
    [uuid4] drawn for the refund id. *)
Definition refund (uuid : string) (payment_intent_id : string)
    (amount : option Z) (_intents : Intents) : RefundResult * Intents :=
  match pd_get _intents payment_intent_id with
  | None => (mkRefundResult false "" "Payment intent not found.", _intents)
  | Some intent =>
      if negb (status_eqb (status intent) SUCCEEDED) then
        (mkRefundResult false "" "Only succeeded payments can be refunded.",
         _intents)
      else
        (* amount_cents or intent.amount_cents *)
        let refund_amount :=
          match amount with
          | Some a => if a =? 0 then amount_cents intent else a
          | None => amount_cents intent
          end in
        if amount_cents intent <? refund_amount then
          (mkRefundResult false "" "Refund amount exceeds original charge.",
           _intents)
        else
          (mkRefundResult true uuid "",
           pd_set _intents payment_intent_id (set_status intent REFUNDED))
  end.

Definition get_payment_intent (payment_intent_id : string) (_intents : Intents)
  : option PaymentIntent :=
  pd_get _intents payment_intent_id.

End WithEnvironment.

End Processor.

(** ** [payments/invoice.py] *)

Module Invoices.

Inductive InvoiceStatus : Type := DRAFT | SENT | PAID | VOID.

Definition value (s : InvoiceStatus) : string :=
  match s with
  | DRAFT => "draft"
  | SENT => "sent"
  | PAID => "paid"
  | VOID => "void"
  end.

Definition status_eqb (a b : InvoiceStatus) : bool :=
  match a, b with
  | DRAFT, DRAFT | SENT, SENT | PAID, PAID | VOID, VOID => true
  | _, _ => false
  end.

Record LineItem : Type := mkLineItem {
  description : string;
  quantity : Z;
  unit_price_cents : Z
}.

(** The property [total_cents]. *)
Definition total_cents (item : LineItem) : Z :=
  quantity item * unit_price_cents item.

Record Invoice : Type := mkInvoice {
  id : string;
  user_id : Z;
  line_items : list LineItem;
  currency : string;
  status : InvoiceStatus;
  created_at : float;
  metadata : dict
}.

(** The property [total_amount_cents]: [sum] over the line items. *)
Definition total_amount_cents (invoice : Invoice) : Z :=
  fold_left Z.add (map total_cents (line_items invoice)) 0.

Definition set_status (invoice : Invoice) (s : InvoiceStatus) : Invoice :=
  mkInvoice (id invoice) (user_id invoice) (line_items invoice)
            (currency invoice) s (created_at invoice) (metadata invoice).

Record InvoiceResult : Type := mkInvoiceResult {
  success : bool;
  invoice_id : string;
  error_message : string
}.

(** The module global [_invoices]. *)
Definition Store : Type := pydict Invoice.

Section WithEnvironment.

Context {py : Builtins}.

Definition create_invoice (uuid : string) (now : float) (user_id : Z)
    (line_items : list LineItem) (currency : string) (metadata : option dict)
    (_invoices : Store) : Outcome Invoice * Store :=
  match line_items with
  | [] =>
      (Raise (ValueError "Invoice must have at least one line item."), _invoices)
  | _ :: _ =>
      let invoice :=
        mkInvoice uuid user_id line_items (str_lower currency) DRAFT now
          (match metadata with Some m => m | None => [] end) in
      (Normal invoice, pd_set _invoices (id invoice) invoice)
  end.

Definition send_invoice (invoice_id : string) (_invoices : Store)
  : InvoiceResult * Store :=
  match pd_get _invoices invoice_id with
  | None => (mkInvoiceResult false invoice_id "Invoice not found.", _invoices)
  | Some invoice =>
      if negb (status_eqb (status invoice) DRAFT) then
        (mkInvoiceResult false invoice_id
           (String.append "Invoice is '"
              (String.append (value (status invoice)) "', expected 'draft'.")),
         _invoices)
      else
        (mkInvoiceResult true (id invoice) "",
         pd_set _invoices invoice_id (set_status invoice SENT))
  end.

Definition void_invoice (invoice_id : string) (_invoices : Store)
  : InvoiceResult * Store :=
  match pd_get _invoices invoice_id with
  | None => (mkInvoiceResult false invoice_id "Invoice not found.", _invoices)
  | Some invoice =>
      if status_eqb (status invoice) VOID then
        (mkInvoiceResult false invoice_id "Invoice is already void.", _invoices)
      else
        (mkInvoiceResult true (id invoice) "",
         pd_set _invoices invoice_id (set_status invoice VOID))
  end.

Definition get_invoice (invoice_id : string) (_invoices : Store) : option Invoice :=
  pd_get _invoices invoice_id.

End WithEnvironment.

End Invoices.

(** ** [notifications/sender.py] *)

Module Sender.

(** The settings read from the environment that the code looks at. *)
Class Mail : Type := {
  SMTP_HOST : string;
  SMTP_USER : string;
  WEBHOOK_SECRET : string
}.

Inductive NotificationStatus : Type := PENDING | SENT | FAILED.

Definition value (s : NotificationStatus) : string :=
  match s with
  | PENDING => "pending"
  | SENT => "sent"
  | FAILED => "failed"
  end.

Definition status_eqb (a b : NotificationStatus) : bool :=
  match a, b with
  | PENDING, PENDING | SENT, SENT | FAILED, FAILED => true
  | _, _ => false
  end.

Record Notification : Type := mkNotification {
  id : string;
  user_id : Z;
  channel : string;
  subject : string;
  body : string;
  status : NotificationStatus;
  created_at : float;
  sent_at : option float;
  error : string
}.

Record SendResult : Type := mkSendResult {
  success : bool;
  notification_id : string;
  error_message : string
}.

(** The module global [_notifications]. *)
Definition Store : Type := pydict Notification.

(** The request [send_webhook] builds. *)
Record WebRequest : Type := mkWebRequest {
  url : string;
  data : string;
  headers : pydict string;
  method : string
}.

(** What became of the request: the response came ([urlopen] returned),
    [URLError] was raised (with its text), or something else was raised,
    by [urlopen] or by the construction of the request. *)
Inductive Delivery : Type :=
| Delivered
| UrlError (text : string)
| Failure (x : exn).

Section WithEnvironment.

Context {mail : Mail} {js : Json} {cr : Crypto}.

Definition mark_sent (n : Notification) (now : float) : Notification :=
  mkNotification (id n) (user_id n) (channel n) (subject n) (body n) SENT
                 (created_at n) (Some now) (error n).

Definition mark_failed (n : Notification) (text : string) : Notification :=
  mkNotification (id n) (user_id n) (channel n) (subject n) (body n) FAILED
                 (created_at n) (sent_at n) text.

Definition create_notification (uuid : string) (now : float) (user_id : Z)
    (channel subject body : string) (_notifications : Store)
  : Outcome Notification * Store :=
  if String.eqb channel "email" || String.eqb channel "webhook"
     || String.eqb channel "sms"
  then
    let notification :=
      mkNotification uuid user_id channel subject body PENDING now None "" in
    (Normal notification, pd_set _notifications (id notification) notification)
  else
    (Raise (ValueError (String.append "Unsupported notification channel: " channel)),
     _notifications).

Definition not_pending_message (n : Notification) : string :=
  String.append "Notification is '"
    (String.append (value (status n)) "', expected 'pending'.").

(** [send_email(notification_id)]; [now] is the time read for
    [sent_at]. *)
Definition send_email (now : float) (notification_id : string)
    (_notifications : Store) : SendResult * Store :=
  match pd_get _notifications notification_id with
  | None =>
      (mkSendResult false notification_id "Notification not found.",
       _notifications)
  | Some notification =>
      if negb (status_eqb (status notification) PENDING) then
        (mkSendResult false notification_id (not_pending_message notification),
         _notifications)
      else if String.eqb SMTP_HOST "" || String.eqb SMTP_USER "" then
        (mkSendResult false notification_id "SMTP not configured.",
         pd_set _notifications notification_id
                (mark_failed notification "SMTP not configured."))
      else
        (mkSendResult true notification_id "",
         pd_set _notifications notification_id (mark_sent notification now))
  end.

(** The payload and the request of [send_webhook]. *)
Definition webhook_payload (n : Notification) : string :=
  json_dumps (JObject [("id", JStr (id n)); ("user_id", JInt (user_id n));
                       ("subject", JStr (subject n)); ("body", JStr (body n))]%string).

Definition webhook_request (n : Notification) (url : string) : WebRequest :=
  let payload := webhook_payload n in
  let headers := [("Content-Type", "application/json")]%string in
  let headers :=
    if String.eqb WEBHOOK_SECRET "" then headers
    else pd_set headers "X-VecGrep-Signature"
           (String.append "sha256=" (hmac_sha256_hex WEBHOOK_SECRET payload)) in
  mkWebRequest url payload headers "POST".

(** [send_webhook(notification_id, url)]; [net] tells what becomes of
    the request, [now] is the time read for [sent_at].  The third
    component is the request made, if the call got that far. *)
Definition send_webhook (net : WebRequest -> Delivery) (now : float)
    (notification_id url : string) (_notifications : Store)
  : Outcome SendResult * Store * option WebRequest :=
  match pd_get _notifications notification_id with
  | None =>
      (Normal (mkSendResult false notification_id "Notification not found."),
       _notifications, None)
  | Some notification =>
      if negb (status_eqb (status notification) PENDING) then
        (Normal (mkSendResult false notification_id
                   (not_pending_message notification)),
         _notifications, None)
      else
        let req := webhook_request notification url in
        match net req with
        | Delivered =>
            (Normal (mkSendResult true notification_id ""),
             pd_set _notifications notification_id (mark_sent notification now),
             Some req)
        | UrlError text =>
            (Normal (mkSendResult false notification_id text),
             pd_set _notifications notification_id (mark_failed notification text),
             Some req)
        | Failure x => (Raise x, _notifications, Some req)
        end
  end.

Definition get_notification (notification_id : string) (_notifications : Store)
  : option Notification :=
  pd_get _notifications notification_id.

End WithEnvironment.

End Sender.

(* ================================================================== *)
(** * Sessions, middleware and the routes

    [auth/authentication.py], [auth/middleware.py] and [api/routes.py].
    Text is a sequence of bytes, the UTF-8 form of the Python [str]. *)

(** ** Text helpers *)

(** [s.split(sep)] for a separator of one ASCII character. *)
Fixpoint split_from (sep : ascii) (cur : string) (s : string) : list string :=
  match s with
  | EmptyString => [cur]
  | String c s' =>
      if Ascii.eqb c sep then cur :: split_from sep EmptyString s'
      else split_from sep (String.append cur (String c EmptyString)) s'
  end.

Definition str_split (sep : ascii) (s : string) : list string :=
  split_from sep EmptyString s.

(** [s.removeprefix(p)]. *)
Definition removeprefix (p s : string) : string :=
  if String.prefix p s
  then String.substring (String.length p) (String.length s - String.length p) s
  else s.

(** Every character is ASCII. *)
Definition is_ascii (s : string) : bool :=
  forallb (fun c => Nat.ltb (nat_of_ascii c) 128) (list_ascii_of_string s).

(** The text of an [int] and of a [float] in an f-string. *)
Class Format : Type := {
  int_str : Z -> string;
  float_str : float -> string
}.

(** ** [auth/authentication.py] *)

Module Auth.

(** [SECRET_KEY], read from the environment on import. *)
Class Secrets : Type := { SECRET_KEY : string }.

Definition TOKEN_TTL_SECONDS : Z := 3600.

Record User : Type := mkUser {
  id : Z;
  username : string;
  email : string;
  password_hash : string;
  is_active : bool;
  roles : list string
}.

Record Session : Type := mkSession {
  token : string;
  user_id : Z;
  expires_at : float;
  scopes : list string
}.

(** The module global [_session_store]. *)
Definition SessionStore : Type := pydict Session.

Section WithEnvironment.

Context {py : Builtins} {cr : Crypto} {fmt : Format} {sec : Secrets}.

(** [hash_password(password)]; [salt] is what [os.urandom(16)] gave. *)
Definition hash_password (salt : string) (password : string) : string :=
  String.append (bytes_hex salt)
    (String.append ":" (pbkdf2_sha256_hex password salt)).

(** [hmac.compare_digest(a, b)] on two [str]: [TypeError] unless both
    are ASCII. *)
Definition compare_digest (a b : string) : Outcome bool :=
  if is_ascii a && is_ascii b then Normal (String.eqb a b)
  else Raise (TypeError "comparing strings with non-ASCII characters is not supported").

(** [verify_password(password, password_hash)]: the [ValueError] of an
    unpacking that does not find two parts, or of [bytes.fromhex], is
    caught; the [TypeError] of [compare_digest] is not. *)
Definition verify_password (password password_hash : string) : Outcome bool :=
  match str_split ":" password_hash with
  | [salt_hex; dk_hex] =>
      match bytes_fromhex salt_hex with
      | None => Normal false
      | Some salt => compare_digest (pbkdf2_sha256_hex password salt) dk_hex
      end
  | _ => Normal false
  end.

(** [generate_token(user, scopes)]; [now] is the time read for the
    payload. *)
Definition generate_token (now : float) (user : User)
    (scopes : option (list string)) : Outcome string :=
  if String.eqb SECRET_KEY "" then
    Raise (RuntimeError "SECRET_KEY environment variable is not set.")
  else
    let payload :=
      String.append (int_str (id user))
        (String.append ":"
           (String.append (float_str now)
              (String.append ":"
                 (String.concat "," (match scopes with Some l => l | None => [] end))))) in
    let sig := hmac_sha256_hex SECRET_KEY payload in
    Normal (String.append payload (String.append ":" sig)).

(** [authenticate_user(username, password, user_db)]; [now_token] and
    [now_expiry] are the two readings of the clock, the first inside
    [generate_token]. *)
Definition authenticate_user (now_token now_expiry : float)
    (username password : string) (user_db : pydict User)
    (_session_store : SessionStore)
  : Outcome (option Session) * SessionStore :=
  match pd_get user_db username with
  | None => (Normal None, _session_store)
  | Some user =>
      if negb (is_active user) then (Normal None, _session_store)
      else
        match verify_password password (password_hash user) with
        | Raise x => (Raise x, _session_store)
        | Normal false => (Normal None, _session_store)
        | Normal true =>
            match generate_token now_token user None with
            | Raise x => (Raise x, _session_store)
            | Normal token =>
                let session :=
                  mkSession token (id user)
                    (PrimFloat.add now_expiry (float_of_int TOKEN_TTL_SECONDS)) [] in
                (Normal (Some session), pd_set _session_store token session)
            end
        end
  end.

(** [validate_token(token)]; [now] is the time read. *)
Definition validate_token (now : float) (token : string)
    (_session_store : SessionStore) : option Session * SessionStore :=
  match pd_get _session_store token with
  | None => (None, _session_store)
  | Some session =>
      if PrimFloat.ltb (expires_at session) now
      then (None, pd_del _session_store token)
      else (Some session, _session_store)
  end.

(** [revoke_token(token)]. *)
Definition revoke_token (token : string) (_session_store : SessionStore)
  : SessionStore :=
  pd_del _session_store token.

(** [require_role(session, role, user_db)], [user_db] keyed by user id. *)
Definition require_role (session : Session) (role : string)
    (user_db : list (Z * User)) : bool :=
  match find (fun kv => fst kv =? user_id session) user_db with
  | None => false
  | Some (_, user) => existsb (String.eqb role) (roles user)
  end.

End WithEnvironment.

End Auth.

(** ** [auth/middleware.py] *)

Module Middleware.

Record Request : Type := mkRequest {
  method : string;
  path : string;
  headers : pydict string;
  body : string
}.

Record Response : Type := mkResponse {
  status : Z;
  response_body : string;
  response_headers : option (pydict string)
}.

(** [Response(status=s, body=b)]. *)
Definition respond (s : Z) (b : string) : Response := mkResponse s b None.

(** [d.get(k, default)]. *)
Definition get_default (d : pydict string) (k default : string) : string :=
  match pd_get d k with Some v => v | None => default end.

(** A call that acts on a state [St]; [None]: it never returns. *)
Definition Act (St A : Type) : Type := St -> option (Outcome A * St).

Section WithEnvironment.

Context {py : Builtins}.

(** The token a request carries, as the middleware and [logout] take it
    from the header. *)
Definition bearer_token (request : Request) : string :=
  str_strip (removeprefix "Bearer " (get_default (headers request) "Authorization" "")).

(** [auth_middleware(handler)], the wrapped function; [now] is the time
    [validate_token] reads.  The state holds the session store ([get]
    and [put] reach it) and whatever else the handler acts on. *)
Definition auth_middleware {St} (get : St -> Auth.SessionStore)
    (put : Auth.SessionStore -> St -> St)
    (handler : Request -> Auth.Session -> Act St Response)
    (now : float) (request : Request) : Act St Response :=
  fun st =>
    let auth_header := get_default (headers request) "Authorization" "" in
    if negb (String.prefix "Bearer " auth_header) then
      Some (Normal (respond 401 "Unauthorized: missing or malformed token."), st)
    else
      let token := str_strip (removeprefix "Bearer " auth_header) in
      match Auth.validate_token now token (get st) with
      | (None, store) =>
          Some (Normal (respond 401 "Unauthorized: invalid or expired token."),
                put store st)
      | (Some session, store) => handler request session (put store st)
      end.

(** The closure state [_counts] of one rate limiter. *)
Definition Counts : Type := pydict (list float).

(** [rate_limit_middleware(handler, max_requests, window_seconds)], the
    wrapped function; [now] is the time read.  The state is the
    limiter's own [_counts] and the state of the handler. *)
Definition rate_limit_middleware {St} (handler : Request -> Act St Response)
    (max_requests window_seconds : Z) (now : float) (request : Request)
  : Act (Counts * St) Response :=
  fun '(_counts, st) =>
    let client_ip := get_default (headers request) "X-Forwarded-For" "unknown" in
    let window_start := PrimFloat.sub now (float_of_int window_seconds) in
    let timestamps :=
      filter (fun t => PrimFloat.ltb window_start t)
             (match pd_get _counts client_ip with Some l => l | None => [] end)
      ++ [now] in
    let _counts := pd_set _counts client_ip timestamps in
    if max_requests <? Z.of_nat (List.length timestamps) then
      Some (Normal (respond 429 "Too Many Requests."), (_counts, st))
    else
      match handler request st with
      | None => None
      | Some (r, st') => Some (r, (_counts, st'))
      end.

End WithEnvironment.

End Middleware.

(** ** [api/routes.py] *)

Module Routes.

Import Middleware.

Section WithEnvironment.

Context {drv : Driver} {cfg : Config} {py : Builtins} {js : Json}
        {gw : Processor.Gateway}.

(** The module globals the routes reach: the session store, the pool and
    what is behind it, the payment intents. *)
Record App : Type := mkApp {
  sessions : Auth.SessionStore;
  process : Process;
  intents : Processor.Intents
}.

Definition put_sessions (s : Auth.SessionStore) (app : App) : App :=
  mkApp s (process app) (intents app).

Definition put_process (p : Process) (app : App) : App :=
  mkApp (sessions app) p (intents app).

Definition put_intents (i : Processor.Intents) (app : App) : App :=
  mkApp (sessions app) (process app) i.

(** A call of the repository made from a handler. *)
Definition in_process {A} (m : M A) : Act App A :=
  fun app =>
    match m (process app) with
    | None => None
    | Some (r, p') => Some (r, put_process p' app)
    end.

(** The decorator [@auth_middleware] on a handler of this module. *)
Definition authenticated (handler : Request -> Auth.Session -> Act App Response)
    (now : float) (request : Request) : Act App Response :=
  auth_middleware sessions put_sessions handler now request.

(** [body.get(k)] and [body.get(k, default)] on what [json.loads]
    returned: only a JSON object has [get]. *)
Fixpoint member (members : list (string * json)) (k : string) : option json :=
  match members with
  | [] => None
  | (k', v) :: rest => if String.eqb k' k then Some v else member rest k
  end.

Definition body_get (body : json) (k : string) (default : json) : Outcome json :=
  match body with
  | JObject members =>
      Normal (match member members k with Some v => v | None => default end)
  | _ => Raise (AttributeError "object has no attribute 'get'")
  end.

(** [bool(v)]. *)
Definition truthy (v : json) : bool :=
  match v with
  | JNull => false
  | JBool b => b
  | JInt n => negb (n =? 0)
  | JFloat x => negb (PrimFloat.eqb x 0)
  | JStr s => negb (String.eqb s "")
  | JList l => match l with [] => false | _ => true end
  | JObject l => match l with [] => false | _ => true end
  end.

Definition invalid_json : Response := respond 400 "Invalid JSON body.".

(** [logout], under the decorator. *)
Definition logout_handler (request : Request) (session : Auth.Session)
  : Act App Response :=
  fun app =>
    let token := bearer_token request in
    Some (Normal (respond 200 "Logged out."),
          put_sessions (Auth.revoke_token token (sessions app)) app).

Definition logout : float -> Request -> Act App Response :=
  authenticated logout_handler.

(** [list_orders], under the decorator. *)
Definition order_json (o : OrderRecord) : json :=
  JObject [("id", json_of_pyval (o_id o));
           ("total_amount", json_of_pyval (o_total_amount o));
           ("status", json_of_pyval (o_status o))]%string.

Definition list_orders_handler (request : Request) (session : Auth.Session)
  : Act App Response :=
  fun app =>
    match in_process (get_orders_by_user (Auth.user_id session)) app with
    | None => None
    | Some (Raise x, app') => Some (Raise x, app')
    | Some (Normal orders, app') =>
        Some (Normal (respond 200 (json_dumps (JList (map order_json orders)))),
              app')
    end.

Definition list_orders : float -> Request -> Act App Response :=
  authenticated list_orders_handler.



(** [charge_handler], under the decorator; [uuid] and [created] are the
    id drawn and the time read by [create_payment_intent]. *)
Definition charge_handler_inner (uuid : string) (created : float)
    (request : Request) (session : Auth.Session) : Act App Response :=
  fun app =>
    match json_loads (body request) with
    | None => Some (Normal invalid_json, app)
    | Some body =>
        match body_get body "amount_cents" JNull with
        | Raise x => Some (Raise x, app)
        | Normal amount_cents =>
            if negb (truthy amount_cents) then
              Some (Normal (respond 400 "amount_cents must be a positive integer."),
                    app)
            else
              match py_int amount_cents with
              | Raise x => Some (Raise x, app)
              | Normal n =>
                  if n <=? 0 then
                    Some (Normal (respond 400 "amount_cents must be a positive integer."),
                          app)
                  else
                    match Processor.create_payment_intent uuid created
                            (Auth.user_id session) n "usd" None (intents app) with
                    | (Raise x, i1) => Some (Raise x, put_intents i1 app)
                    | (Normal intent, i1) =>
                        let (result, i2) := Processor.charge (Processor.id intent) i1 in
                        let app' := put_intents i2 app in
                        if negb (Processor.success result) then
                          Some (Normal (respond 402
                                  (json_dumps (JObject
                                     [("error"%string,
                                       JStr (Processor.error_message result))]))),
                                app')
                        else
                          Some (Normal (respond 200
                                  (json_dumps (JObject
                                     [("payment_intent_id"%string,
                                       JStr (Processor.payment_intent_id result))]))),
                                app')
                    end
              end
        end
    end.

Definition charge_handler (uuid : string) (created : float)
  : float -> Request -> Act App Response :=
  authenticated (charge_handler_inner uuid created).

(** [_intents.get(v)] for a key that came out of JSON: a text is looked
    up, a list or an object cannot be a key, anything else is a key that
    is not there. *)
Definition refund_with_key (uuid : string) (key : json) (amount : option Z)
    (i : Processor.Intents) : Outcome Processor.RefundResult * Processor.Intents :=
  match key with
  | JStr s =>
      let (r, i') := Processor.refund uuid s amount i in (Normal r, i')
  | JList _ | JObject _ => (Raise (TypeError "unhashable type"), i)
  | _ =>
      (Normal (Processor.mkRefundResult false "" "Payment intent not found."), i)
  end.

(** [refund_handler], under the decorator; [uuid] is the id drawn for
    the refund. *)
Definition refund_handler_inner (uuid : string) (request : Request)
    (session : Auth.Session) : Act App Response :=
  fun app =>
    match json_loads (body request) with
    | None => Some (Normal invalid_json, app)
    | Some body =>
        match body_get body "payment_intent_id" (JStr ""),
              body_get body "amount_cents" JNull with
        | Raise x, _ => Some (Raise x, app)
        | _, Raise x => Some (Raise x, app)
        | Normal payment_intent_id, Normal amount_cents =>
            match (if truthy amount_cents
                   then match py_int amount_cents with
                        | Raise x => Raise x
                        | Normal n => Normal (Some n)
                        end
                   else Normal None) with
            | Raise x => Some (Raise x, app)
            | Normal amount =>
                match refund_with_key uuid payment_intent_id amount (intents app) with
                | (Raise x, i') => Some (Raise x, put_intents i' app)
                | (Normal result, i') =>
                    let app' := put_intents i' app in
                    if negb (Processor.refund_success result) then
                      Some (Normal (respond 400
                              (json_dumps (JObject
                                 [("error"%string,
                                   JStr (Processor.refund_error_message result))]))),
                            app')
                    else
                      Some (Normal (respond 200
                              (json_dumps (JObject
                                 [("refund_id"%string,
                                   JStr (Processor.refund_id result))]))),
                            app')
                end
            end
        end
    end.

Definition refund_handler (uuid : string) : float -> Request -> Act App Response :=
  authenticated (refund_handler_inner uuid).

End WithEnvironment.

End Routes.
(* ================================================================== *)
(** * Vocabulary of the properties *)

Section PoolVocabulary.

Context {drv : Driver}.

(** A queue never holds more than [maxsize] items. *)
Definition pool_ok (self : ConnectionPool) : Prop :=
  maxsize (_pool self) <= 0 \/
  Z.of_nat (List.length (idle self)) <= maxsize (_pool self).

(** The pool object with [cs] as its idle connections. *)
Definition with_idle (self : ConnectionPool) (cs : list Conn) : ConnectionPool :=
  set_pool self (mkQueue (maxsize (_pool self)) cs).

(** The pool object once every connection has left its queue, which is
    how it looks while all of them are checked out. *)
Definition drained (self : ConnectionPool) : ConnectionPool := with_idle self [].

(** Phase of thread [i]. *)
Definition phase {A} (s : Sys A) (i : nat) : option (Phase A) :=
  nth_error (sys_threads s) i.

(** The reading of "exactly one of commit or rollback, decided solely by
    whether the unit of work raised, the error re-raised unchanged, the
    connection returned" for one call of [acquire]: after the unit of work
    ended with [r], the only calls are one commit or one rollback
    according to [r], then the [put]; a raised error comes out as it is. *)
Definition settles_once {A} (self : ConnectionPool) (body : Conn -> DB A)
    (e : Rt) : Prop :=
  forall c rest r e2,
    idle self = c :: rest ->
    lift (body c) (log (EvGet c) e) = (r, e2) ->
    exists r' e',
      acquire self body e = Some (r', with_idle self (rest ++ [c]), e') /\
      trace (env e') =
        trace (env e2) ++ [if raised r then EvRollback c else EvCommit c; EvPut c] /\
      (forall x, r = Raise x -> r' = Raise x).

(** Thread [i] is not refused before five units have passed since [t0]:
    a deadline it waits for, or the time at which it was refused, lies at
    or after [t0 + 5]. *)
Definition on_time {A} (t0 clk : Z) (ph : option (Phase A)) : Prop :=
  match ph with
  | Some (Waiting deadline) => t0 + 5 <= deadline
  | Some Refused => t0 + 5 <= clk
  | _ => True
  end.

(** Every connection of [cs] is idle or checked out, and nothing else
    is; the queue's bound is [m]. *)
Definition accounted {A} (cs : list Conn) (m : Z) (s : Sys A) : Prop :=
  Permutation (idle (sys_pool s) ++ checked_out s) cs /\
  maxsize (_pool (sys_pool s)) = m.

End PoolVocabulary.

(** ** The repository, for every driver *)

Section RepositoryVocabulary.

Context {drv : Driver} {cfg : Config}.

(** The calls a process has made so far. *)
Definition calls (p : Process) : list Event := trace (env (rt p)).

(** The statement texts handed to the driver, in order. *)
Definition sql_sent (evs : list Event) : list string :=
  flat_map (fun ev =>
              match ev with
              | EvExecute _ sql _ => [sql]
              | EvExecuteMany _ sql _ => [sql]
              | _ => []
              end) evs.

(** The parameter tuples handed to the driver, in order. *)
Definition params_sent (evs : list Event) : list (list pyval) :=
  flat_map (fun ev =>
              match ev with
              | EvExecute _ _ params => [params]
              | EvExecuteMany _ _ params_list => params_list
              | _ => []
              end) evs.

(** Events that hand nothing to the driver. *)
Definition silent (evs : list Event) : Prop :=
  sql_sent evs = [] /\ params_sent evs = [].

(** A call of an accessor of the repository, with its arguments. *)
Inductive Call : Type :=
| GetUserById (user_id : Z)
| GetUserByUsername (username : string)
| CreateUser (username email password_hash : string)
| DeactivateUser (user_id : Z)
| GetOrdersByUser (user_id : Z)
| GetOrderById (order_id : Z)
| CreateOrder (user_id : Z) (total_amount : float)
| UpdateOrderStatus (order_id : Z) (status : string).

Definition same_accessor (a b : Call) : bool :=
  match a, b with
  | GetUserById _, GetUserById _
  | GetUserByUsername _, GetUserByUsername _
  | CreateUser _ _ _, CreateUser _ _ _
  | DeactivateUser _, DeactivateUser _
  | GetOrdersByUser _, GetOrdersByUser _
  | GetOrderById _, GetOrderById _
  | CreateOrder _ _, CreateOrder _ _
  | UpdateOrderStatus _ _, UpdateOrderStatus _ _ => true
  | _, _ => false
  end.

(** The arguments of a call, as Python values. *)
Definition arguments (a : Call) : list pyval :=
  match a with
  | GetUserById user_id => [PyInt user_id]
  | GetUserByUsername username => [PyStr username]
  | CreateUser username email password_hash =>
      [PyStr username; PyStr email; PyStr password_hash]
  | DeactivateUser user_id => [PyInt user_id]
  | GetOrdersByUser user_id => [PyInt user_id]
  | GetOrderById order_id => [PyInt order_id]
  | CreateOrder user_id total_amount => [PyInt user_id; PyFloat total_amount]
  | UpdateOrderStatus order_id status => [PyInt order_id; PyStr status]
  end.

(** The process after a call, whatever the call returned or raised;
    [None] when it does not come back. *)
Definition after {A} (m : M A) (p : Process) : option Process :=
  option_map snd (m p).

Definition perform (a : Call) (p : Process) : option Process :=
  match a with
  | GetUserById user_id => after (get_user_by_id user_id) p
  | GetUserByUsername username => after (get_user_by_username username) p
  | CreateUser username email password_hash =>
      after (create_user username email password_hash) p
  | DeactivateUser user_id => after (deactivate_user user_id) p
  | GetOrdersByUser user_id => after (get_orders_by_user user_id) p
  | GetOrderById order_id => after (get_order_by_id order_id) p
  | CreateOrder user_id total_amount => after (create_order user_id total_amount) p
  | UpdateOrderStatus order_id status => after (update_order_status order_id status) p
  end.

(** A continuation that leaves the process as it is. *)
Definition stateless {A B} (k : A -> M B) : Prop :=
  forall a p, exists o, k a p = Some (o, p).

(** A row agrees with the annotations of a record: every field has its
    column, holding a value of the annotated class (an integer for a
    flag, which is how the datastore keeps one). *)
Definition conforms (annotations : list (string * pytype)) (kw : dict) : bool :=
  forallb (fun kt : string * pytype =>
             match dict_get kw (fst kt) with
             | Some v =>
                 match snd kt, v with
                 | Tbool, PyInt _ => true
                 | t, _ => has_type t v
                 end
             | None => false
             end) annotations.

(** The reading of "fails on missing or mistyped columns" for a
    constructor: a row that does not agree with the annotations makes it
    raise. *)
Definition strict_mapping {R} (annotations : list (string * pytype))
    (init : dict -> Outcome R) : Prop :=
  forall kw, conforms annotations kw = false -> raised (init kw) = true.

End RepositoryVocabulary.

(** ** Over the in-memory datastore *)

Section StoreVocabulary.

Context {cfg : Config}.

(** The committed content of the datastore of a process. *)
Definition content (p : Process) : Mem.Data :=
  Mem.committed (world (env (rt p))).

(** A process between two calls: its pool is built and not empty, every
    idle connection is open, and no transaction is open. *)
Definition ready (p : Process) : Prop :=
  exists pool,
    module_pool p = Some pool /\
    idle pool <> [] /\
    pool_ok pool /\
    Forall (fun c => Mem.is_open c (world (env (rt p))) = true) (idle pool) /\
    Mem.txn (world (env (rt p))) = None.

(** The connection the next call will be given. *)
Definition next_conn (p : Process) : option Conn :=
  match module_pool p with
  | Some pool => hd_error (idle pool)
  | None => None
  end.

(** The call returns [v]. *)
Definition returns {A} (m : M A) (p : Process) (v : A) : Prop :=
  exists p', m p = Some (Normal v, p') /\ ready p' /\ content p' = content p.

(** The record with every field taken from the stored row. *)
Definition user_record (u : Mem.UserRow) : UserRecord :=
  mkUserRecord (PyInt (Mem.ur_id u)) (Mem.ur_username u) (Mem.ur_email u)
               (Mem.ur_password_hash u) (Mem.ur_is_active u).

Definition order_record (o : Mem.OrderRow) : OrderRecord :=
  mkOrderRecord (PyInt (Mem.or_id o)) (Mem.or_user_id o) (Mem.or_total_amount o)
                (Mem.or_status o) (Mem.or_created_at o).


End StoreVocabulary.

(** Concrete states over the in-memory datastore, on which the theorems
    are exercised. *)
Module Sample.

Definition data : Mem.Data :=
  Mem.mkData
    [Mem.mkUserRow 1 (PyStr "ada") (PyStr "ada@example.org") (PyStr "x") (PyInt 1)]
    [Mem.mkOrderRow 1 (PyInt 1) (PyFloat 10%float) (PyStr "paid")
                    (PyStr "2023-12-31 09:00:00")]
    "2024-01-01 00:00:00".

(** Before any connection is opened. *)
Definition rt0 : Rt := mkRt (mkEnv (Mem.fresh data) []) 0.

(** Once [n] connections are open. *)
Definition rt_open (n : nat) : Rt :=
  mkRt (mkEnv (Mem.mkWorld data None n []) []) 0.

(** A pool of capacity [m] whose idle connections are [cs]. *)
Definition pool (m : Z) (cs : list Conn) : ConnectionPool :=
  mkPool "app.db" (mkQueue m cs).

(** Units of work: one interrupted from the keyboard, one that fails
    with an application error, one that inserts an order. *)
Definition interrupted : Conn -> DB unit := fun _ => throw KeyboardInterrupt.

Definition failing : Conn -> DB unit :=
  fun _ => throw (OtherException "ValueError").

Definition insert_order : Conn -> DB QueryResult :=
  execute_body
    "INSERT INTO orders (user_id, total_amount, status) VALUES (?, ?, 'pending')"
    [PyInt 7; PyFloat 42.5%float].

(** A process whose pool of two is built and idle. *)
Definition serving : Process :=
  mkProcess (Some (pool 2 [0; 1]%nat)) (rt_open 2).

(** A batch of three inserts, the second with a username already taken. *)
Definition insert_user_sql : string :=
  "INSERT INTO users (username, email, password_hash, is_active) VALUES (?, ?, ?, 1)".

Definition batch : list (list pyval) :=
  [[PyStr "bob"; PyStr "bob@example.org"; PyStr "y"];
   [PyStr "ada"; PyStr "other@example.org"; PyStr "z"];
   [PyStr "cy"; PyStr "cy@example.org"; PyStr "w"]].

End Sample.

(* ================================================================== *)
(** * Vocabulary of the further properties *)

Section ServingVocabulary.

Context {drv : Driver} {cfg : Config}.

(** The queue after one unit of work was served: its head has gone to
    the back. *)
Definition rot1 (cs : list Conn) : list Conn :=
  match cs with
  | [] => []
  | c :: rest => rest ++ [c]
  end.

(** Units of work run one after the other through the module's pool,
    whatever each returns or raises. *)
Fixpoint serve {A} (bodies : list (Conn -> DB A)) (p : Process) : option Process :=
  match bodies with
  | [] => Some p
  | body :: bodies' =>
      match after (with_connection body) p with
      | None => None
      | Some p' => serve bodies' p'
      end
  end.

(** A unit of work cut short from the keyboard once [body] is through. *)
Definition interrupted_after {A} (body : Conn -> DB A) : Conn -> DB A :=
  fun c => _ <- body c ;; throw KeyboardInterrupt.

End ServingVocabulary.

(** ** Sequences of calls on the in-process services *)

Module ProcessorOps.

Import Processor.

Section WithEnvironment.

Context {py : Builtins} {gw : Gateway}.

(** A call of the module, with what the operating system gave it. *)
Inductive Op : Type :=
| Create (uuid : string) (now : float) (user_id amount_cents : Z)
         (currency : string) (metadata : option dict)
| Charge (payment_intent_id : string)
| Refund (uuid : string) (payment_intent_id : string) (amount : option Z).

(** The intents after a call, whatever it returned or raised. *)
Definition apply (op : Op) (s : Intents) : Intents :=
  match op with
  | Create uuid now user_id amount_cents currency metadata =>
      snd (create_payment_intent uuid now user_id amount_cents currency metadata s)
  | Charge k => snd (charge k s)
  | Refund uuid k amount => snd (refund uuid k amount s)
  end.

Definition run (ops : list Op) (s : Intents) : Intents :=
  fold_left (fun s op => apply op s) ops s.

(** No call of the sequence draws [k] as the id of a new intent. *)
Definition never_draws (k : string) (ops : list Op) : Prop :=
  Forall (fun op =>
            match op with
            | Create uuid _ _ _ _ _ => uuid <> k
            | _ => True
            end) ops.

(** Every intent is kept under its own id and is of a positive amount. *)
Definition sound (s : Intents) : Prop :=
  forall k intent,
    pd_get s k = Some intent -> id intent = k /\ 0 < amount_cents intent.

End WithEnvironment.

End ProcessorOps.

Module InvoiceOps.

Import Invoices.

Section WithEnvironment.

Context {py : Builtins}.

Inductive Op : Type :=
| Create (uuid : string) (now : float) (user_id : Z) (line_items : list LineItem)
         (currency : string) (metadata : option dict)
| Send (invoice_id : string)
| Void (invoice_id : string).

Definition apply (op : Op) (s : Store) : Store :=
  match op with
  | Create uuid now user_id line_items currency metadata =>
      snd (create_invoice uuid now user_id line_items currency metadata s)
  | Send k => snd (send_invoice k s)
  | Void k => snd (void_invoice k s)
  end.

Definition run (ops : list Op) (s : Store) : Store :=
  fold_left (fun s op => apply op s) ops s.

Definition never_draws (k : string) (ops : list Op) : Prop :=
  Forall (fun op =>
            match op with
            | Create uuid _ _ _ _ _ => uuid <> k
            | _ => True
            end) ops.

(** Every invoice is kept under its own id, has a line item, and is not
    marked paid. *)
Definition sound (s : Store) : Prop :=
  forall k invoice,
    pd_get s k = Some invoice ->
    id invoice = k /\ line_items invoice <> [] /\ status invoice <> PAID.

End WithEnvironment.

End InvoiceOps.

(** ** Vocabulary of the sessions and the middleware *)

(** How often the character occurs in the text. *)
Fixpoint count_char (c : ascii) (s : string) : nat :=
  match s with
  | EmptyString => O
  | String c' s' => ((if Ascii.eqb c' c then 1 else 0) + count_char c s')%nat
  end.

(** The session is kept under the token and has not expired at [now]. *)
Definition live_session (now : float) (token : string)
    (store : Auth.SessionStore) (session : Auth.Session) : Prop :=
  pd_get store token = Some session /\
  PrimFloat.ltb (Auth.expires_at session) now = false.

(** The client a request is counted for by the rate limiter. *)
Definition client_of (request : Middleware.Request) : string :=
  Middleware.get_default (Middleware.headers request) "X-Forwarded-For" "unknown".

(** ** A sample environment for the services and the routes *)

Module SampleServices.

(** A configuration that asks for a pool of no connection. *)
Definition no_pool : Config := {| DATABASE_URL := "app.db"; POOL_SIZE := 0 |}.

(** [str.lower] and [str.strip] on ASCII text. *)
Definition lower_char (c : ascii) : ascii :=
  let n := nat_of_ascii c in
  if ((65 <=? n) && (n <=? 90))%nat then ascii_of_nat (n + 32) else c.

Fixpoint lower (s : string) : string :=
  match s with
  | EmptyString => EmptyString
  | String c r => String (lower_char c) (lower r)
  end.

Definition is_space (c : ascii) : bool :=
  let n := nat_of_ascii c in
  ((n =? 32) || ((9 <=? n) && (n <=? 13)))%nat.

Fixpoint lstrip (s : string) : string :=
  match s with
  | EmptyString => EmptyString
  | String c r => if is_space c then lstrip r else s
  end.

Fixpoint rstrip (s : string) : string :=
  match s with
  | EmptyString => EmptyString
  | String c r =>
      match rstrip r with
      | EmptyString => if is_space c then EmptyString else String c EmptyString
      | t => String c t
      end
  end.

(** An [int] as a [float], for an [int] below 2^63 in magnitude. *)
Definition to_float (z : Z) : float :=
  if z <? 0 then PrimFloat.opp (PrimFloat.of_uint63 (Uint63.of_Z (- z)))
  else PrimFloat.of_uint63 (Uint63.of_Z z).

Definition builtins : Builtins :=
  {| str_lower := lower;
     str_strip := fun s => rstrip (lstrip s);
     float_of_int := to_float |}.

(** [bytes.hex] and [bytes.fromhex] (without the blanks [fromhex]
    skips). *)
Definition hex_digit (n : nat) : ascii :=
  ascii_of_nat (if (n <? 10)%nat then 48 + n else 87 + n).

Fixpoint to_hex (s : string) : string :=
  match s with
  | EmptyString => EmptyString
  | String c r =>
      String (hex_digit (nat_of_ascii c / 16))
             (String (hex_digit (nat_of_ascii c mod 16)) (to_hex r))
  end.

Definition hex_value (c : ascii) : option nat :=
  let n := nat_of_ascii c in
  if ((48 <=? n) && (n <=? 57))%nat then Some (n - 48)%nat
  else if ((97 <=? n) && (n <=? 102))%nat then Some (n - 87)%nat
  else if ((65 <=? n) && (n <=? 70))%nat then Some (n - 55)%nat
  else None.

Fixpoint from_hex (s : string) : option string :=
  match s with
  | EmptyString => Some EmptyString
  | String a (String b r) =>
      match hex_value a, hex_value b, from_hex r with
      | Some x, Some y, Some t => Some (String (ascii_of_nat (16 * x + y)) t)
      | _, _, _ => None
      end
  | String _ EmptyString => None
  end.

(** The keyed hashes are stood in for by the hexadecimal text of their
    two arguments put together. *)
Definition crypto : Crypto :=
  {| hmac_sha256_hex := fun key msg => to_hex (String.append key msg);
     pbkdf2_sha256_hex := fun password salt => to_hex (String.append salt password);
     bytes_fromhex := from_hex;
     bytes_hex := to_hex |}.

Definition gateway : Processor.Gateway :=
  {| Processor.PAYMENT_GATEWAY_URL := "https://pay.example.org";
     Processor.PAYMENT_API_KEY := "k-1" |}.

Definition mail : Sender.Mail :=
  {| Sender.SMTP_HOST := "smtp.example.org";
     Sender.SMTP_USER := "mailer";
     Sender.WEBHOOK_SECRET := "s3cret" |}.

(** The bodies of three requests, and a [json] module that reads these
    three and writes a value down by its kind only. *)
Definition quoted (s : string) : string :=
  String "034"%char (String.append s (String "034"%char EmptyString)).

Definition order_body : string :=
  String.append "{" (String.append (quoted "total_amount") ": 42.5}").

Definition charge_body : string :=
  String.append "{" (String.append (quoted "amount_cents") ": 1200}").

Definition refund_body : string :=
  String.append "{"
    (String.append (quoted "payment_intent_id")
       (String.append ": " (String.append (quoted "pi-7") "}"))).

Definition loads (text : string) : option json :=
  if String.eqb text order_body then
    Some (JObject [("total_amount"%string, JFloat 42.5%float)])
  else if String.eqb text charge_body then
    Some (JObject [("amount_cents"%string, JInt 1200)])
  else if String.eqb text refund_body then
    Some (JObject [("payment_intent_id"%string, JStr "pi-7")])
  else None.

Definition dumps (v : json) : string :=
  match v with
  | JNull => "null"
  | JBool true => "true"
  | JBool false => "false"
  | JInt _ => "<int>"
  | JFloat _ => "<float>"
  | JStr s => quoted s
  | JList _ => "[...]"
  | JObject _ => "{...}"
  end.

Definition json_module : Json :=
  {| json_dumps := dumps;
     json_loads := loads;
     py_float := fun v =>
       match v with
       | JFloat x => Normal x
       | JInt n => Normal (to_float n)
       | JBool b => Normal (to_float (if b then 1 else 0))
       | JStr _ => Raise (ValueError "could not convert string to float")
       | _ => Raise (TypeError "float() argument must be a string or a real number")
       end;
     py_int := fun v =>
       match v with
       | JInt n => Normal n
       | JBool b => Normal (if b then 1 else 0)
       | JStr _ => Raise (ValueError "invalid literal for int() with base 10")
       | _ => Raise (TypeError "int() argument must be a string or a real number")
       end |}.

(** A session of user 1 that expires at time 5000, and a request that
    carries its token. *)
Definition session : Auth.Session := Auth.mkSession "t-1" 1 5000%float [].

Definition request (body : string) : Middleware.Request :=
  Middleware.mkRequest "POST" "/" [("Authorization", "Bearer t-1")]%string body.

(** A succeeded payment of user 2, a failed one, and a pending
    notification. *)
Definition paid : Processor.PaymentIntent :=
  Processor.mkPaymentIntent "pi-7" 2 1200 "usd" Processor.SUCCEEDED 900%float [].

Definition failed : Processor.PaymentIntent :=
  Processor.mkPaymentIntent "pi-8" 2 300 "usd" Processor.FAILED 900%float [].

Definition note : Sender.Notification :=
  Sender.mkNotification "n-1" 1 "webhook" "Paid" "Thank you." Sender.PENDING
                        900%float None "".

(** The application while it serves: the session kept, the pool of
    [Sample.serving], the two payments. *)
Definition app : @Routes.App Mem.driver :=
  Routes.mkApp [("t-1"%string, session)] Sample.serving
               [("pi-7"%string, paid); ("pi-8"%string, failed)].

(** A process whose pool of one is built and idle. *)
Definition single : Process :=
  mkProcess (Some (Sample.pool 1 [0]%nat)) (Sample.rt_open 1).

(** Calls on the payments of [app], none of which draws the id of the
    failed one. *)
Definition calls_on_failed : list (@ProcessorOps.Op) :=
  [ProcessorOps.Charge "pi-8";
   ProcessorOps.Refund "re-1" "pi-8" None;
   ProcessorOps.Create "pi-9" 950%float 2 300 "USD" None;
   ProcessorOps.Charge "pi-8"].

End SampleServices.

(* ================================================================== *)
(** * Properties *)

(** ** The pool, for every driver *)

Section PoolFacts.

Context {drv : Driver}.

Lemma set_pool_same (self : ConnectionPool) : set_pool self (_pool self) = self.
Proof. destruct self; reflexivity. Qed.

Lemma with_idle_same (self : ConnectionPool) : with_idle self (idle self) = self.
Proof. destruct self as [u [m cs]]; reflexivity. Qed.

Lemma idle_with_idle (self : ConnectionPool) (cs : list Conn) :
  idle (with_idle self cs) = cs.
Proof. reflexivity. Qed.

Lemma idle_empty_drained (self : ConnectionPool) :
  idle self = [] -> drained self = self.
Proof. intros H; unfold drained; rewrite <- H; apply with_idle_same. Qed.

Lemma Queue_put_room (q : Queue) (c : Conn) :
  maxsize q <= 0 \/ Z.of_nat (List.length (items q)) < maxsize q ->
  Queue_put q c = Some (mkQueue (maxsize q) (items q ++ [c])).
Proof.
  intros H; unfold Queue_put, Queue_full.
  destruct (0 <? maxsize q) eqn:Hpos; simpl; [|reflexivity].
  apply Z.ltb_lt in Hpos.
  destruct (maxsize q <=? Z.of_nat (List.length (items q))) eqn:Hle;
    [apply Z.leb_le in Hle; lia | reflexivity].
Qed.

Lemma lift_clock {A} (m : DB A) (e : Rt) : clock (snd (lift m e)) = clock e.
Proof. unfold lift; destruct (m (env e)); reflexivity. Qed.

(** [close_all]'s loop is [get_nowait] until [empty]. *)
Lemma close_loop_get_nowait (q : Queue) (e : Rt) :
  close_loop (items q) e =
  if Queue_empty q then (Normal tt, [], e)
  else
    match Queue_get_nowait q with
    | (Normal conn, q') =>
        match lift (Connection_close conn) e with
        | (Raise x, e1) => (Raise x, items q', e1)
        | (Normal _, e1) => close_loop (items q') e1
        end
    | (Raise x, _) => (Raise x, items q, e)
    end.
Proof.
  unfold Queue_empty, Queue_get_nowait; destruct (items q); reflexivity.
Qed.

(** [acquire] on a pool with nothing idle. *)
Lemma acquire_empty {A} (self : ConnectionPool) (body : Conn -> DB A) (e : Rt) :
  idle self = [] ->
  acquire self body e =
  Some (Raise (RuntimeError exhausted_message), self, log EvTimeout (elapse 5 e)).
Proof.
  intros H; unfold acquire, Queue_get; unfold idle in H; rewrite H.
  now rewrite set_pool_same.
Qed.

(** [acquire] on a pool whose queue hands out [c]. *)
Lemma acquire_granted {A} (self : ConnectionPool) (body : Conn -> DB A) (e : Rt)
    (c : Conn) (rest : list Conn) :
  pool_ok self ->
  idle self = c :: rest ->
  acquire self body e =
  let (r, e2) := lift (body c) (log (EvGet c) e) in
  let (r', e3) := lift (settle c r) e2 in
  Some (r', with_idle self (rest ++ [c]), log (EvPut c) e3).
Proof.
  intros Hok H; unfold acquire, Queue_get; unfold pool_ok, idle in *; rewrite H in *.
  destruct (lift (body c) _) as [r e2]; destruct (lift (settle c r) e2) as [r' e3].
  rewrite Queue_put_room; simpl in *; [reflexivity | lia].
Qed.

(** What [settle] calls and returns, case by case. *)
Lemma settle_spec {A} (c : Conn) (r : Outcome A) (e2 : Rt) :
  match r with
  | Normal v =>
      trace (env (snd (lift (settle c r) e2))) = trace (env e2) ++ [EvCommit c] /\
      (fst (drv_commit c (world (env e2))) = Normal tt ->
       fst (lift (settle c r) e2) = Normal v)
  | Raise x =>
      if isinstance_Exception x then
        trace (env (snd (lift (settle c r) e2))) = trace (env e2) ++ [EvRollback c] /\
        (fst (drv_rollback c (world (env e2))) = Normal tt ->
         fst (lift (settle c r) e2) = Raise x)
      else
        snd (lift (settle c r) e2) = e2 /\ fst (lift (settle c r) e2) = Raise x
  end.
Proof.
  destruct r as [v | x]; simpl.
  - unfold lift, bind, Connection_commit, call.
    destruct (drv_commit c (world (env e2))) as [[[]|y] w]; simpl; split;
      try reflexivity; intros; try reflexivity; discriminate.
  - destruct (isinstance_Exception x).
    + unfold lift, bind, Connection_rollback, call.
      destruct (drv_rollback c (world (env e2))) as [[[]|y] w]; simpl; split;
        try reflexivity; intros; try reflexivity; discriminate.
    + unfold lift, throw; destruct e2; simpl; split; reflexivity.
Qed.

(** *** The interleaving machine *)

Lemma nth_error_set_nth_eq {X} (l : list X) (i : nat) (x y : X) :
  nth_error l i = Some x -> nth_error (set_nth i y l) i = Some y.
Proof.
  revert i; induction l as [|z l IH]; intros [|i] H; simpl in *;
    try discriminate; auto.
Qed.

Lemma nth_error_set_nth_neq {X} (l : list X) (i j : nat) (y : X) :
  i <> j -> nth_error (set_nth i y l) j = nth_error l j.
Proof.
  revert i j; induction l as [|z l IH]; intros [|i] [|j] H; simpl;
    try reflexivity; try congruence.
  apply IH; congruence.
Qed.

Lemma step_thread_clock {A} (body : Conn -> DB A) self e ph pool' e' ph' :
  step_thread body self e ph = (pool', e', ph') -> clock e' = clock e.
Proof.
  destruct ph as [| d | c | c r | c r | | r]; simpl.
  - destruct (idle self); inversion 1; reflexivity.
  - destruct (idle self); [|inversion 1; reflexivity].
    destruct (d <=? clock e); inversion 1; reflexivity.
  - pose proof (lift_clock (body c) e) as Hc.
    destruct (lift (body c) e); inversion 1; subst; exact Hc.
  - pose proof (lift_clock (settle c r) e) as Hc.
    destruct (lift (settle c r) e); inversion 1; subst; exact Hc.
  - destruct (Queue_put (_pool self) c); inversion 1; reflexivity.
  - inversion 1; reflexivity.
  - inversion 1; reflexivity.
Qed.

(** A thread is refused only from [Waiting], with its deadline behind
    it, and the refusal leaves the pool as it is. *)
Lemma step_thread_refused {A} (body : Conn -> DB A) self e ph pool' e' :
  step_thread body self e ph = (pool', e', Refused) ->
  ph = Refused \/
  exists deadline,
    ph = Waiting deadline /\ deadline <= clock e /\ idle self = [] /\
    pool' = self /\ e' = log EvTimeout e.
Proof.
  destruct ph as [| d | c | c r | c r | | r]; simpl.
  - destruct (idle self); inversion 1.
  - destruct (idle self) eqn:Hi; [|inversion 1].
    destruct (d <=? clock e) eqn:Hd; inversion 1; subst.
    right; exists d; apply Z.leb_le in Hd; auto.
  - destruct (lift (body c) e); inversion 1.
  - destruct (lift (settle c r) e); inversion 1.
  - destruct (Queue_put (_pool self) c); inversion 1.
  - auto.
  - inversion 1.
Qed.

Lemma step_on_time {A} (bodies : nat -> Conn -> DB A) (t0 : Z) (i : nat)
    (a : Action) (s : Sys A) :
  t0 <= clock (sys_rt s) ->
  on_time t0 (clock (sys_rt s)) (phase s i) ->
  t0 <= clock (sys_rt (step bodies a s)) /\
  on_time t0 (clock (sys_rt (step bodies a s))) (phase (step bodies a s) i).
Proof.
  intros Ht Hp; destruct a as [dt | j]; simpl.
  - split; [lia|].
    unfold phase in *; simpl.
    destruct (nth_error (sys_threads s) i) as [[| d | c | c r | c r | | r]|];
      simpl in *; auto; lia.
  - destruct (nth_error (sys_threads s) j) as [ph|] eqn:Hj; [|auto].
    destruct (step_thread (bodies j) (sys_pool s) (sys_rt s) ph)
      as [[pool' e'] ph'] eqn:Hs.
    pose proof (step_thread_clock _ _ _ _ Hs) as Hc; simpl; rewrite Hc.
    split; [exact Ht|].
    unfold phase in *; simpl.
    destruct (Nat.eq_dec j i) as [->|Hne].
    + rewrite (nth_error_set_nth_eq _ _ ph' Hj); rewrite Hj in Hp.
      destruct ph' as [| d' | c' | c' r' | c' r' | | r']; simpl; auto.
      * destruct ph as [| d | c | c r | c r | | r]; simpl in Hs.
        -- destruct (idle (sys_pool s)); inversion Hs; lia.
        -- destruct (idle (sys_pool s)); [|inversion Hs].
           destruct (d <=? clock (sys_rt s)); inversion Hs; subst; exact Hp.
        -- destruct (lift (bodies i c) (sys_rt s)); inversion Hs.
        -- destruct (lift (settle c r) (sys_rt s)); inversion Hs.
        -- destruct (Queue_put (_pool (sys_pool s)) c); inversion Hs.
        -- inversion Hs.
        -- inversion Hs.
      * destruct (step_thread_refused _ _ _ _ Hs) as [-> | (d & -> & Hd & _)];
          simpl in Hp; lia.
    + rewrite nth_error_set_nth_neq by exact Hne. exact Hp.
Qed.

Lemma run_on_time {A} (bodies : nat -> Conn -> DB A) (t0 : Z) (i : nat)
    (acts : list Action) :
  forall s : Sys A,
    t0 <= clock (sys_rt s) ->
    on_time t0 (clock (sys_rt s)) (phase s i) ->
    t0 <= clock (sys_rt (run bodies acts s)) /\
    on_time t0 (clock (sys_rt (run bodies acts s))) (phase (run bodies acts s) i).
Proof.
  induction acts as [|a acts IH]; intros s Ht Hp; simpl; [auto|].
  destruct (@step_on_time A bodies t0 i a s Ht Hp) as [Ht' Hp'].
  apply IH; assumption.
Qed.

(** The connections held, with thread [i] singled out. *)
Lemma holds_set_nth {A} (l : list (Phase A)) (i : nat) (ph : Phase A) :
  nth_error l i = Some ph ->
  exists others,
    Permutation (flat_map holds l) (holds ph ++ others) /\
    forall ph', Permutation (flat_map holds (set_nth i ph' l)) (holds ph' ++ others).
Proof.
  revert i; induction l as [|y l IH]; intros [|i] H; simpl in *; try discriminate.
  - inversion H; subst. exists (flat_map holds l); split; intros; reflexivity.
  - destruct (IH i H) as (others & H1 & H2).
    exists (holds y ++ others); split.
    + rewrite H1. apply Permutation_app_swap_app.
    + intros ph'. rewrite (H2 ph'). apply Permutation_app_swap_app.
Qed.

Lemma step_accounted {A} (bodies : nat -> Conn -> DB A) (cs : list Conn) (m : Z)
    (a : Action) (s : Sys A) :
  m <= 0 \/ Z.of_nat (List.length cs) <= m ->
  accounted cs m s -> accounted cs m (step bodies a s).
Proof.
  intros Hm [Hp Hmax]; destruct a as [dt | j]; simpl; [split; assumption|].
  destruct (nth_error (sys_threads s) j) as [ph|] eqn:Hj; [|split; assumption].
  destruct (holds_set_nth _ _ Hj) as (others & H1 & H2).
  unfold checked_out in Hp; rewrite H1 in Hp.
  destruct (step_thread (bodies j) (sys_pool s) (sys_rt s) ph)
    as [[pool' e'] ph'] eqn:Hs.
  unfold accounted, checked_out; simpl; rewrite (H2 ph').
  assert (Hgrant : forall c rest,
             idle (sys_pool s) = c :: rest -> holds ph = [] ->
             Permutation (rest ++ [c] ++ others) cs).
  { intros c rest Hi Hh. rewrite Hi, Hh in Hp. rewrite <- Hp. simpl.
    rewrite Permutation_app_comm. simpl. apply perm_skip.
    apply Permutation_app_comm. }
  destruct ph as [| d | c | c r | c r | | r]; simpl in Hs.
  - destruct (idle (sys_pool s)) as [|c rest] eqn:Hi;
      injection Hs as <- <- <-; simpl.
    + split; [rewrite Hi; exact Hp | exact Hmax].
    + split; [apply (Hgrant c rest); reflexivity | exact Hmax].
  - destruct (idle (sys_pool s)) as [|c rest] eqn:Hi.
    + destruct (d <=? clock (sys_rt s)); injection Hs as <- <- <-; simpl;
        (split; [rewrite Hi; exact Hp | exact Hmax]).
    + injection Hs as <- <- <-; simpl.
      split; [apply (Hgrant c rest); reflexivity | exact Hmax].
  - destruct (lift (bodies j c) (sys_rt s)); injection Hs as <- <- <-; simpl.
    split; assumption.
  - destruct (lift (settle c r) (sys_rt s)); injection Hs as <- <- <-; simpl.
    split; assumption.
  - destruct (Queue_put (_pool (sys_pool s)) c) as [q'|] eqn:Hq;
      injection Hs as <- <- <-; simpl; [|split; assumption].
    unfold Queue_put in Hq.
    destruct (Queue_full (_pool (sys_pool s))); [discriminate|].
    injection Hq as <-; simpl. split; [|exact Hmax].
    unfold idle; simpl. simpl in Hp. rewrite <- Hp.
    rewrite <- app_assoc. apply Permutation_app_head.
    reflexivity.
  - injection Hs as <- <- <-; split; assumption.
  - injection Hs as <- <- <-; split; assumption.
Qed.

Lemma run_accounted {A} (bodies : nat -> Conn -> DB A) (cs : list Conn) (m : Z)
    (acts : list Action) :
  m <= 0 \/ Z.of_nat (List.length cs) <= m ->
  forall s : Sys A, accounted cs m s -> accounted cs m (run bodies acts s).
Proof.
  intros Hm; induction acts as [|a acts IH]; intros s Hs; simpl; [exact Hs|].
  apply IH, step_accounted; assumption.
Qed.

(** In an accounted state the [put] of the [finally] clause finds room. *)
Lemma releasing_has_room {A} (cs : list Conn) (m : Z) (s : Sys A) (i : nat)
    (c : Conn) (r : Outcome A) :
  m <= 0 \/ Z.of_nat (List.length cs) <= m ->
  accounted cs m s ->
  phase s i = Some (Releasing c r) ->
  Queue_put (_pool (sys_pool s)) c =
  Some (mkQueue m (idle (sys_pool s) ++ [c])).
Proof.
  intros Hm [Hp Hmax] Hi.
  destruct (holds_set_nth _ _ Hi) as (others & H1 & _).
  unfold checked_out in Hp; rewrite H1 in Hp; simpl in Hp.
  apply Permutation_length in Hp. rewrite length_app in Hp; simpl in Hp.
  rewrite Queue_put_room; [rewrite Hmax; reflexivity|].
  rewrite Hmax. unfold idle in Hp. lia.
Qed.

(** *** Construction *)

Lemma init_loop_grows (n : nat) (url : string) :
  forall q e q' e',
    init_loop n url q e = Some (Normal q', e') ->
    maxsize q' = maxsize q /\
    List.length (items q') = (List.length (items q) + n)%nat.
Proof.
  induction n as [|n IH]; intros q e q' e' H; simpl in H.
  - injection H as <- <-; split; [reflexivity | lia].
  - destruct (lift (sqlite3_connect url) e) as [[conn|x] e1]; [|discriminate].
    unfold Queue_put in H. destruct (Queue_full q); [discriminate|].
    apply IH in H; simpl in H. destruct H as [H1 H2]; split; [exact H1|].
    rewrite H2, length_app; simpl; lia.
Qed.

(** Construction never waits on its own queue. *)
Lemma init_loop_returns (n : nat) (url : string) :
  forall q e,
    maxsize q <= 0 \/ Z.of_nat (List.length (items q) + n) <= maxsize q ->
    init_loop n url q e <> None.
Proof.
  induction n as [|n IH]; intros q e Hq; simpl; [discriminate|].
  destruct (lift (sqlite3_connect url) e) as [[conn|x] e1]; [|discriminate].
  rewrite Queue_put_room by lia.
  apply IH; simpl. rewrite length_app; simpl. lia.
Qed.

Lemma ConnectionPool_init_returns (url : string) (N : Z) (e : Rt) :
  ConnectionPool_init url N e <> None.
Proof.
  unfold ConnectionPool_init.
  pose proof (@init_loop_returns (Z.to_nat N) url (mkQueue N []) e) as H.
  destruct (init_loop (Z.to_nat N) url (mkQueue N []) e) as [[[q|x] e1]|];
    try discriminate.
  exfalso; apply H; [simpl; lia | reflexivity].
Qed.

Lemma ConnectionPool_init_spec (url : string) (N : Z) (e e' : Rt)
    (self : ConnectionPool) :
  ConnectionPool_init url N e = Some (Normal self, e') ->
  maxsize (_pool self) = N /\
  List.length (idle self) = Z.to_nat N /\
  pool_ok self.
Proof.
  unfold ConnectionPool_init; intros H.
  destruct (init_loop (Z.to_nat N) url (mkQueue N []) e) as [[[q|x] e1]|] eqn:Hl;
    try discriminate.
  injection H as <- <-.
  apply init_loop_grows in Hl; simpl in Hl; destruct Hl as [H1 H2].
  unfold pool_ok, idle; simpl. rewrite H1, H2.
  repeat split; lia.
Qed.

(** *** A thread alone does what [acquire] does *)

Lemma thread_alone_is_acquire {A} (self : ConnectionPool) (body : Conn -> DB A)
    (e : Rt) :
  pool_ok self ->
  match acquire self body e with
  | Some (r, self', e') =>
      match idle self with
      | [] =>
          run (fun _ => body) [Run 0; Tick 5; Run 0] (mkSys self e [Start]) =
          mkSys self' e' [Refused] /\
          outcome_of (@Refused A) = Some r
      | _ :: _ =>
          run (fun _ => body) [Run 0; Run 0; Run 0; Run 0] (mkSys self e [Start]) =
          mkSys self' e' [Finished r]
      end
  | None => False
  end.
Proof.
  intros Hok. destruct (idle self) as [|c rest] eqn:Hi.
  - rewrite (acquire_empty _ _ _ Hi). simpl. rewrite Hi. simpl.
    rewrite Hi. simpl. rewrite Z.leb_refl. split; reflexivity.
  - rewrite (acquire_granted _ _ Hok Hi). simpl. rewrite Hi. simpl.
    destruct (lift (body c) (log (EvGet c) e)) as [r e2]; simpl.
    destruct (lift (settle c r) e2) as [r' e3]; simpl.
    rewrite Queue_put_room.
    + reflexivity.
    + unfold pool_ok, idle in Hok, Hi; rewrite Hi in Hok; simpl in *. lia.
Qed.

(** *** The contract of the pool *)

(** C1.  A pool built with capacity [N] and shared by any number of
    threads under any schedule: at every instant each connection of the
    pool is either idle or checked out by one thread and there is no
    other, so the two counts add up to the capacity; and a thread that
    holds a connection gives it back to the idle queue within its next
    three steps (unit of work, commit or rollback, [put]) whatever the
    unit of work and the commit or rollback do, the [put] never waiting. *)
Theorem acquire_returns_connection_capacity_constant :
  forall A (bodies : nat -> Conn -> DB A) (url : string) (N : Z) (e0 e : Rt)
         (self : ConnectionPool) (n : nat) (acts : list Action),
    ConnectionPool_init url N e0 = Some (Normal self, e) ->
    let s := run bodies acts (spawn self e n) in
    Permutation (idle (sys_pool s) ++ checked_out s) (idle self) /\
    Z.of_nat (List.length (idle (sys_pool s)) + List.length (checked_out s)) =
      Z.max 0 N /\
    forall i c,
      phase s i = Some (Holding c) ->
      let s' := run bodies [Run i; Run i; Run i] s in
      (exists r, phase s' i = Some (Finished r)) /\
      idle (sys_pool s') = idle (sys_pool s) ++ [c] /\
      Permutation (c :: checked_out s') (checked_out s).
Proof.
  intros A bodies url N e0 e self n acts Hinit s.
  destruct (ConnectionPool_init_spec _ _ _ Hinit) as (Hmax & Hlen & Hok).
  assert (Hm : N <= 0 \/ Z.of_nat (List.length (idle self)) <= N)
    by (rewrite Hlen; lia).
  assert (Hacc : accounted (idle self) N s).
  { apply run_accounted; [exact Hm|].
    split; [|exact Hmax]. unfold checked_out, spawn; simpl.
    replace (flat_map holds (repeat (@Start A) n)) with (@nil Conn)
      by (induction n; simpl; auto).
    rewrite app_nil_r; reflexivity. }
  destruct Hacc as [Hp Hmx].
  split; [exact Hp|]. split.
  { apply Permutation_length in Hp. rewrite length_app in Hp. rewrite Hp, Hlen. lia. }
  intros i c Hi s'.
  destruct (holds_set_nth _ _ Hi) as (others & H1 & H2).
  subst s'.
  change (run bodies [Run i; Run i; Run i] s)
    with (step bodies (Run i) (step bodies (Run i) (step bodies (Run i) s))).
  (* the unit of work *)
  set (s1 := step bodies (Run i) s).
  assert (Hs1 : exists r1 e1,
             s1 = mkSys (sys_pool s) e1 (set_nth i (Settling c r1) (sys_threads s))).
  { unfold s1; simpl. unfold phase in Hi. rewrite Hi. simpl.
    destruct (lift (bodies i c) (sys_rt s)) as [r1 e1]. eauto. }
  destruct Hs1 as (r1 & e1 & Hs1).
  (* commit or rollback *)
  set (s2 := step bodies (Run i) s1).
  assert (Hs2 : exists r2 e2,
             s2 = mkSys (sys_pool s) e2 (set_nth i (Releasing c r2) (sys_threads s))).
  { unfold s2; rewrite Hs1; simpl.
    rewrite (nth_error_set_nth_eq _ _ _ Hi). simpl.
    destruct (lift (settle c r1) e1) as [r2 e2].
    exists r2, e2. f_equal.
    clear. generalize (sys_threads s) as l. intros l; revert i.
    induction l as [|y l IH]; intros [|i]; simpl; auto. now rewrite IH. }
  destruct Hs2 as (r2 & e2 & Hs2).
  (* put *)
  assert (Hacc2 : accounted (idle self) N s2).
  { split; [|rewrite Hs2; exact Hmx].
    rewrite Hs2; unfold checked_out; simpl. rewrite (H2 (Releasing c r2)).
    unfold checked_out in Hp. rewrite H1 in Hp. exact Hp. }
  assert (Hph2 : phase s2 i = Some (Releasing c r2)).
  { rewrite Hs2; unfold phase; simpl. apply (nth_error_set_nth_eq _ _ _ Hi). }
  pose proof (releasing_has_room i Hm Hacc2 Hph2) as Hput.
  assert (Hs3 : step bodies (Run i) s2 =
                mkSys (set_pool (sys_pool s2)
                         (mkQueue N (idle (sys_pool s2) ++ [c])))
                      (log (EvPut c) (sys_rt s2))
                      (set_nth i (Finished r2) (sys_threads s2))).
  { unfold step. unfold phase in Hph2. rewrite Hph2. simpl. rewrite Hput.
    reflexivity. }
  rewrite Hs3.
  split; [|split].
  - exists r2. unfold phase; simpl.
    apply (nth_error_set_nth_eq _ _ _ Hph2).
  - rewrite Hs2; reflexivity.
  - unfold checked_out; simpl. rewrite Hs2; simpl.
    replace (set_nth i (Finished r2) (set_nth i (Releasing c r2) (sys_threads s)))
      with (set_nth i (Finished r2) (sys_threads s)).
    + rewrite (H2 (Finished r2)), H1. reflexivity.
    + clear. generalize (sys_threads s) as l. intros l; revert i.
      induction l as [|y l IH]; intros [|i]; simpl; auto. now rewrite IH.
Qed.

(** C2, as the code has it.  Once a connection is granted and the unit
    of work has ended, [acquire] returns with the connection at the back
    of the idle queue, and between the unit of work and the [put] it
    makes: one commit and no rollback when the unit of work returned; one
    rollback and no commit when it raised an exception derived from
    [Exception], the same exception then leaving [acquire] provided the
    rollback itself returns; neither when it raised an exception outside
    [Exception], which leaves [acquire] as it is. *)
Theorem acquire_commit_or_rollback :
  forall A (self : ConnectionPool) (body : Conn -> DB A) (e : Rt)
         (c : Conn) (rest : list Conn) (r : Outcome A) (e2 : Rt),
    pool_ok self ->
    idle self = c :: rest ->
    lift (body c) (log (EvGet c) e) = (r, e2) ->
    exists r' e',
      acquire self body e = Some (r', with_idle self (rest ++ [c]), e') /\
      match r with
      | Normal v =>
          trace (env e') = trace (env e2) ++ [EvCommit c; EvPut c] /\
          (fst (drv_commit c (world (env e2))) = Normal tt -> r' = Normal v)
      | Raise x =>
          if isinstance_Exception x then
            trace (env e') = trace (env e2) ++ [EvRollback c; EvPut c] /\
            (fst (drv_rollback c (world (env e2))) = Normal tt -> r' = Raise x)
          else
            trace (env e') = trace (env e2) ++ [EvPut c] /\ r' = Raise x
      end.
Proof.
  intros A self body e c rest r e2 Hok Hi Hb.
  rewrite (acquire_granted _ _ Hok Hi), Hb.
  pose proof (settle_spec c r e2) as Hs.
  destruct (lift (settle c r) e2) as [r' e3]; simpl in Hs.
  exists r', (log (EvPut c) e3); split; [reflexivity|].
  destruct r as [v | x].
  - destruct Hs as [Ht Hr]; split; [|exact Hr].
    simpl; rewrite Ht, <- app_assoc; reflexivity.
  - destruct (isinstance_Exception x).
    + destruct Hs as [Ht Hr]; split; [|exact Hr].
      simpl; rewrite Ht, <- app_assoc; reflexivity.
    + destruct Hs as [-> ->]; split; reflexivity.
Qed.

(** C3.  A thread calls [acquire] (it is at [Start]) on a pool with
    nothing idle.  Run alone, the call raises the pool-exhaustion error
    after five units of waiting, with the pool object as it was, the
    datastore untouched, no connection handed out and a single [get]
    given up; under any schedule of the other threads, the thread is not
    refused before five units have passed since the call; and a thread
    that finds the queue still empty at its deadline is refused at its
    next step, the pool left as it is. *)
Theorem acquire_exhausted_after_timeout :
  forall A (bodies : nat -> Conn -> DB A) (s0 : Sys A) (i : nat)
         (acts : list Action),
    idle (sys_pool s0) = [] ->
    phase s0 i = Some Start ->
    acquire (sys_pool s0) (bodies i) (sys_rt s0) =
      Some (Raise (RuntimeError exhausted_message), sys_pool s0,
            log EvTimeout (elapse 5 (sys_rt s0))) /\
    (phase (run bodies acts s0) i = Some Refused ->
     clock (sys_rt s0) + 5 <= clock (sys_rt (run bodies acts s0))) /\
    (forall deadline,
       let s := run bodies acts s0 in
       phase s i = Some (Waiting deadline) ->
       idle (sys_pool s) = [] ->
       deadline <= clock (sys_rt s) ->
       step bodies (Run i) s =
       mkSys (sys_pool s) (log EvTimeout (sys_rt s))
             (set_nth i Refused (sys_threads s))).
Proof.
  intros A bodies s0 i acts Hidle Hstart. split; [|split].
  - apply acquire_empty; exact Hidle.
  - intros Href.
    destruct (@run_on_time A bodies (clock (sys_rt s0)) i acts s0) as [_ H].
    + lia.
    + rewrite Hstart; exact I.
    + rewrite Href in H; exact H.
  - intros d s Hw Hi Hd. unfold step. unfold phase in Hw; rewrite Hw.
    simpl. rewrite Hi. apply Z.leb_le in Hd. rewrite Hd. reflexivity.
Qed.

Lemma close_loop_drains (cs : list Conn) :
  forall e rest e1, close_loop cs e = (Normal tt, rest, e1) -> rest = [].
Proof.
  induction cs as [|c cs IH]; intros e rest e1 H; simpl in H.
  - now injection H as <- _.
  - destruct (lift (Connection_close c) e) as [[[]|x] e']; [|discriminate].
    eapply IH; eassumption.
Qed.

(** C10.  When [close_all] has returned, the pool object is exactly what
    it is while all its connections are checked out: its queue is empty
    and it carries nothing else that tells the two apart.  Every
    [acquire] on it, whatever the unit of work and whenever it is made,
    waits the five units, raises the pool-exhaustion error and leaves the
    object unchanged, so that the next one does the same. *)
Theorem acquire_after_close_all :
  forall (self : ConnectionPool) (e e1 : Rt) (closed_pool : ConnectionPool),
    close_all self e = (Normal tt, closed_pool, e1) ->
    closed_pool = drained self /\
    idle closed_pool = [] /\
    forall A (body : Conn -> DB A) (e2 : Rt),
      acquire closed_pool body e2 =
      Some (Raise (RuntimeError exhausted_message), closed_pool,
            log EvTimeout (elapse 5 e2)).
Proof.
  intros self e e1 closed_pool H. unfold close_all in H.
  destruct (close_loop (idle self) e) as [[r rest] e'] eqn:Hl.
  injection H as -> <- <-.
  apply close_loop_drains in Hl; subst rest.
  split; [reflexivity|]. split; [reflexivity|].
  intros A body e2. apply acquire_empty. reflexivity.
Qed.

End PoolFacts.

(** *** The pool theorems at work on the in-memory datastore *)

Lemma acquire_returns_connection_capacity_constant_witness :
  ConnectionPool_init "app.db" 2 Sample.rt0 =
    Some (Normal (Sample.pool 2 [0; 1]%nat),
          mkRt (mkEnv (Mem.mkWorld Sample.data None 2 [])
                  [EvConnect "app.db"; EvConnect "app.db"]) 0) /\
  let s := run (fun _ => Sample.insert_order) [Run 0; Run 1; Run 2; Tick 1; Run 0]
               (spawn (Sample.pool 2 [0; 1]%nat)
                  (mkRt (mkEnv (Mem.mkWorld Sample.data None 2 [])
                           [EvConnect "app.db"; EvConnect "app.db"]) 0) 3) in
  Z.of_nat (List.length (idle (sys_pool s)) + List.length (checked_out s)) = 2.
Proof.
  split; [reflexivity|].
  apply (@acquire_returns_connection_capacity_constant Mem.driver QueryResult
           (fun _ => Sample.insert_order) "app.db" 2 Sample.rt0 _ _
           3 [Run 0; Run 1; Run 2; Tick 1; Run 0]).
  reflexivity.
Defined.

Lemma acquire_commit_or_rollback_witness :
  pool_ok (Sample.pool 1 [0%nat]) /\
  idle (Sample.pool 1 [0%nat]) = [0%nat] /\
  lift (Sample.failing 0%nat) (log (EvGet 0%nat) (Sample.rt_open 1)) =
    (Raise (OtherException "ValueError"), log (EvGet 0%nat) (Sample.rt_open 1)) /\
  exists r' e',
    acquire (Sample.pool 1 [0%nat]) Sample.failing (Sample.rt_open 1) =
      Some (r', Sample.pool 1 [0%nat], e') /\
    trace (env e') = [EvGet 0%nat; EvRollback 0%nat; EvPut 0%nat] /\
    (fst (drv_rollback 0%nat (world (env (log (EvGet 0%nat) (Sample.rt_open 1)))))
       = Normal tt ->
     r' = Raise (OtherException "ValueError")).
Proof.
  assert (Hok : pool_ok (Sample.pool 1 [0%nat])) by (right; simpl; lia).
  split; [exact Hok|]. split; [reflexivity|]. split; [reflexivity|].
  exact (@acquire_commit_or_rollback Mem.driver unit (Sample.pool 1 [0%nat])
           Sample.failing (Sample.rt_open 1) 0%nat [] _ _ Hok eq_refl eq_refl).
Defined.

(** C2 as stated fails: a unit of work interrupted from the keyboard is
    followed by the [put] alone, neither a commit nor a rollback. *)
Lemma interrupted_unit_of_work_not_settled :
  acquire (Sample.pool 1 [0%nat]) Sample.interrupted (Sample.rt_open 1) =
    Some (Raise KeyboardInterrupt, Sample.pool 1 [0%nat],
          mkRt (mkEnv (Mem.mkWorld Sample.data None 1 [])
                  [EvGet 0%nat; EvPut 0%nat]) 0) /\
  ~ settles_once (Sample.pool 1 [0%nat]) Sample.interrupted (Sample.rt_open 1).
Proof.
  split; [reflexivity|].
  intros H.
  destruct (H 0%nat [] (Raise KeyboardInterrupt) (log (EvGet 0%nat) (Sample.rt_open 1))
              eq_refl eq_refl) as (r' & e' & Hacq & Htr & _).
  vm_compute in Hacq. injection Hacq as <- <-.
  vm_compute in Htr. discriminate Htr.
Qed.

Lemma acquire_exhausted_after_timeout_witness :
  let s0 := mkSys (Sample.pool 1 []) (Sample.rt_open 1)
                  [Holding 0%nat; @Start QueryResult] in
  idle (sys_pool s0) = [] /\
  phase s0 1 = Some Start /\
  phase (run (fun _ => Sample.insert_order) [Run 1; Tick 5; Run 1] s0) 1
    = Some Refused /\
  clock (sys_rt s0) + 5 <=
    clock (sys_rt (run (fun _ => Sample.insert_order) [Run 1; Tick 5; Run 1] s0)).
Proof.
  intros s0. split; [reflexivity|]. split; [reflexivity|]. split; [reflexivity|].
  exact (proj1 (proj2 (@acquire_exhausted_after_timeout Mem.driver QueryResult
                         (fun _ => Sample.insert_order) s0 1%nat
                         [Run 1; Tick 5; Run 1] eq_refl eq_refl))
               eq_refl).
Defined.

Lemma acquire_after_close_all_witness :
  close_all (Sample.pool 2 [0; 1]%nat) (Sample.rt_open 2) =
    (Normal tt, Sample.pool 2 [],
     mkRt (mkEnv (Mem.mkWorld Sample.data None 2 [1; 0]%nat)
             [EvClose 0%nat; EvClose 1%nat]) 0) /\
  acquire (Sample.pool 2 []) Sample.insert_order (Sample.rt_open 2) =
    Some (Raise (RuntimeError exhausted_message), Sample.pool 2 [],
          log EvTimeout (elapse 5 (Sample.rt_open 2))).
Proof.
  split; [reflexivity|].
  exact (proj2 (proj2 (@acquire_after_close_all Mem.driver
                         (Sample.pool 2 [0; 1]%nat) (Sample.rt_open 2) _ _ eq_refl))
               QueryResult Sample.insert_order (Sample.rt_open 2)).
Defined.

(** ** The query helpers and the repository over the in-memory datastore *)

Section StoreFacts.

Context {cfg : Config}.

Lemma with_connection_built {A} (body : Conn -> DB A) (p : Process)
    (pool : ConnectionPool) :
  module_pool p = Some pool ->
  with_connection body p =
  match acquire pool body (rt p) with
  | None => None
  | Some (r, pool', e') => Some (r, mkProcess (Some pool') e')
  end.
Proof. intros H; unfold with_connection, get_pool; rewrite H; reflexivity. Qed.

Lemma is_open_same (c : Conn) (w w' : Mem.MemWorld) :
  Mem.opened w' = Mem.opened w -> Mem.closed w' = Mem.closed w ->
  Mem.is_open c w' = Mem.is_open c w.
Proof. unfold Mem.is_open; intros -> ->; reflexivity. Qed.

(** One statement on an open connection while no transaction is open. *)
Lemma mem_execute_idle (c : Conn) (sql : string) (params : list pyval)
    (w : Mem.MemWorld) :
  Mem.is_open c w = true -> Mem.txn w = None ->
  Mem.mem_execute c sql params w =
  match Mem.prepare sql with
  | None => (Raise Mem.syntax_error, w)
  | Some st =>
      match Mem.run_stmt st params (Mem.committed w) with
      | Raise x =>
          (Raise x,
           if Mem.is_dml st
           then Mem.mkWorld (Mem.committed w) (Some (c, Mem.committed w))
                            (Mem.opened w) (Mem.closed w)
           else w)
      | Normal (rs, n, d') =>
          (Normal {| fetchall := rs; rowcount := n |},
           if Mem.is_dml st
           then Mem.mkWorld (Mem.committed w) (Some (c, d'))
                            (Mem.opened w) (Mem.closed w)
           else w)
      end
  end.
Proof.
  intros Ho Ht. unfold Mem.mem_execute, Mem.exec_stmt, Mem.locked, Mem.view.
  rewrite Ho, Ht; simpl. destruct (Mem.prepare sql) as [st|]; [|reflexivity].
  rewrite andb_false_r.
  destruct (Mem.run_stmt st params (Mem.committed w)) as [[[rs n] d']|x];
    reflexivity.
Qed.

Lemma mem_commit_spec (c : Conn) (w : Mem.MemWorld) :
  Mem.is_open c w = true ->
  Mem.txn w = None \/ (exists d', Mem.txn w = Some (c, d')) ->
  Mem.mem_commit c w =
  (Normal tt, Mem.mkWorld (Mem.view c w) None (Mem.opened w) (Mem.closed w)).
Proof.
  intros Ho Ht. unfold Mem.mem_commit, Mem.view. rewrite Ho; simpl.
  destruct Ht as [Ht | [d' Ht]]; rewrite Ht.
  - destruct w; simpl in *; subst; reflexivity.
  - rewrite Nat.eqb_refl; reflexivity.
Qed.

Lemma mem_rollback_spec (c : Conn) (w : Mem.MemWorld) :
  Mem.is_open c w = true ->
  Mem.txn w = None \/ (exists d', Mem.txn w = Some (c, d')) ->
  Mem.mem_rollback c w =
  (Normal tt, Mem.mkWorld (Mem.committed w) None (Mem.opened w) (Mem.closed w)).
Proof.
  intros Ho Ht. unfold Mem.mem_rollback. rewrite Ho; simpl.
  destruct Ht as [Ht | [d' Ht]]; rewrite Ht.
  - destruct w; simpl in *; subst; reflexivity.
  - rewrite Nat.eqb_refl; reflexivity.
Qed.

(** A unit of work that leaves the committed content and the set of open
    connections alone, and at most a transaction of its own connection
    behind: run through [with_connection] on a ready process, its writes
    are committed when it returns and dropped when it raises, and the
    process is ready again. *)
Lemma with_connection_ready {A} (body : Conn -> DB A) (p : Process) (c : Conn)
    (r : Outcome A) (w' : Mem.MemWorld) (tr' : list Event) :
  ready p ->
  next_conn p = Some c ->
  body c (mkEnv (world (env (rt p))) (calls p ++ [EvGet c])) = (r, mkEnv w' tr') ->
  Mem.opened w' = Mem.opened (world (env (rt p))) ->
  Mem.closed w' = Mem.closed (world (env (rt p))) ->
  Mem.committed w' = content p ->
  Mem.txn w' = None \/ (exists d', Mem.txn w' = Some (c, d')) ->
  (forall x, r = Raise x -> isinstance_Exception x = true) ->
  exists p',
    with_connection body p = Some (r, p') /\
    ready p' /\
    content p' = (if raised r then content p else Mem.view c w') /\
    calls p' = tr' ++ [if raised r then EvRollback c else EvCommit c; EvPut c].
Proof.
  intros (pool & Hmp & Hne & Hok & Hopen & Htxn) Hc Hb Hop Hcl Hcom Ht Hx.
  unfold next_conn in Hc; rewrite Hmp in Hc.
  destruct (idle pool) as [|c0 rest] eqn:Hi; [discriminate|].
  injection Hc as ->.
  assert (Hoc : Mem.is_open c w' = true).
  { rewrite (is_open_same c _ _ Hop Hcl). now inversion Hopen. }
  rewrite (with_connection_built _ _ Hmp), (acquire_granted _ _ Hok Hi).
  destruct p as [mp [[w tr] clk]]; unfold content, calls in *; simpl in *.
  unfold lift at 1; simpl. rewrite Hb.
  assert (Hready : forall w'' tr'',
             Mem.opened w'' = Mem.opened w -> Mem.closed w'' = Mem.closed w ->
             Mem.txn w'' = None ->
             ready (mkProcess (Some (with_idle pool (rest ++ [c])))
                      (mkRt (mkEnv w'' tr'') clk))).
  { intros w'' tr'' Ho'' Hc'' Ht''. exists (with_idle pool (rest ++ [c])).
    split; [reflexivity|]. split; [simpl; now destruct rest|].
    split.
    - unfold pool_ok, idle in *; simpl. rewrite Hi in Hok.
      rewrite length_app; simpl in *. lia.
    - split; [|exact Ht'']. simpl.
      apply Forall_app; split.
      + inversion Hopen as [|? ? _ Hrest]; subst.
        eapply Forall_impl; [|exact Hrest].
        intros a Ha; simpl in *. now rewrite (is_open_same a _ _ Ho'' Hc'').
      + constructor; [|constructor].
        inversion Hopen; subst; simpl in *. now rewrite (is_open_same c _ _ Ho'' Hc''). }
  destruct r as [v | x]; simpl.
  - unfold lift, bind, Connection_commit, call; simpl.
    rewrite (@mem_commit_spec c w' Hoc Ht); simpl.
    eexists; split; [reflexivity|]. split; [apply Hready; simpl; auto|].
    split; [reflexivity|]. simpl. now rewrite <- app_assoc.
  - rewrite (Hx x eq_refl).
    unfold lift, bind, Connection_rollback, call; simpl.
    rewrite (@mem_rollback_spec c w' Hoc Ht); simpl.
    eexists; split; [reflexivity|]. split; [apply Hready; simpl; auto|].
    split; [exact Hcom|]. simpl. now rewrite <- app_assoc.
Qed.

Lemma run_stmt_raises (st : Mem.Stmt) (params : list pyval) (d : Mem.Data) (x : exn) :
  Mem.run_stmt st params d = Raise x -> isinstance_Exception x = true.
Proof.
  destruct st; destruct params as [|a [|b [|c [|f l]]]]; simpl; intros H;
    try discriminate; try (injection H as <-; reflexivity).
  destruct (existsb _ _); [injection H as <-; reflexivity | discriminate].
Qed.

(** [execute] on a ready process, by what the datastore makes of the
    statement. *)
Lemma execute_ready (sql : string) (params : list pyval) (p : Process) (c : Conn) :
  ready p ->
  next_conn p = Some c ->
  exists p',
    ready p' /\
    match Mem.prepare sql with
    | None =>
        execute sql params p = Some (Raise Mem.syntax_error, p') /\
        content p' = content p /\
        calls p' = calls p ++ [EvGet c; EvExecute c sql params; EvRollback c; EvPut c]
    | Some st =>
        match Mem.run_stmt st params (content p) with
        | Raise x =>
            execute sql params p = Some (Raise x, p') /\
            content p' = content p /\
            calls p' =
              calls p ++ [EvGet c; EvExecute c sql params; EvRollback c; EvPut c]
        | Normal (rs, n, d') =>
            execute sql params p =
              Some (Normal (mkQueryResult (map dict_of_Row rs) n), p') /\
            content p' = (if Mem.is_dml st then d' else content p) /\
            calls p' =
              calls p ++ [EvGet c; EvExecute c sql params; EvCommit c; EvPut c]
        end
    end.
Proof.
  intros Hr Hc.
  assert (Hopen : Mem.is_open c (world (env (rt p))) = true /\
                  Mem.txn (world (env (rt p))) = None).
  { destruct Hr as (pool & Hmp & _ & _ & Hopen & Htxn).
    unfold next_conn in Hc; rewrite Hmp in Hc.
    destruct (idle pool); [discriminate|]. injection Hc as ->.
    inversion Hopen; auto. }
  destruct Hopen as [Ho Ht].
  pose proof (mem_execute_idle c sql params _ Ho Ht) as He.
  set (w := world (env (rt p))) in *.
  set (e1 := mkEnv w (calls p ++ [EvGet c])).
  assert (Hbody : execute_body sql params c e1 =
                  let (r, w1) := Mem.mem_execute c sql params w in
                  (match r with
                   | Normal cursor =>
                       Normal (mkQueryResult (map dict_of_Row (fetchall cursor))
                                             (rowcount cursor))
                   | Raise x => Raise x
                   end,
                   mkEnv w1 ((calls p ++ [EvGet c]) ++ [EvExecute c sql params]))).
  { unfold execute_body, bind, Connection_execute, call, ret; simpl.
    destruct (Mem.mem_execute c sql params w) as [[cur|x] w1]; reflexivity. }
  rewrite He in Hbody; clear He.
  unfold execute.
  destruct (Mem.prepare sql) as [st|].
  - unfold content at 1. fold w.
    destruct (Mem.run_stmt st params (Mem.committed w)) as [[[rs n] d']|x] eqn:Hrun.
    + edestruct (@with_connection_ready QueryResult (execute_body sql params) p c)
        as (p' & Hw & Hr' & Hcont & Hcalls);
        [exact Hr | exact Hc | exact Hbody | | | | | discriminate | ].
      * destruct (Mem.is_dml st); reflexivity.
      * destruct (Mem.is_dml st); reflexivity.
      * destruct (Mem.is_dml st); reflexivity.
      * destruct (Mem.is_dml st); [right; eexists; reflexivity | left; exact Ht].
      * exists p'. split; [exact Hr'|]. split; [exact Hw|]. split.
        -- rewrite Hcont; simpl. unfold Mem.view.
           destruct (Mem.is_dml st); simpl.
           ++ now rewrite Nat.eqb_refl.
           ++ fold w. rewrite Ht. reflexivity.
        -- rewrite Hcalls; simpl. now rewrite <- !app_assoc.
    + edestruct (@with_connection_ready QueryResult (execute_body sql params) p c)
        as (p' & Hw & Hr' & Hcont & Hcalls);
        [exact Hr | exact Hc | exact Hbody | | | | | | ].
      * destruct (Mem.is_dml st); reflexivity.
      * destruct (Mem.is_dml st); reflexivity.
      * destruct (Mem.is_dml st); reflexivity.
      * destruct (Mem.is_dml st); [right; eexists; reflexivity | left; exact Ht].
      * intros y Hy; injection Hy as <-. eapply run_stmt_raises; exact Hrun.
      * exists p'. split; [exact Hr'|]. split; [exact Hw|]. split.
        -- exact Hcont.
        -- rewrite Hcalls; simpl. now rewrite <- !app_assoc.
  - edestruct (@with_connection_ready QueryResult (execute_body sql params) p c)
      as (p' & Hw & Hr' & Hcont & Hcalls);
      [exact Hr | exact Hc | exact Hbody | reflexivity | reflexivity | reflexivity
      | left; exact Ht | | ].
    + intros y Hy; injection Hy as <-; reflexivity.
    + exists p'. split; [exact Hr'|]. split; [exact Hw|]. split.
      * exact Hcont.
      * rewrite Hcalls; simpl. now rewrite <- !app_assoc.
Qed.

Lemma ready_next_conn (p : Process) : ready p -> exists c, next_conn p = Some c.
Proof.
  intros (pool & Hmp & Hne & _). unfold next_conn; rewrite Hmp.
  destruct (idle pool) as [|c rest]; [congruence | exists c; reflexivity].
Qed.

Lemma find_filter {X} (f : X -> bool) (l : list X) :
  find f l = match filter f l with [] => None | x :: _ => Some x end.
Proof.
  induction l as [|y l IH]; simpl; [reflexivity|].
  destruct (f y); [reflexivity | exact IH].
Qed.

Lemma count_pos {X} (f : X -> bool) (l : list X) :
  (0 <? Mem.count f l) = existsb f l.
Proof.
  unfold Mem.count; induction l as [|y l IH]; simpl; [reflexivity|].
  destruct (f y); simpl; [|exact IH].
  apply Z.ltb_lt; lia.
Qed.








End StoreFacts.

(** ** The repository, for every driver *)

Section RepositoryFacts.

Context {drv : Driver} {cfg : Config}.

(** *** Record constructors *)

Lemma mem_string_In (k : string) (l : list string) :
  mem_string k l = true <-> In k l.
Proof.
  unfold mem_string. rewrite existsb_exists. split.
  - intros (x & Hin & Heq). apply String.eqb_eq in Heq. now subst.
  - intros Hin. exists k. split; [exact Hin | apply String.eqb_refl].
Qed.

Lemma bind_fields_Some (fields : list string) (kw : dict) :
  forall vs, bind_fields fields kw = Some vs ->
             map (dict_get kw) fields = map Some vs.
Proof.
  induction fields as [|f fs IH]; simpl; intros vs H.
  - injection H as <-; reflexivity.
  - destruct (dict_get kw f) as [v|]; [|discriminate].
    destruct (bind_fields fs kw) as [vs'|]; [|discriminate].
    injection H as <-. simpl. now rewrite (IH vs' eq_refl).
Qed.

Lemma bind_fields_None (fields : list string) (kw : dict) :
  bind_fields fields kw = None ->
  exists f, In f fields /\ dict_get kw f = None.
Proof.
  induction fields as [|f fs IH]; simpl; [discriminate|].
  destruct (dict_get kw f) as [v|] eqn:Hf; [|intros _; exists f; auto].
  destruct (bind_fields fs kw) as [vs'|]; [discriminate|].
  intros _. destruct (IH eq_refl) as (g & Hg & Hn). exists g; auto.
Qed.

(** Keyword binding looks at the names only. *)
Lemma bind_kwargs_spec (fields : list string) (kw : dict) :
  match bind_kwargs fields kw with
  | Normal vs =>
      map (dict_get kw) fields = map Some vs /\
      (forall k, In k (dict_keys kw) -> In k fields)
  | Raise x =>
      (exists msg, x = TypeError msg) /\
      ((exists f, In f fields /\ dict_get kw f = None) \/
       (exists k, In k (dict_keys kw) /\ ~ In k fields))
  end.
Proof.
  unfold bind_kwargs.
  destruct (forallb (fun k => mem_string k fields) (dict_keys kw)) eqn:Hall.
  - rewrite forallb_forall in Hall.
    destruct (bind_fields fields kw) as [vs|] eqn:Hb.
    + split; [now apply bind_fields_Some|].
      intros k Hk. apply mem_string_In, Hall, Hk.
    + split; [eexists; reflexivity|]. left. now apply bind_fields_None.
  - split; [eexists; reflexivity|]. right.
    assert (H : ~ forall k, In k (dict_keys kw) -> mem_string k fields = true).
    { intros H. apply forallb_forall in H. congruence. }
    clear Hall. induction (dict_keys kw) as [|k ks IH].
    + exfalso; apply H; intros k [].
    + destruct (mem_string k fields) eqn:Hk.
      * destruct IH as (k' & Hin & Hno).
        -- intros H'. apply H. intros k0 [<-|Hin]; auto.
        -- exists k'; split; [right; exact Hin | exact Hno].
      * exists k; split; [left; reflexivity|].
        intros Hin. apply mem_string_In in Hin. congruence.
Qed.

Lemma OrderRecord_list_spec (rs : list dict) :
  match OrderRecord_list rs with
  | Normal os => Forall2 (fun row o => OrderRecord_init row = Normal o) rs os
  | Raise x => exists row, In row rs /\ OrderRecord_init row = Raise x
  end.
Proof.
  induction rs as [|row rs IH]; simpl; [constructor|].
  destruct (OrderRecord_init row) as [o|x] eqn:Ho.
  - destruct (OrderRecord_list rs) as [os|x].
    + constructor; assumption.
    + destruct IH as (row' & Hin & Hr). exists row'; auto.
  - exists row; auto.
Qed.

(** C8, as the code has it.  Each record constructor raises [TypeError]
    exactly when the row lacks a column of the record or carries a column
    that is no field of it; otherwise it returns the record whose fields
    are the values of the row's columns, whatever they are.  The list of
    orders is built from every row, or the error of a row is raised. *)
Theorem record_init_checks_columns_not_values :
  forall kw : dict,
    (match UserRecord_init kw with
     | Normal u =>
         dict_get kw "id" = Some (u_id u) /\
         dict_get kw "username" = Some (u_username u) /\
         dict_get kw "email" = Some (u_email u) /\
         dict_get kw "password_hash" = Some (u_password_hash u) /\
         dict_get kw "is_active" = Some (u_is_active u) /\
         (forall k, In k (dict_keys kw) -> In k (map fst UserRecord_annotations))
     | Raise x =>
         (exists msg, x = TypeError msg) /\
         ((exists f, In f (map fst UserRecord_annotations) /\ dict_get kw f = None) \/
          (exists k, In k (dict_keys kw) /\ ~ In k (map fst UserRecord_annotations)))
     end) /\
    (match OrderRecord_init kw with
     | Normal o =>
         dict_get kw "id" = Some (o_id o) /\
         dict_get kw "user_id" = Some (o_user_id o) /\
         dict_get kw "total_amount" = Some (o_total_amount o) /\
         dict_get kw "status" = Some (o_status o) /\
         dict_get kw "created_at" = Some (o_created_at o) /\
         (forall k, In k (dict_keys kw) -> In k (map fst OrderRecord_annotations))
     | Raise x =>
         (exists msg, x = TypeError msg) /\
         ((exists f, In f (map fst OrderRecord_annotations) /\ dict_get kw f = None) \/
          (exists k, In k (dict_keys kw) /\ ~ In k (map fst OrderRecord_annotations)))
     end) /\
    (forall rs : list dict,
        match OrderRecord_list rs with
        | Normal os => Forall2 (fun row o => OrderRecord_init row = Normal o) rs os
        | Raise x => exists row, In row rs /\ OrderRecord_init row = Raise x
        end).
Proof.
  intros kw. split; [|split].
  - unfold UserRecord_init.
    pose proof (bind_kwargs_spec (map fst UserRecord_annotations) kw) as H.
    destruct (bind_kwargs (map fst UserRecord_annotations) kw) as [vs|x];
      [|exact H].
    destruct H as [Hm Hk].
    destruct vs as [|a [|b [|c [|d [|f [|g l]]]]]]; simpl in Hm; try discriminate.
    injection Hm as H1 H2 H3 H4 H5. simpl. auto 10.
  - unfold OrderRecord_init.
    pose proof (bind_kwargs_spec (map fst OrderRecord_annotations) kw) as H.
    destruct (bind_kwargs (map fst OrderRecord_annotations) kw) as [vs|x];
      [|exact H].
    destruct H as [Hm Hk].
    destruct vs as [|a [|b [|c [|d [|f [|g l]]]]]]; simpl in Hm; try discriminate.
    injection Hm as H1 H2 H3 H4 H5. simpl. auto 10.
  - apply OrderRecord_list_spec.
Qed.

(** *** What reaches the driver *)

Lemma sql_sent_app (l1 l2 : list Event) :
  sql_sent (l1 ++ l2) = sql_sent l1 ++ sql_sent l2.
Proof. apply flat_map_app. Qed.

Lemma params_sent_app (l1 l2 : list Event) :
  params_sent (l1 ++ l2) = params_sent l1 ++ params_sent l2.
Proof. apply flat_map_app. Qed.

Lemma init_loop_silent (n : nat) (url : string) :
  forall q e o e',
    init_loop n url q e = Some (o, e') ->
    exists evs, trace (env e') = trace (env e) ++ evs /\ silent evs.
Proof.
  induction n as [|n IH]; intros q e o e' H; simpl in H.
  - injection H as <- <-. exists []; split; [now rewrite app_nil_r | split; reflexivity].
  - unfold lift, sqlite3_connect, call in H.
    destruct (drv_connect url (world (env e))) as [[conn|x] w1].
    + destruct (Queue_put q conn) as [q1|]; [|discriminate].
      apply IH in H. destruct H as (evs & Ht & Hs1 & Hs2). simpl in Ht.
      exists (EvConnect url :: evs). split.
      * rewrite Ht, <- app_assoc; reflexivity.
      * split; simpl; assumption.
    + injection H as <- <-. exists [EvConnect url]; simpl.
      split; [reflexivity | split; reflexivity].
Qed.

Lemma get_pool_silent (p : Process) (o : Outcome ConnectionPool) (p1 : Process) :
  get_pool p = Some (o, p1) ->
  exists evs, calls p1 = calls p ++ evs /\ silent evs.
Proof.
  unfold get_pool, ConnectionPool_init.
  destruct (module_pool p) as [pool|].
  - intros H; injection H as <- <-.
    exists []; split; [now rewrite app_nil_r | split; reflexivity].
  - destruct (init_loop (Z.to_nat POOL_SIZE) DATABASE_URL (mkQueue POOL_SIZE []) (rt p))
      as [[[q|x] e1]|] eqn:Hl; [| |discriminate];
      intros H; injection H as <- <-; apply init_loop_silent in Hl; exact Hl.
Qed.

Lemma settle_silent {A} (c : Conn) (r : Outcome A) (e2 : Rt) :
  exists evs,
    trace (env (snd (lift (settle c r) e2))) = trace (env e2) ++ evs /\ silent evs.
Proof.
  pose proof (settle_spec c r e2) as H.
  destruct r as [v|x].
  - destruct H as [-> _]. exists [EvCommit c]; repeat split.
  - destruct (isinstance_Exception x).
    + destruct H as [-> _]. exists [EvRollback c]; repeat split.
    + destruct H as [-> _]. exists []; rewrite app_nil_r; repeat split.
Qed.

(** What one [execute] adds to the calls of a process: it depends on the
    process alone whether the statement reaches the driver, and if it
    does, it is the text and the tuple given, once. *)
Lemma execute_events (sql : string) (params : list pyval) (p : Process) :
  match get_pool p with
  | Some (Normal pool, p1) =>
      match idle pool with
      | [] =>
          exists p', after (execute sql params) p = Some p' /\
                     calls p' = calls p1 ++ [EvTimeout]
      | c :: rest =>
          match Queue_put (mkQueue (maxsize (_pool pool)) rest) c with
          | None => after (execute sql params) p = None
          | Some _ =>
              exists p' evs,
                after (execute sql params) p = Some p' /\
                calls p' =
                  calls p1 ++ [EvGet c; EvExecute c sql params] ++ evs ++ [EvPut c] /\
                silent evs
          end
      end
  | Some (Raise x, p1) => after (execute sql params) p = Some p1
  | None => after (execute sql params) p = None
  end.
Proof.
  unfold after, execute, with_connection.
  destruct (get_pool p) as [[[pool|x] p1]|]; [| reflexivity | reflexivity].
  unfold acquire, Queue_get, idle.
  destruct (items (_pool pool)) as [|c rest]; simpl.
  - eexists; split; reflexivity.
  - destruct (lift (execute_body sql params c) (log (EvGet c) (rt p1)))
      as [r e2] eqn:Hb.
    assert (He2 : trace (env e2) =
                  calls p1 ++ [EvGet c; EvExecute c sql params]).
    { unfold lift, execute_body, bind, Connection_execute, call, ret in Hb.
      simpl in Hb.
      destruct (drv_execute c sql params (world (env (rt p1)))) as [[cur|x] w1];
        injection Hb as <- <-; simpl; unfold calls; now rewrite <- app_assoc. }
    destruct (settle_silent c r e2) as (evs & Hs & Hsil).
    destruct (lift (settle c r) e2) as [r' e3]; simpl in Hs.
    destruct (Queue_put (mkQueue (maxsize (_pool pool)) rest) c) as [q'|];
      [|reflexivity].
    simpl. eexists; exists evs. split; [reflexivity|]. split; [|exact Hsil].
    unfold calls; simpl. rewrite Hs, He2. now rewrite <- !app_assoc.
Qed.

(** Two runs of [execute] from one state with one text hand the same
    texts to the driver, whatever the parameters. *)
Lemma execute_two_runs (sql : string) (params1 params2 : list pyval) (p : Process) :
  option_map (fun p' => sql_sent (calls p')) (after (execute sql params1) p) =
  option_map (fun p' => sql_sent (calls p')) (after (execute sql params2) p).
Proof.
  pose proof (execute_events sql params1 p) as H1.
  pose proof (execute_events sql params2 p) as H2.
  destruct (get_pool p) as [[[pool|x] p1]|].
  - destruct (idle pool) as [|c rest].
    + destruct H1 as (p1' & -> & Hc1). destruct H2 as (p2' & -> & Hc2).
      simpl. now rewrite Hc1, Hc2.
    + destruct (Queue_put (mkQueue (maxsize (_pool pool)) rest) c).
      * destruct H1 as (p1' & ev1 & -> & Hc1 & Hs1 & _).
        destruct H2 as (p2' & ev2 & -> & Hc2 & Hs2 & _).
        simpl. rewrite Hc1, Hc2, !sql_sent_app, Hs1, Hs2. reflexivity.
      * now rewrite H1, H2.
  - now rewrite H1, H2.
  - now rewrite H1, H2.
Qed.

(** The tuple given to [execute] is what is bound, if anything is. *)
Lemma execute_binds (sql : string) (params : list pyval) (p p' : Process) :
  after (execute sql params) p = Some p' ->
  params_sent (calls p') = params_sent (calls p) ++ [params] \/
  params_sent (calls p') = params_sent (calls p).
Proof.
  intros Ha. pose proof (execute_events sql params p) as H.
  destruct (get_pool p) as [[[pool|x] p1]|] eqn:Hg.
  - destruct (get_pool_silent _ Hg) as (evs0 & Hc0 & _ & Hp0).
    destruct (idle pool) as [|c rest].
    + destruct H as (p1' & Ha' & Hc1). rewrite Ha in Ha'; injection Ha' as ->.
      right. rewrite Hc1, Hc0, !params_sent_app, Hp0. simpl. now rewrite !app_nil_r.
    + destruct (Queue_put (mkQueue (maxsize (_pool pool)) rest) c).
      * destruct H as (p1' & evs & Ha' & Hc1 & _ & Hp1).
        rewrite Ha in Ha'; injection Ha' as ->.
        left. rewrite Hc1, Hc0, !params_sent_app, Hp0, Hp1. simpl.
        now rewrite !app_nil_r.
      * congruence.
  - destruct (get_pool_silent _ Hg) as (evs0 & Hc0 & _ & Hp0).
    rewrite Ha in H; injection H as ->.
    right. rewrite Hc0, params_sent_app, Hp0. now rewrite app_nil_r.
  - congruence.
Qed.

Lemma after_bind_stateless {A B} (m : M A) (k : A -> M B) (p : Process) :
  stateless k -> after (bindM m k) p = after m p.
Proof.
  intros Hk. unfold after, bindM.
  destruct (m p) as [[[a|x] p']|]; simpl; try reflexivity.
  destruct (Hk a p') as [o ->]. reflexivity.
Qed.

Lemma stateless_retM {A B} (f : A -> B) : stateless (fun a => retM (f a)).
Proof. intros a p; eexists; reflexivity. Qed.

Lemma stateless_liftO {A B} (f : A -> Outcome B) : stateless (fun a => liftO (f a)).
Proof. intros a p; eexists; reflexivity. Qed.

Lemma stateless_first_row {R} (init : dict -> Outcome R) :
  stateless (fun result : QueryResult =>
               match rows result with
               | [] => retM None
               | row :: _ => u <~ liftO (init row) ;; retM (Some u)
               end).
Proof.
  intros result p. destruct (rows result) as [|row rs].
  - eexists; reflexivity.
  - unfold bindM, liftO, retM. destruct (init row); eexists; reflexivity.
Qed.

(** Every accessor is one [execute] of a fixed text on a tuple made of
    its arguments, followed by steps that leave the process alone. *)
Lemma perform_is_execute (a : Call) :
  exists sql params,
    Permutation params (arguments a) /\
    (forall b, same_accessor a b = true ->
       exists params_b,
         forall p, perform b p = after (execute sql params_b) p) /\
    forall p, perform a p = after (execute sql params) p.
Proof.
  destruct a; simpl; eexists; eexists;
    (split; [| split;
       [intros b Hb; destruct b; try discriminate Hb; simpl; eexists; intros p;
        first [ apply after_bind_stateless, stateless_first_row
              | apply after_bind_stateless, stateless_retM
              | apply after_bind_stateless, stateless_liftO ]
       | intros p;
         first [ apply after_bind_stateless, stateless_first_row
               | apply after_bind_stateless, stateless_retM
               | apply after_bind_stateless, stateless_liftO ]]]);
    try reflexivity.
  apply perm_swap.
Qed.

(** C9.  Two calls of the same accessor from the same state, with any
    two tuples of argument values, hand the same statement texts to the
    driver; and the argument values of a call travel in the bound tuple,
    which holds them and nothing else. *)
Theorem accessor_sql_independent_of_arguments :
  forall (p : Process) (a b : Call),
    same_accessor a b = true ->
    option_map (fun p' => sql_sent (calls p')) (perform a p) =
    option_map (fun p' => sql_sent (calls p')) (perform b p) /\
    (forall p', perform a p = Some p' ->
       exists params,
         Permutation params (arguments a) /\
         (params_sent (calls p') = params_sent (calls p) ++ [params] \/
          params_sent (calls p') = params_sent (calls p))).
Proof.
  intros p a b Hab.
  destruct (perform_is_execute a) as (sql & params & Hperm & Hsame & Ha).
  destruct (Hsame b Hab) as (params_b & Hb).
  split.
  - rewrite Ha, Hb. apply execute_two_runs.
  - intros p' Hp'. exists params. split; [exact Hperm|].
    apply (execute_binds sql). now rewrite <- Ha.
Qed.

End RepositoryFacts.

(** C8 as stated fails: a row whose [id] is a text is made into a record
    as it is. *)
Lemma mistyped_column_is_accepted :
  let row := [("id", PyStr "seven"); ("username", PyStr "ada");
              ("email", PyStr "ada@example.org"); ("password_hash", PyStr "x");
              ("is_active", PyInt 1)]%string in
  conforms UserRecord_annotations row = false /\
  UserRecord_init row =
    Normal (mkUserRecord (PyStr "seven") (PyStr "ada") (PyStr "ada@example.org")
                         (PyStr "x") (PyInt 1)) /\
  ~ strict_mapping UserRecord_annotations UserRecord_init.
Proof.
  intros row. split; [reflexivity|]. split; [reflexivity|].
  intros H. specialize (H row eq_refl). discriminate H.
Qed.

(** ** From a cold start *)

Section BootFacts.

Context {cfg : Config}.

Lemma mem_init_loop (n : nat) (url : string) :
  forall q w tr clk,
    maxsize q <= 0 \/ Z.of_nat (List.length (items q) + n) <= maxsize q ->
    init_loop n url q (mkRt (mkEnv w tr) clk) =
    Some (Normal (mkQueue (maxsize q) (items q ++ seq (Mem.opened w) n)),
          mkRt (mkEnv (Mem.mkWorld (Mem.committed w) (Mem.txn w)
                                   (Mem.opened w + n) (Mem.closed w))
                      (tr ++ repeat (EvConnect url) n)) clk).
Proof.
  induction n as [|n IH]; intros q w tr clk Hq; simpl.
  - rewrite !app_nil_r, Nat.add_0_r. destruct q, w; reflexivity.
  - unfold lift, sqlite3_connect, call; simpl.
    rewrite Queue_put_room by lia.
    rewrite IH by (simpl; rewrite length_app; simpl; lia).
    simpl. rewrite <- !app_assoc. simpl.
    now rewrite Nat.add_succ_r.
Qed.

(** With a capacity of at least one, the first [get_pool] builds a pool
    and leaves the process ready, the content untouched. *)
Lemma boot_ready (d : Mem.Data) :
  1 <= POOL_SIZE ->
  exists pool p1,
    get_pool (Mem.boot d) = Some (Normal pool, p1) /\
    module_pool p1 = Some pool /\
    idle pool = seq 0 (Z.to_nat POOL_SIZE) /\
    ready p1 /\ content p1 = d.
Proof.
  intros HN. unfold get_pool, ConnectionPool_init, Mem.boot; simpl.
  rewrite mem_init_loop by (simpl; lia). simpl.
  eexists; eexists. split; [reflexivity|]. split; [reflexivity|].
  split; [reflexivity|]. split; [|reflexivity].
  eexists. split; [reflexivity|]. unfold idle, pool_ok; simpl.
  split.
  { destruct (Z.to_nat POOL_SIZE) eqn:E; [lia | discriminate]. }
  split; [right; unfold idle; simpl; rewrite length_seq; lia|].
  split; [|reflexivity].
  apply Forall_forall. intros c Hc. apply in_seq in Hc.
  unfold Mem.is_open; simpl. rewrite andb_true_r. apply Nat.ltb_lt. lia.
Qed.

(** A call on the process before its pool is built is the call on the
    process with the pool built. *)
Lemma with_connection_cold {A} (body : Conn -> DB A) (p p1 : Process)
    (pool : ConnectionPool) :
  get_pool p = Some (Normal pool, p1) ->
  module_pool p1 = Some pool ->
  with_connection body p = with_connection body p1.
Proof.
  intros Hg Hm. unfold with_connection. rewrite Hg.
  unfold get_pool. rewrite Hm. reflexivity.
Qed.

End BootFacts.

(** ** The repository theorems at work *)

#[local] Existing Instance default_config.

Lemma serving_ready : ready Sample.serving.
Proof.
  exists (Sample.pool 2 [0; 1]%nat).
  split; [reflexivity|]. split; [discriminate|].
  split; [right; simpl; lia|].
  split; [repeat constructor | reflexivity].
Qed.





Lemma accessor_sql_independent_of_arguments_witness :
  same_accessor (GetUserByUsername "ada") (GetUserByUsername "x' OR '1'='1") = true /\
  option_map (fun p' => sql_sent (calls p'))
    (perform (GetUserByUsername "ada") Sample.serving) =
  option_map (fun p' => sql_sent (calls p'))
    (perform (GetUserByUsername "x' OR '1'='1") Sample.serving).
Proof.
  split; [reflexivity|].
  exact (proj1 (@accessor_sql_independent_of_arguments Mem.driver default_config
                  Sample.serving (GetUserByUsername "ada")
                  (GetUserByUsername "x' OR '1'='1") eq_refl)).
Defined.

(** *** Runs from a cold start *)

(** The scenario of the specification: an order created for user 7 is
    the one order then listed for user 7, pending, with its amount. *)
Example create_order_then_list :
  exists p',
    (_ <~ create_order 7 42.5%float ;; get_orders_by_user 7) (Mem.boot Sample.data) =
    Some (Normal [mkOrderRecord (PyInt 2) (PyInt 7) (PyFloat 42.5%float)
                                (PyStr "pending") (PyStr "2024-01-01 00:00:00")],
          p').
Proof. eexists; vm_compute; reflexivity. Qed.

(** A batch with one tuple that cannot be inserted leaves no row of the
    batch behind, the first tuple's included. *)
Example batch_with_duplicate_rolls_back :
  exists p',
    execute_many Sample.insert_user_sql Sample.batch (Mem.boot Sample.data) =
    Some (Raise (DatabaseError "IntegrityError"
                   "UNIQUE constraint failed: users.username"), p') /\
    content p' = Sample.data.
Proof. eexists; vm_compute; split; reflexivity. Qed.

(** A pool of two and three threads: two are served at once, the third
    waits and is served when the first has put its connection back. *)
Example third_thread_waits_then_proceeds :
  let s1 := run (fun _ => Sample.insert_order) [Run 0; Run 1; Run 2; Tick 1]
                (spawn (Sample.pool 2 [0; 1]%nat) (Sample.rt_open 2) 3) in
  let s2 := run (fun _ => Sample.insert_order) [Run 0; Run 0; Run 0; Run 2] s1 in
  map holds (sys_threads s1) = [[0%nat]; [1%nat]; []] /\
  phase s1 2 = Some (Waiting 5) /\
  map holds (sys_threads s2) = [[]; [1%nat]; [0%nat]].
Proof. vm_compute. repeat split. Qed.

(* ================================================================== *)
(** * Further properties *)

(** ** Construction, the module's pool, shutdown *)

Section ConnectionFacts.

Context {drv : Driver} {cfg : Config}.



(** X2.  [get_pool] always returns.  A pool it returns is the one kept in
    the module from then on: asking again gives the same object and calls
    nothing; a pool that was already there is returned as it is.  When
    construction raises, nothing is kept, so that the next call builds
    anew. *)
Theorem get_pool_builds_once :
  forall p : Process,
    exists o p1,
      get_pool p = Some (o, p1) /\
      match o with
      | Normal pool =>
          module_pool p1 = Some pool /\
          get_pool p1 = Some (Normal pool, p1) /\
          (forall pool0, module_pool p = Some pool0 -> pool = pool0 /\ p1 = p)
      | Raise _ => module_pool p = None /\ module_pool p1 = None
      end.
Proof.
  intros p. unfold get_pool at 1.
  destruct (module_pool p) as [pool|] eqn:Hm.
  - exists (Normal pool), p. split; [reflexivity|].
    split; [exact Hm|]. split.
    + unfold get_pool. now rewrite Hm.
    + intros pool0 H; injection H as <-. auto.
  - pose proof (ConnectionPool_init_returns DATABASE_URL POOL_SIZE (rt p)) as H.
    destruct (ConnectionPool_init DATABASE_URL POOL_SIZE (rt p))
      as [[[pool|x] e']|]; [| |congruence].
    + eexists; eexists. split; [reflexivity|]. split; [reflexivity|].
      split; [reflexivity | discriminate].
    + eexists; eexists. split; [reflexivity|]. split; reflexivity.
Qed.

Lemma with_connection_served {A} (body : Conn -> DB A) (p : Process)
    (pool : ConnectionPool) :
  module_pool p = Some pool ->
  pool_ok pool ->
  exists r p',
    with_connection body p = Some (r, p') /\
    module_pool p' = Some (with_idle pool (rot1 (idle pool))) /\
    clock (rt p') = clock (rt p) + (if Queue_empty (_pool pool) then 5 else 0).
Proof.
  intros Hm Hok. unfold with_connection, get_pool. rewrite Hm.
  unfold Queue_empty. fold (idle pool).
  destruct (idle pool) as [|c rest] eqn:Hi.
  - rewrite (acquire_empty _ _ _ Hi). eexists; eexists.
    split; [reflexivity|]. simpl. split; [|reflexivity].
    rewrite <- Hi at 1. now rewrite with_idle_same.
  - rewrite (acquire_granted _ _ Hok Hi).
    pose proof (lift_clock (body c) (log (EvGet c) (rt p))) as H1.
    destruct (lift (body c) (log (EvGet c) (rt p))) as [r e2].
    pose proof (lift_clock (settle c r) e2) as H2.
    destruct (lift (settle c r) e2) as [r' e3].
    eexists; eexists. split; [reflexivity|]. split; [reflexivity|].
    simpl in *. rewrite H2, H1. simpl. lia.
Qed.

Lemma pool_ok_rot1 (pool : ConnectionPool) :
  pool_ok pool -> pool_ok (with_idle pool (rot1 (idle pool))).
Proof.
  unfold pool_ok, idle; simpl. destruct (items (_pool pool)) as [|c rest]; simpl.
  - auto.
  - rewrite length_app; simpl. rewrite Nat.add_comm. auto.
Qed.

Lemma iter_rot1_app (l1 : list Conn) :
  forall l2, Nat.iter (List.length l1) rot1 (l1 ++ l2) = l2 ++ l1.
Proof.
  induction l1 as [|x l1 IH]; intros l2; simpl.
  - now rewrite app_nil_r.
  - rewrite <- Nat.iter_succ, Nat.iter_succ_r. simpl.
    rewrite <- app_assoc, IH, <- app_assoc. reflexivity.
Qed.

(** X4.  The pool serves its connections in turn.  On a process whose
    pool is built, units of work run one after the other all come back,
    whatever they return or raise, and after [k] of them the queue is the
    original one with its head moved to the back [k] times; after as many
    as there are connections it is the original one again. *)
Theorem pool_serves_connections_in_turn :
  forall A (bodies : list (Conn -> DB A)) (p : Process) (pool : ConnectionPool),
    module_pool p = Some pool ->
    pool_ok pool ->
    exists p',
      serve bodies p = Some p' /\
      module_pool p' =
        Some (with_idle pool (Nat.iter (List.length bodies) rot1 (idle pool))) /\
      (List.length bodies = List.length (idle pool) -> module_pool p' = Some pool).
Proof.
  intros A bodies. induction bodies as [|body bodies IH]; intros p pool Hm Hok.
  - exists p. simpl. rewrite with_idle_same. auto.
  - simpl. unfold after.
    destruct (with_connection_served body p Hm Hok) as (r & p1 & Hw & Hm1 & _).
    rewrite Hw; simpl.
    destruct (IH p1 _ Hm1 (pool_ok_rot1 Hok)) as (p' & Hs & Hm' & _).
    exists p'. split; [exact Hs|].
    assert (Hidle : module_pool p' =
                    Some (with_idle pool
                            (Nat.iter (S (List.length bodies)) rot1 (idle pool)))).
    { rewrite Hm'. rewrite Nat.iter_succ_r. reflexivity. }
    split; [exact Hidle|].
    intros Hlen. rewrite Hidle. f_equal.
    change (S (List.length bodies)) with (List.length (body :: bodies)).
    simpl List.length. rewrite Hlen.
    pose proof (iter_rot1_app (idle pool) []) as H.
    rewrite app_nil_r in H. simpl in H. rewrite H. apply with_idle_same.
Qed.

Lemma close_loop_spec (cs : list Conn) :
  forall e,
    let '(r, rest, e') := close_loop cs e in
    exists k,
      (k <= List.length cs)%nat /\
      trace (env e') = trace (env e) ++ map EvClose (firstn k cs) /\
      rest = skipn k cs /\
      clock e' = clock e /\
      match r with
      | Normal _ => k = List.length cs
      | Raise _ => (0 < k)%nat
      end.
Proof.
  induction cs as [|c cs IH]; intros e; simpl.
  - exists 0%nat. simpl. rewrite app_nil_r. auto.
  - unfold lift, Connection_close, call.
    destruct (drv_close c (world (env e))) as [[[]|x] w1].
    + specialize (IH (mkRt (mkEnv w1 (trace (env e) ++ [EvClose c])) (clock e))).
      destruct (close_loop cs _) as [[r rest] e'].
      destruct IH as (k & Hk & Ht & Hr & Hc & Hm).
      exists (S k). simpl in *. split; [lia|]. split.
      * rewrite Ht, <- app_assoc. reflexivity.
      * split; [exact Hr|]. split; [exact Hc|].
        destruct r; [now rewrite Hm | lia].
    + exists 1%nat. simpl. split; [lia|]. split; [reflexivity|].
      split; [reflexivity|]. split; [reflexivity | lia].
Qed.

(** X5.  [close_all] closes the idle connections from the head of the
    queue on, each once and nothing else called, and takes them out of
    the queue.  When every close returns the queue ends empty; when a
    close raises the loop ends there: that connection is out of the queue
    like the ones before it, the ones behind it stay idle and unclosed,
    and the error leaves [close_all]. *)
Theorem close_all_closes_from_the_head :
  forall (self : ConnectionPool) (e : Rt),
    let '(r, self', e') := close_all self e in
    exists k,
      (k <= List.length (idle self))%nat /\
      trace (env e') = trace (env e) ++ map EvClose (firstn k (idle self)) /\
      self' = with_idle self (skipn k (idle self)) /\
      clock e' = clock e /\
      match r with
      | Normal _ => k = List.length (idle self)
      | Raise _ => (0 < k)%nat
      end.
Proof.
  intros self e. unfold close_all.
  pose proof (close_loop_spec (idle self) e) as H.
  destruct (close_loop (idle self) e) as [[r rest] e'].
  destruct H as (k & Hk & Ht & Hr & Hc & Hm).
  exists k. subst rest. auto.
Qed.

Lemma with_connection_size_zero {A} (body : Conn -> DB A) (p : Process) :
  POOL_SIZE <= 0 ->
  module_pool p = None \/
  module_pool p = Some (mkPool DATABASE_URL (mkQueue POOL_SIZE [])) ->
  with_connection body p =
    Some (Raise (RuntimeError exhausted_message),
          mkProcess (Some (mkPool DATABASE_URL (mkQueue POOL_SIZE [])))
                    (log EvTimeout (elapse 5 (rt p)))).
Proof.
  intros HN Hm.
  assert (Hz : Z.to_nat POOL_SIZE = 0%nat) by lia.
  unfold with_connection, get_pool, ConnectionPool_init.
  destruct Hm as [Hm|Hm]; rewrite Hm; [rewrite Hz|]; simpl;
    destruct p as [mp [e clk]]; reflexivity.
Qed.

(** X3.  A pool of size zero or less.  On a process that has no pool
    yet, every [execute] and [execute_many] is refused: the pool is built
    without any connect, the call waits the five units and raises the
    pool-exhaustion error, nothing is sent to the driver; the pool that
    is kept is empty, so the calls after it end the same way. *)
Theorem pool_of_size_zero_refuses_every_call :
  forall (p : Process),
    POOL_SIZE <= 0 ->
    module_pool p = None ->
    let refused (q : Process) : Process :=
      mkProcess (Some (mkPool DATABASE_URL (mkQueue POOL_SIZE [])))
                (log EvTimeout (elapse 5 (rt q))) in
    (forall sql params,
        execute sql params p =
          Some (Raise (RuntimeError exhausted_message), refused p) /\
        execute sql params (refused p) =
          Some (Raise (RuntimeError exhausted_message), refused (refused p))) /\
    (forall sql params_list,
        execute_many sql params_list p =
          Some (Raise (RuntimeError exhausted_message), refused p) /\
        execute_many sql params_list (refused p) =
          Some (Raise (RuntimeError exhausted_message), refused (refused p))).
Proof.
  intros p HN Hm refused. split; intros sql ps; split;
    unfold execute, execute_many;
    apply with_connection_size_zero; auto.
Qed.

End ConnectionFacts.

(** ** The repository over the in-memory datastore: what is written is
    what is read *)

Ltac prepared H st :=
  match type of H with
  | context [Mem.prepare ?sql] =>
      replace (Mem.prepare sql) with (Some st) in H by (vm_compute; reflexivity)
  end.

Section RepositoryRoundTrips.

Context {cfg : Config}.

Lemma next_id_above (ids : list Z) (x : Z) : In x ids -> x < Mem.next_id ids.
Proof.
  unfold Mem.next_id. induction ids as [|y ids IH]; cbn [fold_right In];
    [intros []|].
  intros [->|H]; [lia | specialize (IH H); lia].
Qed.

Lemma find_app_last {X} (f : X -> bool) (l : list X) (x : X) :
  existsb f l = false -> find f (l ++ [x]) = if f x then Some x else None.
Proof.
  induction l as [|y l IH]; simpl; [reflexivity|].
  destruct (f y); simpl; [discriminate | exact IH].
Qed.

Lemma find_map_update {X} (g hit : X -> bool) (f : X -> X) (l : list X) :
  (forall x, g (f x) = g x) ->
  find g (map (fun x => if hit x then f x else x) l) =
  option_map (fun x => if hit x then f x else x) (find g l).
Proof.
  intros Hg. induction l as [|y l IH]; simpl; [reflexivity|].
  assert (H : g (if hit y then f y else y) = g y) by (destruct (hit y); auto).
  rewrite H. destruct (g y); [reflexivity | exact IH].
Qed.

Lemma find_some_true {X} (g : X -> bool) (l : list X) (x : X) :
  find g l = Some x -> g x = true.
Proof. intros H; now apply find_some in H. Qed.

(** The reads by key on a ready process. *)
Lemma get_user_by_id_ready (p : Process) (user_id : Z) :
  ready p ->
  returns (get_user_by_id user_id) p
    (option_map user_record
       (find (fun u => Mem.ur_id u =? user_id) (Mem.users (content p)))).
Proof.
  intros Hr. destruct (ready_next_conn Hr) as [c Hc].
  unfold returns, get_user_by_id, bindM.
  match goal with |- context [execute ?sql ?params p] =>
    destruct (execute_ready sql params Hr Hc) as (p' & Hr' & H) end.
  prepared H Mem.SelectUserById. simpl in H.
  destruct H as (He & Hcont & _). rewrite He; simpl.
  rewrite find_filter.
  destruct (filter _ (Mem.users (content p))) as [|u us]; simpl; exists p'; auto.
Qed.

Lemma get_user_by_username_ready (p : Process) (username : string) :
  ready p ->
  returns (get_user_by_username username) p
    (option_map user_record
       (find (fun u => Mem.sql_eq (Mem.ur_username u) (PyStr username))
             (Mem.users (content p)))).
Proof.
  intros Hr. destruct (ready_next_conn Hr) as [c Hc].
  unfold returns, get_user_by_username, bindM.
  match goal with |- context [execute ?sql ?params p] =>
    destruct (execute_ready sql params Hr Hc) as (p' & Hr' & H) end.
  prepared H Mem.SelectUserByUsername. simpl in H.
  destruct H as (He & Hcont & _). rewrite He; simpl.
  rewrite find_filter.
  destruct (filter _ (Mem.users (content p))) as [|u us]; simpl; exists p'; auto.
Qed.

Lemma get_order_by_id_ready (p : Process) (order_id : Z) :
  ready p ->
  returns (get_order_by_id order_id) p
    (option_map order_record
       (find (fun o => Mem.or_id o =? order_id) (Mem.orders (content p)))).
Proof.
  intros Hr. destruct (ready_next_conn Hr) as [c Hc].
  unfold returns, get_order_by_id, bindM.
  match goal with |- context [execute ?sql ?params p] =>
    destruct (execute_ready sql params Hr Hc) as (p' & Hr' & H) end.
  prepared H Mem.SelectOrderById. simpl in H.
  destruct H as (He & Hcont & _). rewrite He; simpl.
  rewrite find_filter.
  destruct (filter _ (Mem.orders (content p))) as [|o os]; simpl; exists p'; auto.
Qed.

(** X7.  [create_user] on a ready process.  When a stored user has the
    username already, the call raises the integrity error of the
    datastore and the content is what it was.  Otherwise it returns 1 and
    the content has one more user, the last: the three values given, the
    flag 1, an id no other user has; and [get_user_by_username] with that
    name then returns this user. *)
Theorem create_user_then_get_by_username :
  forall (p : Process) (username email password_hash : string),
    ready p ->
    if existsb (fun u => Mem.sql_eq (Mem.ur_username u) (PyStr username))
               (Mem.users (content p))
    then
      exists p',
        create_user username email password_hash p =
          Some (Raise (DatabaseError "IntegrityError"
                         "UNIQUE constraint failed: users.username"), p') /\
        ready p' /\ content p' = content p
    else
      exists p1 new_id,
        let row := Mem.mkUserRow new_id (PyStr username) (PyStr email)
                                 (PyStr password_hash) (PyInt 1) in
        create_user username email password_hash p = Some (Normal 1, p1) /\
        Mem.users (content p1) = Mem.users (content p) ++ [row] /\
        Mem.orders (content p1) = Mem.orders (content p) /\
        ~ In new_id (map Mem.ur_id (Mem.users (content p))) /\
        returns (get_user_by_username username) p1 (Some (user_record row)).
Proof.
  intros p username email password_hash Hr.
  destruct (ready_next_conn Hr) as [c Hc].
  unfold create_user, bindM.
  match goal with |- context [execute ?sql ?params p] =>
    destruct (execute_ready sql params Hr Hc) as (p1 & Hr1 & H) end.
  prepared H Mem.InsertUser. simpl in H.
  destruct (existsb _ (Mem.users (content p))) eqn:Hex.
  - destruct H as (He & Hcont & _). rewrite He.
    exists p1. auto.
  - destruct H as (He & Hcont & _). rewrite He. simpl.
    exists p1, (Mem.next_id (map Mem.ur_id (Mem.users (content p)))).
    split; [reflexivity|]. rewrite Hcont; simpl.
    split; [reflexivity|]. split; [reflexivity|]. split.
    { intros Hin. apply next_id_above in Hin. lia. }
    pose proof (get_user_by_username_ready username Hr1) as H1.
    rewrite Hcont in H1; simpl in H1.
    rewrite (find_app_last _ _ _ Hex) in H1. simpl in H1.
    rewrite String.eqb_refl in H1. exact H1.
Qed.

Lemma find_existsb {X} (g : X -> bool) (l : list X) (x : X) :
  find g l = Some x -> existsb g l = true.
Proof.
  intros H. apply find_some in H. apply existsb_exists. exists x. exact H.
Qed.

(** X8.  [deactivate_user] on a ready process, for the id of a stored
    user: it returns [True], [get_user_by_id] with that id then returns
    the same user with the flag 0 and every other field as before, the
    users with another id are found as before, and the orders are
    untouched. *)
Theorem deactivate_user_then_get_by_id :
  forall (p : Process) (user_id : Z) (u : Mem.UserRow),
    ready p ->
    find (fun r => Mem.ur_id r =? user_id) (Mem.users (content p)) = Some u ->
    exists p1,
      deactivate_user user_id p = Some (Normal true, p1) /\
      returns (get_user_by_id user_id) p1
        (Some (user_record
                 (Mem.mkUserRow (Mem.ur_id u) (Mem.ur_username u) (Mem.ur_email u)
                                (Mem.ur_password_hash u) (PyInt 0)))) /\
      (forall other,
          other <> user_id ->
          find (fun r => Mem.ur_id r =? other) (Mem.users (content p1)) =
          find (fun r => Mem.ur_id r =? other) (Mem.users (content p))) /\
      Mem.orders (content p1) = Mem.orders (content p).
Proof.
  intros p user_id u Hr Hu.
  destruct (ready_next_conn Hr) as [c Hc].
  unfold deactivate_user, bindM.
  match goal with |- context [execute ?sql ?params p] =>
    destruct (execute_ready sql params Hr Hc) as (p1 & Hr1 & H) end.
  prepared H Mem.DeactivateUser. simpl in H.
  destruct H as (He & Hcont & _). rewrite He. simpl.
  rewrite count_pos, (find_existsb _ _ Hu).
  exists p1. split; [reflexivity|].
  pose proof (get_user_by_id_ready user_id Hr1) as Hget.
  rewrite Hcont in *; simpl in *.
  split; [|split; [|reflexivity]].
  - rewrite find_map_update in Hget by reflexivity.
    rewrite Hu in Hget; simpl in Hget.
    rewrite (find_some_true _ _ Hu) in Hget. exact Hget.
  - intros other Hne. rewrite find_map_update by reflexivity.
    destruct (find (fun r => Mem.ur_id r =? other) (Mem.users (content p)))
      as [x|] eqn:Hx; [|reflexivity].
    simpl. apply find_some_true in Hx. apply Z.eqb_eq in Hx.
    destruct (Mem.ur_id x =? user_id) eqn:E; [|reflexivity].
    apply Z.eqb_eq in E. congruence.
Qed.

(** X9.  [update_order_status] on a ready process, for the id of a
    stored order and any status text: it returns [True],
    [get_order_by_id] with that id then returns the same order with the
    status given and every other field as before, the orders with another
    id are found as before, and the users are untouched. *)
Theorem update_order_status_then_get_by_id :
  forall (p : Process) (order_id : Z) (status : string) (o : Mem.OrderRow),
    ready p ->
    find (fun r => Mem.or_id r =? order_id) (Mem.orders (content p)) = Some o ->
    exists p1,
      update_order_status order_id status p = Some (Normal true, p1) /\
      returns (get_order_by_id order_id) p1
        (Some (order_record
                 (Mem.mkOrderRow (Mem.or_id o) (Mem.or_user_id o)
                                 (Mem.or_total_amount o) (PyStr status)
                                 (Mem.or_created_at o)))) /\
      (forall other,
          other <> order_id ->
          find (fun r => Mem.or_id r =? other) (Mem.orders (content p1)) =
          find (fun r => Mem.or_id r =? other) (Mem.orders (content p))) /\
      Mem.users (content p1) = Mem.users (content p).
Proof.
  intros p order_id status o Hr Ho.
  destruct (ready_next_conn Hr) as [c Hc].
  unfold update_order_status, bindM.
  match goal with |- context [execute ?sql ?params p] =>
    destruct (execute_ready sql params Hr Hc) as (p1 & Hr1 & H) end.
  prepared H Mem.UpdateOrderStatus. simpl in H.
  destruct H as (He & Hcont & _). rewrite He. simpl.
  rewrite count_pos, (find_existsb _ _ Ho).
  exists p1. split; [reflexivity|].
  pose proof (get_order_by_id_ready order_id Hr1) as Hget.
  rewrite Hcont in *; simpl in *.
  split; [|split; [|reflexivity]].
  - rewrite find_map_update in Hget by reflexivity.
    rewrite Ho in Hget; simpl in Hget.
    rewrite (find_some_true _ _ Ho) in Hget. exact Hget.
  - intros other Hne. rewrite find_map_update by reflexivity.
    destruct (find (fun r => Mem.or_id r =? other) (Mem.orders (content p)))
      as [x|] eqn:Hx; [|reflexivity].
    simpl. apply find_some_true in Hx. apply Z.eqb_eq in Hx.
    destruct (Mem.or_id x =? order_id) eqn:E; [|reflexivity].
    apply Z.eqb_eq in E. congruence.
Qed.

Lemma OrderRecord_list_order_out (l : list Mem.OrderRow) :
  OrderRecord_list (map dict_of_Row (map Mem.order_out l)) =
  Normal (map order_record l).
Proof.
  induction l as [|o l IH]; [reflexivity|].
  cbn [map OrderRecord_list].
  change (OrderRecord_init (dict_of_Row (Mem.order_out o)))
    with (Normal (order_record o)).
  now rewrite IH.
Qed.

Lemma get_orders_by_user_ready (p : Process) (user_id : Z) :
  ready p ->
  exists p',
    get_orders_by_user user_id p =
      Some (Normal (map order_record
                      (filter (fun o => Mem.sql_eq (Mem.or_user_id o) (PyInt user_id))
                              (Mem.orders (content p)))), p') /\
    ready p' /\ content p' = content p.
Proof.
  intros Hr. destruct (ready_next_conn Hr) as [c Hc].
  unfold get_orders_by_user, bindM.
  match goal with |- context [execute ?sql ?params p] =>
    destruct (execute_ready sql params Hr Hc) as (p' & Hr' & H) end.
  prepared H Mem.SelectOrdersByUser. simpl in H.
  destruct H as (He & Hcont & _). rewrite He. cbn [rows].
  unfold liftO. rewrite OrderRecord_list_order_out.
  exists p'. auto.
Qed.



End RepositoryRoundTrips.

(** ** A unit of work cut short, over the in-memory datastore *)

Section InterruptedFacts.

Context {cfg : Config}.

(** X6.  A pool of one connection over the in-memory datastore.  A unit
    of work that writes and is then cut short from the keyboard leaves
    [acquire] with neither commit nor rollback: the exception comes out,
    the committed content is what it was, and the write stays pending on
    the connection, which is back in the queue.  The next [execute]
    through the pool is given that connection, runs on the content with
    the pending write, and its commit makes that write part of the
    committed content. *)
Theorem interrupted_write_is_committed_by_the_next_call :
  forall (p : Process) (pool : ConnectionPool) (c : Conn)
         (sql : string) (params : list pyval) (st : Mem.Stmt)
         (rs : list Row) (n : Z) (d' : Mem.Data),
    ready p ->
    module_pool p = Some pool ->
    idle pool = [c] ->
    Mem.prepare sql = Some st ->
    Mem.is_dml st = true ->
    Mem.run_stmt st params (content p) = Normal (rs, n, d') ->
    exists p1,
      with_connection (interrupted_after (execute_body sql params)) p =
        Some (Raise KeyboardInterrupt, p1) /\
      content p1 = content p /\
      calls p1 = calls p ++ [EvGet c; EvExecute c sql params; EvPut c] /\
      forall sql2 params2 st2 rs2 n2 d2,
        Mem.prepare sql2 = Some st2 ->
        Mem.run_stmt st2 params2 d' = Normal (rs2, n2, d2) ->
        exists p2,
          execute sql2 params2 p1 =
            Some (Normal (mkQueryResult (map dict_of_Row rs2) n2), p2) /\
          content p2 = (if Mem.is_dml st2 then d2 else d').
Proof.
  intros p pool c sql params st rs n d' Hr Hm Hi Hprep Hdml Hrun.
  destruct Hr as (pool0 & Hm0 & _ & Hok & Hopen & Htxn).
  rewrite Hm in Hm0; injection Hm0 as <-.
  rewrite Hi in Hopen. inversion Hopen as [|? ? Ho _]; subst.
  destruct p as [mp [[w tr] clk]]; unfold content, calls in *; simpl in *.
  subst mp.
  assert (Hok1 : pool_ok (with_idle pool [c])).
  { unfold pool_ok, idle in *; simpl. rewrite Hi in Hok. exact Hok. }
  set (w1 := Mem.mkWorld (Mem.committed w) (Some (c, d')) (Mem.opened w)
                         (Mem.closed w)).
  assert (Ho1 : Mem.is_open c w1 = true) by exact Ho.
  eexists. split; [|split; [|split]].
  - unfold with_connection, get_pool; simpl.
    rewrite (acquire_granted _ _ Hok Hi).
    unfold lift at 1. unfold interrupted_after, execute_body, bind,
      Connection_execute, call, throw, ret. simpl.
    rewrite (mem_execute_idle c sql params w Ho Htxn), Hprep, Hrun, Hdml.
    simpl. reflexivity.
  - reflexivity.
  - simpl. rewrite <- !app_assoc. reflexivity.
  - intros sql2 params2 st2 rs2 n2 d2 Hprep2 Hrun2.
    unfold execute, with_connection, get_pool; simpl.
    rewrite (acquire_granted _ _ Hok1 eq_refl).
    unfold lift at 1. unfold execute_body, bind, Connection_execute, call, ret.
    simpl. fold w1.
    unfold Mem.mem_execute. rewrite Ho1, Hprep2. simpl.
    unfold Mem.exec_stmt, Mem.locked, Mem.view. simpl.
    rewrite Nat.eqb_refl, andb_false_r, Hrun2. simpl.
    unfold lift, bind, Connection_commit, call. simpl.
    destruct (Mem.is_dml st2).
    + rewrite mem_commit_spec; [|exact Ho1|right; eexists; reflexivity].
      simpl. eexists. split; [reflexivity|].
      unfold Mem.view; simpl. now rewrite Nat.eqb_refl.
    + rewrite mem_commit_spec; [|exact Ho1|right; eexists; reflexivity].
      simpl. eexists. split; [reflexivity|].
      unfold Mem.view; simpl. now rewrite Nat.eqb_refl.
Qed.

End InterruptedFacts.

(** ** Dictionaries *)

Section PyDictFacts.

Context {V : Type}.

Lemma pd_get_set_same (d : pydict V) (k : string) (v : V) :
  pd_get (pd_set d k v) k = Some v.
Proof.
  induction d as [|[k' v'] d IH]; simpl.
  - now rewrite String.eqb_refl.
  - destruct (String.eqb k' k) eqn:E; simpl.
    + now rewrite String.eqb_refl.
    + now rewrite E.
Qed.

Lemma pd_get_set_other (d : pydict V) (k k' : string) (v : V) :
  k' <> k -> pd_get (pd_set d k v) k' = pd_get d k'.
Proof.
  intros Hne. induction d as [|[k0 v0] d IH]; simpl.
  - destruct (String.eqb k k') eqn:E; [|reflexivity].
    apply String.eqb_eq in E. congruence.
  - destruct (String.eqb k0 k) eqn:E; simpl.
    + apply String.eqb_eq in E; subst k0.
      destruct (String.eqb k k') eqn:E'; [|reflexivity].
      apply String.eqb_eq in E'. congruence.
    + destruct (String.eqb k0 k'); [reflexivity | exact IH].
Qed.

Lemma pd_get_del_same (d : pydict V) (k : string) :
  pd_get (pd_del d k) k = None.
Proof.
  induction d as [|[k' v'] d IH]; simpl; [reflexivity|].
  destruct (String.eqb k' k) eqn:E; simpl; [exact IH|].
  now rewrite E.
Qed.

Lemma pd_get_del_other (d : pydict V) (k k' : string) :
  k' <> k -> pd_get (pd_del d k) k' = pd_get d k'.
Proof.
  intros Hne. induction d as [|[k0 v0] d IH]; simpl; [reflexivity|].
  destruct (String.eqb k0 k) eqn:E; simpl.
  - apply String.eqb_eq in E; subst k0.
    destruct (String.eqb k k') eqn:E'; [|exact IH].
    apply String.eqb_eq in E'. congruence.
  - destruct (String.eqb k0 k'); [reflexivity | exact IH].
Qed.

Lemma pd_del_absent (d : pydict V) (k : string) :
  pd_get d k = None -> pd_del d k = d.
Proof.
  induction d as [|[k' v'] d IH]; simpl; [reflexivity|].
  destruct (String.eqb k' k) eqn:E; [discriminate|].
  intros H. simpl. now rewrite (IH H).
Qed.

Lemma pd_get_set (d : pydict V) (k k' : string) (v : V) :
  pd_get (pd_set d k v) k' = if String.eqb k k' then Some v else pd_get d k'.
Proof.
  destruct (String.eqb k k') eqn:E.
  - apply String.eqb_eq in E; subst. apply pd_get_set_same.
  - apply pd_get_set_other. intros ->. now rewrite String.eqb_refl in E.
Qed.

End PyDictFacts.

(** ** Payment intents *)

Module ProcessorFacts.

Import Processor ProcessorOps.

Section WithEnvironment.

Context {py : Builtins} {gw : Gateway}.


Lemma status_eqb_eq (a b : PaymentStatus) : status_eqb a b = true <-> a = b.
Proof. destruct a, b; simpl; split; intros H; try discriminate; reflexivity. Qed.

(** X12.  [charge] reports success exactly when the intent is there, is
    pending, and the gateway is configured.  A pending intent leaves the
    call succeeded, or failed when the gateway is not configured, with
    its user and amount as before; any other call changes nothing.  A
    second [charge] of the same id, right after, always reports failure
    and changes nothing: no intent is charged twice. *)
Theorem charge_charges_at_most_once :
  forall (k : string) (s : Intents),
    let '(r1, s1) := charge k s in
    (success r1 = true <->
     exists intent,
       pd_get s k = Some intent /\ status intent = PENDING /\
       not_configured = false) /\
    (forall intent,
        pd_get s k = Some intent -> status intent = PENDING ->
        pd_get s1 k =
          Some (set_status intent (if not_configured then FAILED else SUCCEEDED))) /\
    ((forall intent, pd_get s k = Some intent -> status intent <> PENDING) ->
     s1 = s) /\
    let '(r2, s2) := charge k s1 in
    success r2 = false /\ s2 = s1.
Proof.
  intros k s. unfold charge at 1.
  destruct (pd_get s k) as [intent|] eqn:Hg.
  - destruct (status_eqb (status intent) PENDING) eqn:Hs; simpl.
    + apply status_eqb_eq in Hs.
      destruct not_configured eqn:Hc; simpl.
      * split; [split; [discriminate | intros (i & _ & _ & H); discriminate]|].
        split; [intros i Hi _; injection Hi as <-; apply pd_get_set_same|].
        split; [intros H; exfalso; exact (H intent eq_refl Hs)|].
        unfold charge. rewrite pd_get_set_same. simpl. auto.
      * split; [split; [intros _; eauto | reflexivity]|].
        split; [intros i Hi _; injection Hi as <-; apply pd_get_set_same|].
        split; [intros H; exfalso; exact (H intent eq_refl Hs)|].
        unfold charge. rewrite pd_get_set_same. simpl. auto.
    + assert (Hne : status intent <> PENDING).
      { intros H. apply status_eqb_eq in H. congruence. }
      split; [split; [discriminate | intros (i & Hi & Hp & _); congruence]|].
      split; [intros i Hi Hp; congruence|].
      split; [reflexivity|].
      unfold charge. rewrite Hg, Hs. simpl. auto.
  - simpl.
    split; [split; [discriminate | intros (i & Hi & _); discriminate]|].
    split; [intros i Hi; discriminate|].
    split; [reflexivity|].
    unfold charge. rewrite Hg. auto.
Qed.

(** X13.  [refund] reports success exactly when the intent is there, has
    succeeded, and the amount asked for is absent, zero, or at most the
    amount charged (an amount below zero passes).  On success the refund
    id is the one drawn and the intent is refunded, whatever the amount;
    on failure nothing changes.  After a success every further [refund]
    of the same id reports failure and changes nothing: an intent is
    refunded at most once, also when the first refund was partial. *)
Theorem refund_refunds_at_most_once :
  forall (uuid uuid2 k : string) (amount amount2 : option Z) (s : Intents),
    let '(r1, s1) := refund uuid k amount s in
    (refund_success r1 = true <->
     exists intent,
       pd_get s k = Some intent /\ status intent = SUCCEEDED /\
       match amount with
       | Some a => a = 0 \/ a <= amount_cents intent
       | None => True
       end) /\
    (refund_success r1 = false -> s1 = s) /\
    (refund_success r1 = true ->
     refund_id r1 = uuid /\
     (forall intent, pd_get s k = Some intent ->
                     pd_get s1 k = Some (set_status intent REFUNDED)) /\
     let '(r2, s2) := refund uuid2 k amount2 s1 in
     refund_success r2 = false /\ s2 = s1).
Proof.
  intros uuid uuid2 k amount amount2 s. unfold refund at 1.
  destruct (pd_get s k) as [intent|] eqn:Hg.
  - destruct (status_eqb (status intent) SUCCEEDED) eqn:Hs; simpl.
    + apply status_eqb_eq in Hs.
      set (refund_amount := match amount with
                            | Some a => if a =? 0 then amount_cents intent else a
                            | None => amount_cents intent
                            end).
      assert (Hamt : (amount_cents intent <? refund_amount) = false <->
                     match amount with
                     | Some a => a = 0 \/ a <= amount_cents intent
                     | None => True
                     end).
      { unfold refund_amount. destruct amount as [a|].
        - destruct (a =? 0) eqn:Ea.
          + apply Z.eqb_eq in Ea. rewrite Z.ltb_irrefl. split; auto.
          + apply Z.eqb_neq in Ea. rewrite Z.ltb_ge. split; [auto | intros [?|?]; [congruence | assumption]].
        - rewrite Z.ltb_irrefl. split; auto. }
      destruct (amount_cents intent <? refund_amount) eqn:Hlt; simpl.
      * split.
        { split; [discriminate|]. intros (i & Hi & _ & Ha).
          injection Hi as <-. apply Hamt in Ha. discriminate. }
        split; [reflexivity | discriminate].
      * split.
        { split; [intros _ | reflexivity].
          exists intent. split; [reflexivity|]. split; [exact Hs|].
          now apply Hamt. }
        split; [discriminate|]. intros _.
        split; [reflexivity|].
        split; [intros i Hi; injection Hi as <-; apply pd_get_set_same|].
        unfold refund. rewrite pd_get_set_same. simpl. auto.
    + assert (Hne : status intent <> SUCCEEDED).
      { intros H. apply status_eqb_eq in H. congruence. }
      split; [split; [discriminate | intros (i & Hi & Hp & _); congruence]|].
      split; [reflexivity | discriminate].
  - simpl.
    split; [split; [discriminate | intros (i & Hi & _); discriminate]|].
    split; [reflexivity | discriminate].
Qed.

Lemma apply_sound (op : Op) (s : Intents) : sound s -> sound (apply op s).
Proof.
  intros Hs k intent. destruct op as [uuid now u a c m | k0 | uuid k0 a]; simpl.
  - unfold create_payment_intent. destruct (a <=? 0) eqn:Ha; simpl; [apply Hs|].
    rewrite pd_get_set. destruct (String.eqb uuid k) eqn:E; [|apply Hs].
    apply String.eqb_eq in E. intros H; injection H as <-. simpl.
    apply Z.leb_gt in Ha. auto.
  - unfold charge. destruct (pd_get s k0) as [i|] eqn:Hg; [|apply Hs].
    destruct (status_eqb (status i) PENDING); simpl; [|apply Hs].
    destruct not_configured; simpl; rewrite pd_get_set;
      (destruct (String.eqb k0 k) eqn:E; [|apply Hs]);
      apply String.eqb_eq in E; subst k0;
      intros H; injection H as <-; simpl; exact (Hs k i Hg).
  - unfold refund. destruct (pd_get s k0) as [i|] eqn:Hg; [|apply Hs].
    destruct (status_eqb (status i) SUCCEEDED); simpl; [|apply Hs].
    destruct (amount_cents i <? _); simpl; [apply Hs|].
    rewrite pd_get_set. destruct (String.eqb k0 k) eqn:E; [|apply Hs].
    apply String.eqb_eq in E; subst k0.
    intros H; injection H as <-; simpl; exact (Hs k i Hg).
Qed.

(** X14.  Whatever calls of [create_payment_intent], [charge] and
    [refund] are made, in whatever order and with whatever arguments,
    starting with no intent: every intent kept is kept under its own id
    and is of a positive amount. *)
Theorem intents_are_positive_and_keyed_by_id :
  forall ops : list Op, sound (run ops []).
Proof.
  intros ops. unfold run.
  assert (H : forall s, sound s -> sound (fold_left (fun s op => apply op s) ops s)).
  { induction ops as [|op ops IH]; intros s Hs; simpl; [exact Hs|].
    apply IH, apply_sound, Hs. }
  apply H. intros k intent; discriminate.
Qed.

Lemma apply_keeps_closed (op : Op) (s : Intents) (k : string) (intent : PaymentIntent) :
  pd_get s k = Some intent ->
  status intent = FAILED \/ status intent = REFUNDED ->
  never_draws k [op] ->
  pd_get (apply op s) k = Some intent.
Proof.
  intros Hg Hst Hnd. inversion Hnd as [|? ? Hop _]; subst.
  destruct op as [uuid now u a c m | k0 | uuid k0 a]; simpl.
  - unfold create_payment_intent. destruct (a <=? 0); simpl; [exact Hg|].
    rewrite pd_get_set_other; [exact Hg | congruence].
  - unfold charge. destruct (pd_get s k0) as [i|] eqn:Hg0; [|exact Hg].
    destruct (status_eqb (status i) PENDING) eqn:Hs; simpl; [|exact Hg].
    apply status_eqb_eq in Hs.
    assert (Hne : k <> k0).
    { intros ->. rewrite Hg in Hg0; injection Hg0 as <-.
      destruct Hst; congruence. }
    destruct not_configured; simpl; now rewrite pd_get_set_other.
  - unfold refund. destruct (pd_get s k0) as [i|] eqn:Hg0; [|exact Hg].
    destruct (status_eqb (status i) SUCCEEDED) eqn:Hs; simpl; [|exact Hg].
    apply status_eqb_eq in Hs.
    assert (Hne : k <> k0).
    { intros ->. rewrite Hg in Hg0; injection Hg0 as <-.
      destruct Hst; congruence. }
    destruct (amount_cents i <? _); simpl; [exact Hg|].
    now rewrite pd_get_set_other.
Qed.

(** X15.  A failed or refunded intent is final: whatever calls of the
    module follow, as long as none of them draws its id anew for another
    intent, it stays exactly what it is. *)
Theorem failed_or_refunded_intent_is_final :
  forall (ops : list Op) (s : Intents) (k : string) (intent : PaymentIntent),
    pd_get s k = Some intent ->
    status intent = FAILED \/ status intent = REFUNDED ->
    never_draws k ops ->
    pd_get (run ops s) k = Some intent.
Proof.
  intros ops. unfold run.
  induction ops as [|op ops IH]; intros s k intent Hg Hst Hnd; simpl; [exact Hg|].
  inversion Hnd as [|? ? Hop Hrest]; subst.
  apply IH; [|exact Hst|exact Hrest].
  apply apply_keeps_closed; [exact Hg | exact Hst |].
  constructor; [exact Hop | constructor].
Qed.

End WithEnvironment.

End ProcessorFacts.

(** ** Invoices *)

Module InvoiceFacts.

Import Invoices InvoiceOps.

Section WithEnvironment.

Context {py : Builtins}.

Lemma invoice_status_eqb_eq (a b : InvoiceStatus) : status_eqb a b = true <-> a = b.
Proof. destruct a, b; simpl; split; intros H; try discriminate; reflexivity. Qed.

(** X16.  [send_invoice] reports success exactly when the invoice is
    there and is a draft, and then marks it sent; on failure nothing
    changes, and a second [send_invoice] right after always fails:
    an invoice is sent at most once.  [void_invoice] reports success
    exactly when the invoice is there and not void yet, whatever else its
    status (sent and paid included); the invoice is void afterwards with
    its line items and total as before, and from then on [send_invoice]
    and [void_invoice] both fail and change nothing. *)
Theorem invoice_is_sent_once_and_void_is_final :
  forall (k : string) (s : Store),
    (let '(r1, s1) := send_invoice k s in
     (success r1 = true <->
      exists invoice, pd_get s k = Some invoice /\ status invoice = DRAFT) /\
     (success r1 = true ->
      forall invoice, pd_get s k = Some invoice ->
                      pd_get s1 k = Some (set_status invoice SENT)) /\
     (success r1 = false -> s1 = s) /\
     let '(r2, s2) := send_invoice k s1 in
     success r2 = false /\ s2 = s1) /\
    (let '(v1, t1) := void_invoice k s in
     (success v1 = true <->
      exists invoice, pd_get s k = Some invoice /\ status invoice <> VOID) /\
     (success v1 = false -> t1 = s) /\
     (forall invoice,
         pd_get s k = Some invoice ->
         exists invoice',
           pd_get t1 k = Some invoice' /\ status invoice' = VOID /\
           line_items invoice' = line_items invoice /\
           total_amount_cents invoice' = total_amount_cents invoice) /\
     (let '(r3, t2) := send_invoice k t1 in success r3 = false /\ t2 = t1) /\
     (let '(v2, t2) := void_invoice k t1 in success v2 = false /\ t2 = t1)).
Proof.
  intros k s. split.
  - unfold send_invoice at 1.
    destruct (pd_get s k) as [invoice|] eqn:Hg.
    + destruct (status_eqb (status invoice) DRAFT) eqn:Hs; simpl.
      * apply invoice_status_eqb_eq in Hs.
        split; [split; [eauto | reflexivity]|].
        split; [intros _ i Hi; injection Hi as <-; apply pd_get_set_same|].
        split; [discriminate|].
        unfold send_invoice. rewrite pd_get_set_same. simpl. auto.
      * assert (Hne : status invoice <> DRAFT).
        { intros H. apply invoice_status_eqb_eq in H. congruence. }
        split; [split; [discriminate | intros (i & Hi & Hd); congruence]|].
        split; [discriminate|]. split; [reflexivity|].
        unfold send_invoice. rewrite Hg, Hs. simpl. auto.
    + simpl.
      split; [split; [discriminate | intros (i & Hi & _); discriminate]|].
      split; [discriminate|]. split; [reflexivity|].
      unfold send_invoice. rewrite Hg. auto.
  - unfold void_invoice at 1.
    destruct (pd_get s k) as [invoice|] eqn:Hg.
    + destruct (status_eqb (status invoice) VOID) eqn:Hs; simpl.
      * apply invoice_status_eqb_eq in Hs.
        split; [split; [discriminate | intros (i & Hi & Hv); congruence]|].
        split; [reflexivity|].
        split; [intros i Hi; injection Hi as <-; exists invoice; auto|].
        unfold send_invoice, void_invoice. rewrite Hg, Hs. simpl. auto.
      * assert (Hne : status invoice <> VOID).
        { intros H. apply invoice_status_eqb_eq in H. congruence. }
        split; [split; [eauto | reflexivity]|].
        split; [discriminate|].
        split.
        { intros i Hi; injection Hi as <-. eexists.
          split; [apply pd_get_set_same|]. auto. }
        unfold send_invoice, void_invoice. rewrite pd_get_set_same. simpl. auto.
    + simpl.
      split; [split; [discriminate | intros (i & Hi & _); discriminate]|].
      split; [reflexivity|].
      split; [intros i Hi; discriminate|].
      unfold send_invoice, void_invoice. rewrite Hg. auto.
Qed.

Lemma invoice_apply_sound (op : Op) (s : Store) : sound s -> sound (apply op s).
Proof.
  intros Hs k invoice. destruct op as [uuid now u items c m | k0 | k0]; simpl.
  - unfold create_invoice. destruct items as [|item items]; simpl; [apply Hs|].
    rewrite pd_get_set. destruct (String.eqb uuid k) eqn:E; [|apply Hs].
    apply String.eqb_eq in E. intros H; injection H as <-. simpl.
    repeat split; [exact E | discriminate | discriminate].
  - unfold send_invoice. destruct (pd_get s k0) as [i|] eqn:Hg; [|apply Hs].
    destruct (status_eqb (status i) DRAFT); simpl; [|apply Hs].
    rewrite pd_get_set. destruct (String.eqb k0 k) eqn:E; [|apply Hs].
    apply String.eqb_eq in E; subst k0.
    intros H; injection H as <-; simpl.
    destruct (Hs k i Hg) as (H1 & H2 & _). repeat split; auto. discriminate.
  - unfold void_invoice. destruct (pd_get s k0) as [i|] eqn:Hg; [|apply Hs].
    destruct (status_eqb (status i) VOID); simpl; [apply Hs|].
    rewrite pd_get_set. destruct (String.eqb k0 k) eqn:E; [|apply Hs].
    apply String.eqb_eq in E; subst k0.
    intros H; injection H as <-; simpl.
    destruct (Hs k i Hg) as (H1 & H2 & _). repeat split; auto. discriminate.
Qed.

(** X17.  Whatever calls of [create_invoice], [send_invoice] and
    [void_invoice] are made, in whatever order and with whatever
    arguments, starting with no invoice: every invoice kept is kept under
    its own id, has at least one line item, and is not marked paid. *)
Theorem invoices_have_items_and_are_never_paid :
  forall ops : list Op, sound (run ops []).
Proof.
  intros ops. unfold run.
  assert (H : forall s, sound s -> sound (fold_left (fun s op => apply op s) ops s)).
  { induction ops as [|op ops IH]; intros s Hs; simpl; [exact Hs|].
    apply IH, invoice_apply_sound, Hs. }
  apply H. intros k invoice; discriminate.
Qed.

End WithEnvironment.

End InvoiceFacts.

(** ** Notifications *)

Module SenderFacts.

Import Sender.

Section WithEnvironment.

Context {mail : Mail} {js : Json} {cr : Crypto}.

Lemma notification_status_eqb_eq (a b : NotificationStatus) :
  status_eqb a b = true <-> a = b.
Proof. destruct a, b; simpl; split; intros H; try discriminate; reflexivity. Qed.

(** X18.  [create_notification] raises [ValueError] and keeps nothing
    unless the channel is one of ['email'], ['webhook'], ['sms'], spelled
    so.  Otherwise it returns a pending notification, not yet sent and
    without error text, with the id drawn, and [get_notification] with
    that id then returns it; what is kept under any other id is as
    before. *)
Theorem create_notification_checks_the_channel :
  forall uuid now user channel subject body (s : Store),
    let '(r, s') := create_notification uuid now user channel subject body s in
    if existsb (String.eqb channel) ["email"; "webhook"; "sms"]%string then
      r = Normal (mkNotification uuid user channel subject body PENDING now None "") /\
      get_notification uuid s' =
        Some (mkNotification uuid user channel subject body PENDING now None "") /\
      forall other, other <> uuid ->
                    get_notification other s' = get_notification other s
    else
      r = Raise (ValueError (String.append "Unsupported notification channel: "
                                           channel)) /\
      s' = s.
Proof.
  intros uuid now user channel subject body s.
  unfold create_notification. simpl. rewrite orb_false_r, orb_assoc.
  destruct (String.eqb channel "email" || String.eqb channel "webhook"
            || String.eqb channel "sms"); [|auto].
  unfold get_notification. simpl. split; [reflexivity|]. split.
  - apply pd_get_set_same.
  - intros other Hne. now apply pd_get_set_other.
Qed.

(** X19.  A notification is handed to a channel at most once.  Once
    [send_email] has returned for a pending notification, or
    [send_webhook] has returned for it (the response came, or [URLError]
    was raised), the notification is no longer pending: it is sent, or
    failed with the error text; and for a notification that is not
    pending, [send_email] and [send_webhook] report failure, change
    nothing and make no request, so that a failed delivery is never
    tried again.  Only when something other than [URLError] is raised
    does the notification stay pending, the exception leaving the
    call. *)
Theorem notification_is_delivered_at_most_once :
  forall (k : string) (s : Store) (n : Notification),
    pd_get s k = Some n ->
    (status n <> PENDING ->
     (forall now,
         send_email now k s = (mkSendResult false k (not_pending_message n), s)) /\
     (forall net now url,
         send_webhook net now k url s =
           (Normal (mkSendResult false k (not_pending_message n)), s, None))) /\
    (status n = PENDING ->
     (forall now,
         exists n', pd_get (snd (send_email now k s)) k = Some n' /\
                    status n' <> PENDING) /\
     (forall net now url,
         let '(r, s', req) := send_webhook net now k url s in
         match net (webhook_request n url) with
         | Delivered =>
             pd_get s' k = Some (mark_sent n now) /\
             r = Normal (mkSendResult true k "")
         | UrlError text =>
             pd_get s' k = Some (mark_failed n text) /\
             r = Normal (mkSendResult false k text)
         | Failure x => s' = s /\ r = Raise x
         end)).
Proof.
  intros k s n Hg. split.
  - intros Hne.
    assert (Hs : status_eqb (status n) PENDING = false).
    { destruct (status_eqb (status n) PENDING) eqn:E; [|reflexivity].
      apply notification_status_eqb_eq in E. congruence. }
    split; intros; unfold send_email, send_webhook; rewrite Hg, Hs; reflexivity.
  - intros Hp.
    assert (Hs : status_eqb (status n) PENDING = true)
      by now apply notification_status_eqb_eq.
    split.
    + intros now. unfold send_email. rewrite Hg, Hs. simpl.
      destruct (String.eqb SMTP_HOST "" || String.eqb SMTP_USER ""); simpl;
        rewrite pd_get_set_same; eexists; (split; [reflexivity | discriminate]).
    + intros net now url. unfold send_webhook. rewrite Hg, Hs. simpl.
      destruct (net (webhook_request n url)); simpl;
        try rewrite pd_get_set_same; auto.
Qed.

(** X20.  The request of [send_webhook] for a pending notification: a
    [POST] to the address given, whose body is the JSON text of the id,
    user id, subject and body of the notification, with the content type
    header; it carries the header [X-VecGrep-Signature] exactly when
    [WEBHOOK_SECRET] is not empty, and then its value is ["sha256="]
    followed by the HMAC of that very body under the secret. *)
Theorem webhook_request_is_signed_when_secret_is_set :
  forall (net : WebRequest -> Delivery) (now : float) (k target : string)
         (s : Store) (n : Notification),
    pd_get s k = Some n ->
    status n = PENDING ->
    exists req,
      snd (send_webhook net now k target s) = Some req /\
      url req = target /\
      method req = "POST"%string /\
      data req =
        json_dumps (JObject [("id", JStr (id n)); ("user_id", JInt (user_id n));
                             ("subject", JStr (subject n));
                             ("body", JStr (body n))]%string) /\
      pd_get (headers req) "Content-Type" = Some "application/json"%string /\
      pd_get (headers req) "X-VecGrep-Signature" =
        (if String.eqb WEBHOOK_SECRET "" then None
         else Some (String.append "sha256="
                      (hmac_sha256_hex WEBHOOK_SECRET (data req)))).
Proof.
  intros net now k target s n Hg Hp.
  unfold send_webhook. rewrite Hg, Hp. simpl.
  exists (webhook_request n target).
  split; [destruct (net (webhook_request n target)); reflexivity|].
  unfold webhook_request. simpl.
  destruct (String.eqb WEBHOOK_SECRET ""); simpl; auto 10.
Qed.

End WithEnvironment.

End SenderFacts.

(** ** Sessions *)

Lemma append_String_assoc (a : string) (c : ascii) (s : string) :
  String.append (String.append a (String c EmptyString)) s =
  String.append a (String c s).
Proof. induction a as [|x a IH]; simpl; [reflexivity | now rewrite IH]. Qed.

Lemma append_empty_r (a : string) : String.append a EmptyString = a.
Proof. induction a as [|x a IH]; simpl; [reflexivity | now rewrite IH]. Qed.

Lemma split_from_length (sep : ascii) (s cur : string) :
  List.length (split_from sep cur s) = S (count_char sep s).
Proof.
  revert cur. induction s as [|c s IH]; intros cur; simpl; [reflexivity|].
  destruct (Ascii.eqb c sep); simpl; now rewrite IH.
Qed.

Lemma split_from_plain (sep : ascii) (s cur : string) :
  count_char sep s = O -> split_from sep cur s = [String.append cur s].
Proof.
  revert cur. induction s as [|c s IH]; intros cur; simpl.
  - intros _. now rewrite append_empty_r.
  - destruct (Ascii.eqb c sep); [discriminate|]. simpl. intros H.
    rewrite IH by exact H. now rewrite append_String_assoc.
Qed.

Lemma split_from_two (sep : ascii) (a b cur : string) :
  count_char sep a = O ->
  count_char sep b = O ->
  split_from sep cur (String.append a (String sep b)) = [String.append cur a; b].
Proof.
  revert cur. induction a as [|c a IH]; intros cur Ha Hb; simpl.
  - rewrite Ascii.eqb_refl. rewrite split_from_plain by exact Hb. simpl.
    now rewrite append_empty_r.
  - simpl in Ha. destruct (Ascii.eqb c sep); [discriminate|]. simpl in Ha.
    rewrite IH by assumption. now rewrite append_String_assoc.
Qed.

Module AuthFacts.

Import Auth.

Section WithEnvironment.

Context {py : Builtins} {cr : Crypto} {fmt : Format} {sec : Secrets}.

(** X21.  [validate_token] returns a session exactly when one is kept
    under the token and has not expired at the time read, and then
    changes nothing.  When it returns [None] the token is not kept
    afterwards (an expired session is dropped), so that the token is
    refused at every later call whatever the clock reads then.  What is
    kept under another token is never touched.  After [revoke_token] the
    token is refused likewise, the other tokens are as before, and
    revoking a token that is not kept changes nothing and raises
    nothing. *)
Theorem validate_token_returns_live_sessions_only :
  forall (now : float) (token : string) (s : SessionStore),
    (let '(r, s') := validate_token now token s in
     (forall session, r = Some session <-> live_session now token s session) /\
     (r <> None -> s' = s) /\
     (r = None ->
      pd_get s' token = None /\
      forall later, validate_token later token s' = (None, s')) /\
     (forall other, other <> token -> pd_get s' other = pd_get s other)) /\
    (forall later,
        validate_token later token (revoke_token token s) =
          (None, revoke_token token s)) /\
    (forall other, other <> token ->
                   pd_get (revoke_token token s) other = pd_get s other) /\
    (pd_get s token = None -> revoke_token token s = s).
Proof.
  intros now token s. split; [|split; [|split]].
  - unfold validate_token at 1, live_session.
    destruct (pd_get s token) as [session|] eqn:Hg.
    + destruct (PrimFloat.ltb (expires_at session) now) eqn:Hl.
      * split.
        { intros x; split; [discriminate|]. intros [Hx Hx'].
          injection Hx as <-. congruence. }
        split; [congruence|]. split.
        { intros _. split; [apply pd_get_del_same|].
          intros later. unfold validate_token. now rewrite pd_get_del_same. }
        intros other Hne. now apply pd_get_del_other.
      * split.
        { intros x; split.
          - intros Hx; injection Hx as <-. auto.
          - intros [Hx _]. congruence. }
        split; [reflexivity|]. split; [discriminate|]. reflexivity.
    + split.
      { intros x; split; [discriminate|]. intros [Hx _]. discriminate. }
      split; [reflexivity|]. split.
      { intros _. split; [exact Hg|]. intros later.
        unfold validate_token. now rewrite Hg. }
      reflexivity.
  - intros later. unfold validate_token, revoke_token.
    now rewrite pd_get_del_same.
  - intros other Hne. now apply pd_get_del_other.
  - apply pd_del_absent.
Qed.

(** X22.  [authenticate_user] returns a session only for a user kept
    under the user name who is active and whose stored hash
    [verify_password] accepts for the password, and only when
    [SECRET_KEY] is set.  The session is of that user, without scopes,
    expires 3600 seconds after the second reading of the clock, and is
    kept under its own token, so that [validate_token] returns it until
    then; the sessions of other tokens stay.  In every other case, a
    raised exception included, the session store is as before. *)
Theorem authenticate_user_keeps_the_session_it_returns :
  forall (now_token now_expiry : float) (username password : string)
         (user_db : pydict User) (s : SessionStore),
    let '(r, s') :=
      authenticate_user now_token now_expiry username password user_db s in
    (forall session,
        r = Normal (Some session) ->
        exists user,
          pd_get user_db username = Some user /\
          is_active user = true /\
          verify_password password (password_hash user) = Normal true /\
          String.eqb SECRET_KEY "" = false /\
          generate_token now_token user None = Normal (token session) /\
          user_id session = id user /\
          scopes session = [] /\
          expires_at session =
            PrimFloat.add now_expiry (float_of_int TOKEN_TTL_SECONDS) /\
          (forall now,
              PrimFloat.ltb (expires_at session) now = false ->
              validate_token now (token session) s' = (Some session, s')) /\
          (forall other, other <> token session ->
                         pd_get s' other = pd_get s other)) /\
    ((forall session, r <> Normal (Some session)) -> s' = s).
Proof.
  intros now_token now_expiry username password user_db s.
  unfold authenticate_user.
  destruct (pd_get user_db username) as [user|] eqn:Hu;
    [|split; [discriminate | reflexivity]].
  destruct (is_active user) eqn:Ha; simpl;
    [|split; [discriminate | reflexivity]].
  destruct (verify_password password (password_hash user)) as [[|]|x] eqn:Hv;
    [|split; [discriminate | reflexivity] | split; [discriminate | reflexivity]].
  destruct (generate_token now_token user None) as [tok|x] eqn:Hg;
    [|split; [discriminate | reflexivity]].
  split.
  - intros session Hs. injection Hs as <-. simpl.
    exists user. repeat split; auto.
    + unfold generate_token in Hg.
      destruct (String.eqb SECRET_KEY ""); [discriminate | reflexivity].
    + intros now Hl. unfold validate_token. rewrite pd_get_set_same.
      simpl in Hl |- *. now rewrite Hl.
    + intros other Hne. now apply pd_get_set_other.
  - intros H. exfalso. eapply H. reflexivity.
Qed.

(** X23.  A stored hash that does not hold exactly one [':'] is refused
    by [verify_password] for every password, with [False] and no
    exception.  What [hash_password] returns for a password is accepted
    by [verify_password] for that password, and for another password
    exactly when its derived key is the same text; this for a salt whose
    hexadecimal form reads back as the salt, together with what the
    hexadecimal forms of salt and derived key are: ASCII text without
    [':']. *)
Theorem hashed_password_verifies :
  (forall password stored : string,
      count_char ":" stored <> 1%nat ->
      verify_password password stored = Normal false) /\
  (forall salt password : string,
      bytes_fromhex (bytes_hex salt) = Some salt ->
      count_char ":" (bytes_hex salt) = O ->
      count_char ":" (pbkdf2_sha256_hex password salt) = O ->
      is_ascii (pbkdf2_sha256_hex password salt) = true ->
      verify_password password (hash_password salt password) = Normal true /\
      forall other,
        is_ascii (pbkdf2_sha256_hex other salt) = true ->
        verify_password other (hash_password salt password) =
          Normal (String.eqb (pbkdf2_sha256_hex other salt)
                             (pbkdf2_sha256_hex password salt))).
Proof.
  split.
  - intros password stored Hc. unfold verify_password, str_split.
    pose proof (split_from_length ":" stored EmptyString) as Hl.
    destruct (split_from ":" EmptyString stored) as [|a [|b [|c l]]];
      try reflexivity.
    simpl in Hl. injection Hl as Hl. congruence.
  - intros salt password Hhex Hs Hd Ha.
    assert (Hsplit : str_split ":" (hash_password salt password) =
                     [bytes_hex salt; pbkdf2_sha256_hex password salt]).
    { unfold str_split, hash_password. simpl String.append.
      now rewrite split_from_two by assumption. }
    unfold verify_password. rewrite Hsplit, Hhex. unfold compare_digest.
    split.
    + now rewrite Ha, String.eqb_refl.
    + intros other Ho. now rewrite Ho, Ha.
Qed.

End WithEnvironment.

End AuthFacts.

(** ** Middleware *)

Module MiddlewareFacts.

Import Middleware.

Section WithEnvironment.

Context {py : Builtins}.

(** [auth_middleware] by what the session store holds. *)
Lemma auth_middleware_cases {St} (get : St -> Auth.SessionStore)
    (put : Auth.SessionStore -> St -> St)
    (handler : Request -> Auth.Session -> Act St Response)
    (now : float) (request : Request) (st : St) :
  auth_middleware get put handler now request st =
    if negb (String.prefix "Bearer "
               (get_default (headers request) "Authorization" "")) then
      Some (Normal (respond 401 "Unauthorized: missing or malformed token."), st)
    else
      match pd_get (get st) (bearer_token request) with
      | None =>
          Some (Normal (respond 401 "Unauthorized: invalid or expired token."),
                put (get st) st)
      | Some session =>
          if PrimFloat.ltb (Auth.expires_at session) now then
            Some (Normal (respond 401 "Unauthorized: invalid or expired token."),
                  put (pd_del (get st) (bearer_token request)) st)
          else handler request session (put (get st) st)
      end.
Proof.
  unfold auth_middleware, bearer_token, Auth.validate_token.
  destruct (negb _); [reflexivity|].
  destruct (pd_get _ _) as [session|]; [|reflexivity].
  destruct (PrimFloat.ltb _ _); reflexivity.
Qed.

(** X24.  A function under [auth_middleware] runs its handler only for
    a request whose [Authorization] header starts with ["Bearer "] and
    whose token, the rest of the header without surrounding blanks, has
    a session kept that has not expired; the handler is given that
    session.  Every other request is answered 401 whatever the handler
    is: the handler is not run, and nothing changes but the session
    store, which loses the token when its session had expired. *)
Theorem auth_middleware_runs_the_handler_for_live_sessions_only :
  forall (St : Type) (get : St -> Auth.SessionStore)
         (put : Auth.SessionStore -> St -> St)
         (handler : Request -> Auth.Session -> Act St Response)
         (now : float) (request : Request) (st : St),
    (exists session,
        String.prefix "Bearer "
          (get_default (headers request) "Authorization" "") = true /\
        live_session now (bearer_token request) (get st) session /\
        auth_middleware get put handler now request st =
          handler request session (put (get st) st))
    \/
    (exists text st',
        (forall h : Request -> Auth.Session -> Act St Response,
            auth_middleware get put h now request st =
              Some (Normal (respond 401 text), st')) /\
        (st' = st \/ st' = put (get st) st \/
         st' = put (pd_del (get st) (bearer_token request)) st) /\
        forall session,
          ~ (String.prefix "Bearer "
               (get_default (headers request) "Authorization" "") = true /\
             live_session now (bearer_token request) (get st) session)).
Proof.
  intros St get put handler now request st.
  destruct (String.prefix "Bearer "
              (get_default (headers request) "Authorization" "")) eqn:Hp.
  - destruct (pd_get (get st) (bearer_token request)) as [session|] eqn:Hg.
    + destruct (PrimFloat.ltb (Auth.expires_at session) now) eqn:Hl.
      * right. eexists; eexists. split; [|split].
        -- intros h. rewrite auth_middleware_cases, Hp, Hg, Hl. reflexivity.
        -- auto.
        -- intros x [_ [Hx Hx']]. congruence.
      * left. exists session. split; [reflexivity|]. split; [split; assumption|].
        rewrite auth_middleware_cases, Hp, Hg, Hl. reflexivity.
    + right. eexists; eexists. split; [|split].
      * intros h. rewrite auth_middleware_cases, Hp, Hg. reflexivity.
      * auto.
      * intros x [_ [Hx _]]. congruence.
  - right. eexists; eexists. split; [|split].
    + intros h. rewrite auth_middleware_cases, Hp. reflexivity.
    + auto.
    + intros x [Hx _]. discriminate.
Qed.

Lemma filter_all {X} (f : X -> bool) (l : list X) :
  (forall x, In x l -> f x = true) -> filter f l = l.
Proof.
  induction l as [|x l IH]; simpl; intros H; [reflexivity|].
  rewrite (H x (or_introl eq_refl)). f_equal. apply IH. intros y Hy. apply H. now right.
Qed.

(** X25.  A function under [rate_limit_middleware], for a request of a
    client with [recent] earlier requests counted that fall in the
    window (strictly after the time read minus [window_seconds]): with
    fewer than [max_requests] of them the handler is run and its result
    returned; otherwise the answer is 429 whatever the handler is, which
    is not run.  Either way the request is counted, a refused one too:
    the client is refused again for as long as its counted requests stay
    in the window, though none of the refused was served.  With
    [max_requests] zero or less every request is refused.  The counts of
    other clients are not touched. *)
Theorem rate_limit_counts_refused_requests :
  forall (St : Type) (handler : Request -> Act St Response)
         (max_requests window_seconds : Z) (now : float) (request : Request)
         (counts : Counts) (st : St),
    let recent :=
      filter (fun t => PrimFloat.ltb (PrimFloat.sub now (float_of_int window_seconds)) t)
             (match pd_get counts (client_of request) with
              | Some l => l
              | None => []
              end) in
    let counts' := pd_set counts (client_of request) (recent ++ [now]) in
    (Z.of_nat (List.length recent) < max_requests ->
     rate_limit_middleware handler max_requests window_seconds now request (counts, st) =
       match handler request st with
       | None => None
       | Some (r, st') => Some (r, (counts', st'))
       end) /\
    (max_requests <= Z.of_nat (List.length recent) ->
     (forall h : Request -> Act St Response,
         rate_limit_middleware h max_requests window_seconds now request (counts, st) =
           Some (Normal (respond 429 "Too Many Requests."), (counts', st))) /\
     (forall (h : Request -> Act St Response) (now' : float) (request' : Request),
         client_of request' = client_of request ->
         (forall t, In t (recent ++ [now]) ->
                    PrimFloat.ltb (PrimFloat.sub now' (float_of_int window_seconds)) t
                    = true) ->
         rate_limit_middleware h max_requests window_seconds now' request' (counts', st) =
           Some (Normal (respond 429 "Too Many Requests."),
                 (pd_set counts' (client_of request) (recent ++ [now; now']), st)))) /\
    (max_requests <= 0 ->
     forall h : Request -> Act St Response,
       rate_limit_middleware h max_requests window_seconds now request (counts, st) =
         Some (Normal (respond 429 "Too Many Requests."), (counts', st))) /\
    (forall other, other <> client_of request ->
                   pd_get counts' other = pd_get counts other).
Proof.
  intros St handler max_requests window_seconds now request counts st recent counts'.
  assert (Hlen : Z.of_nat (List.length (recent ++ [now])) =
                 Z.of_nat (List.length recent) + 1).
  { rewrite length_app. simpl. lia. }
  assert (Hrefuse : max_requests <= Z.of_nat (List.length recent) ->
                    forall h : Request -> Act St Response,
                      rate_limit_middleware h max_requests window_seconds now request
                                            (counts, st) =
                      Some (Normal (respond 429 "Too Many Requests."), (counts', st))).
  { intros Hmax h. unfold rate_limit_middleware.
    fold (client_of request). fold recent. fold counts'.
    rewrite Hlen.
    destruct (max_requests <? Z.of_nat (List.length recent) + 1) eqn:E;
      [reflexivity | apply Z.ltb_ge in E; lia]. }
  split; [|split; [|split; [|]]].
  - intros Hlt. unfold rate_limit_middleware.
    fold (client_of request). fold recent. fold counts'.
    rewrite Hlen.
    destruct (max_requests <? Z.of_nat (List.length recent) + 1) eqn:E;
      [apply Z.ltb_lt in E; lia | reflexivity].
  - intros Hmax. split; [exact (Hrefuse Hmax)|].
    intros h now' request' Hc Hin. unfold rate_limit_middleware.
    fold (client_of request'). rewrite Hc.
    assert (Hg : pd_get counts' (client_of request) = Some (recent ++ [now]))
      by apply pd_get_set_same.
    rewrite Hg.
    rewrite (filter_all
               (fun t => PrimFloat.ltb
                           (PrimFloat.sub now' (float_of_int window_seconds)) t)
               _ Hin).
    rewrite <- app_assoc. simpl.
    assert (Hl2 : Z.of_nat (List.length (recent ++ [now; now'])) =
                  Z.of_nat (List.length recent) + 2).
    { rewrite length_app. simpl. lia. }
    rewrite Hl2.
    destruct (max_requests <? Z.of_nat (List.length recent) + 2) eqn:E;
      [reflexivity | apply Z.ltb_ge in E; lia].
  - intros Hz. apply Hrefuse. lia.
  - intros other Hne. unfold counts'. now apply pd_get_set_other.
Qed.

End WithEnvironment.

End MiddlewareFacts.

(** ** Routes *)

Module RoutesFacts.

Import Middleware Routes.

Section WithEnvironment.

Context {drv : Driver} {cfg : Config} {py : Builtins} {js : Json}
        {gw : Processor.Gateway}.

Lemma put_sessions_same (app : App) : put_sessions (sessions app) app = app.
Proof. now destruct app. Qed.

(** A route under the decorator, by what the session store holds. *)
Lemma authenticated_cases (handler : Request -> Auth.Session -> Act App Response)
    (now : float) (request : Request) (app : App) :
  authenticated handler now request app =
    if negb (String.prefix "Bearer "
               (get_default (headers request) "Authorization" "")) then
      Some (Normal (respond 401 "Unauthorized: missing or malformed token."), app)
    else
      match pd_get (sessions app) (bearer_token request) with
      | None =>
          Some (Normal (respond 401 "Unauthorized: invalid or expired token."), app)
      | Some session =>
          if PrimFloat.ltb (Auth.expires_at session) now then
            Some (Normal (respond 401 "Unauthorized: invalid or expired token."),
                  put_sessions (pd_del (sessions app) (bearer_token request)) app)
          else handler request session app
      end.
Proof.
  unfold authenticated. rewrite MiddlewareFacts.auth_middleware_cases.
  now rewrite put_sessions_same.
Qed.

Lemma authenticated_live (handler : Request -> Auth.Session -> Act App Response)
    (now : float) (request : Request) (app : App) (session : Auth.Session) :
  String.prefix "Bearer " (get_default (headers request) "Authorization" "") = true ->
  live_session now (bearer_token request) (sessions app) session ->
  authenticated handler now request app = handler request session app.
Proof.
  intros Hp [Hg Hl]. now rewrite authenticated_cases, Hp, Hg, Hl.
Qed.

(** X26.  [logout] always answers, with 200 exactly when the request
    carries the token of a session that has not expired, and with 401
    otherwise; the pool, the datastore and the payment intents are not
    touched, nor are the sessions of other tokens.  After it has
    answered, either way, a request with the same [Authorization] header
    is refused with 401 by every route under the decorator, at any time
    and without running the handler. *)
Theorem logout_ends_the_session :
  forall (now : float) (request : Request) (app : App),
    exists response app',
      logout now request app = Some (Normal response, app') /\
      (response = respond 200 "Logged out." <->
       String.prefix "Bearer "
         (get_default (headers request) "Authorization" "") = true /\
       exists session,
         live_session now (bearer_token request) (sessions app) session) /\
      (status response = 200 \/ status response = 401) /\
      process app' = process app /\
      intents app' = intents app /\
      (forall other, other <> bearer_token request ->
                     pd_get (sessions app') other = pd_get (sessions app) other) /\
      (forall (h : Request -> Auth.Session -> Act App Response) (later : float)
              (request' : Request),
          get_default (headers request') "Authorization" "" =
            get_default (headers request) "Authorization" "" ->
          exists text,
            authenticated h later request' app' =
              Some (Normal (respond 401 text), app')).
Proof.
  intros now request app. unfold logout. rewrite authenticated_cases.
  assert (Hlater :
    forall app1,
      String.prefix "Bearer "
        (get_default (headers request) "Authorization" "") = true ->
      pd_get (sessions app1) (bearer_token request) = None ->
      forall (h : Request -> Auth.Session -> Act App Response) (later : float)
             (request' : Request),
        get_default (headers request') "Authorization" "" =
          get_default (headers request) "Authorization" "" ->
        exists text,
          authenticated h later request' app1 =
            Some (Normal (respond 401 text), app1)).
  { intros app1 Hp Hn h later request' Hh. rewrite authenticated_cases.
    unfold bearer_token in *. rewrite Hh, Hp, Hn. simpl. eauto. }
  destruct (String.prefix "Bearer "
              (get_default (headers request) "Authorization" "")) eqn:Hp; simpl.
  - destruct (pd_get (sessions app) (bearer_token request)) as [session|] eqn:Hg.
    + destruct (PrimFloat.ltb (Auth.expires_at session) now) eqn:Hl.
      * eexists; eexists. split; [reflexivity|].
        split; [split; [discriminate|]|].
        { intros [_ [x [Hx Hx']]]. congruence. }
        split; [now right|]. split; [reflexivity|]. split; [reflexivity|].
        split; [intros other Hne; simpl; now apply pd_get_del_other|].
        apply Hlater; [reflexivity|]. simpl. apply pd_get_del_same.
      * unfold logout_handler, Auth.revoke_token.
        eexists; eexists. split; [reflexivity|].
        split; [split; [|reflexivity]|].
        { intros _. split; [reflexivity|]. exists session. now split. }
        split; [now left|]. split; [reflexivity|]. split; [reflexivity|].
        split; [intros other Hne; simpl; now apply pd_get_del_other|].
        apply Hlater; [reflexivity|]. simpl. apply pd_get_del_same.
    + eexists; eexists. split; [reflexivity|].
      split; [split; [discriminate|]|].
      { intros [_ [x [Hx _]]]. congruence. }
      split; [now right|]. split; [reflexivity|]. split; [reflexivity|].
      split; [reflexivity|].
      apply Hlater; [reflexivity | exact Hg].
  - eexists; eexists. split; [reflexivity|].
    split; [split; [discriminate|]|].
    { intros [Hx _]. discriminate. }
    split; [now right|]. split; [reflexivity|]. split; [reflexivity|].
    split; [reflexivity|].
    intros h later request' Hh. rewrite authenticated_cases, Hh, Hp. simpl. eauto.
Qed.

Lemma body_get_member (members : list (string * json)) (k : string) (v default : json) :
  member members k = Some v -> body_get (JObject members) k default = Normal v.
Proof. intros H. unfold body_get. now rewrite H. Qed.

(** X29.  [charge_handler], for a request with the token of a live
    session and a JSON object whose [amount_cents] is true as a
    condition and converts to a positive [int]: a payment intent is
    created for the user of the session, with that amount in ['usd'],
    under the id drawn, and charged at once.  With the gateway
    configured the answer is 200 with the id and the intent is kept as
    succeeded; without it the answer is 402 and the intent is kept all
    the same, as failed.  The intents of other ids, the sessions, the
    pool and the datastore are as before. *)
Theorem charge_handler_charges_a_new_intent_of_the_session_user :
  forall (uuid : string) (created now : float) (request : Request) (app : App)
         (session : Auth.Session) (members : list (string * json)) (v : json)
         (n : Z),
    String.prefix "Bearer " (get_default (headers request) "Authorization" "") = true ->
    live_session now (bearer_token request) (sessions app) session ->
    json_loads (body request) = Some (JObject members) ->
    member members "amount_cents" = Some v ->
    truthy v = true ->
    py_int v = Normal n ->
    0 < n ->
    exists app',
      charge_handler uuid created now request app =
        Some (Normal
                (if Processor.not_configured
                 then respond 402
                        (json_dumps
                           (JObject [("error"%string,
                                      JStr "Payment gateway not configured.")]))
                 else respond 200
                        (json_dumps
                           (JObject [("payment_intent_id"%string, JStr uuid)]))),
              app') /\
      sessions app' = sessions app /\
      process app' = process app /\
      Processor.get_payment_intent uuid (intents app') =
        Some (Processor.mkPaymentIntent uuid (Auth.user_id session) n
                (str_lower "usd")
                (if Processor.not_configured
                 then Processor.FAILED else Processor.SUCCEEDED)
                created []) /\
      (forall other, other <> uuid ->
                     Processor.get_payment_intent other (intents app') =
                     Processor.get_payment_intent other (intents app)).
Proof.
  intros uuid created now request app session members v n Hp Hl Hj Hm Ht Hi Hn.
  unfold charge_handler. rewrite (authenticated_live _ _ _ Hp Hl).
  unfold charge_handler_inner. rewrite Hj, (body_get_member _ _ _ Hm), Ht, Hi.
  simpl negb. cbv iota.
  assert (Hle : (n <=? 0) = false) by (apply Z.leb_gt; exact Hn).
  rewrite Hle. unfold Processor.create_payment_intent. rewrite Hle.
  cbn [Processor.id]. unfold Processor.charge. rewrite pd_get_set_same.
  cbn [Processor.status Processor.status_eqb negb].
  unfold Processor.get_payment_intent.
  destruct Processor.not_configured; simpl;
    (eexists; split; [reflexivity|]; split; [reflexivity|];
     split; [reflexivity|]; split;
     [simpl; rewrite pd_get_set_same; reflexivity
     |intros other Hne; simpl; rewrite !pd_get_set_other by exact Hne;
      reflexivity]).
Qed.

(** X30.  [refund_handler] does not look at whose payment it refunds:
    for a request with the token of any live session and a JSON object
    that names a kept intent in [payment_intent_id] and has no
    [amount_cents], the answer is 200 with the refund id drawn exactly
    when the intent is succeeded, whichever user it is of, and the
    intent is refunded from then on; otherwise the answer is 400 and the
    intents are as before.  The sessions, the pool and the datastore are
    not touched. *)
Theorem refund_handler_does_not_check_the_owner :
  forall (uuid : string) (now : float) (request : Request) (app : App)
         (session : Auth.Session) (members : list (string * json)) (k : string)
         (intent : Processor.PaymentIntent),
    String.prefix "Bearer " (get_default (headers request) "Authorization" "") = true ->
    live_session now (bearer_token request) (sessions app) session ->
    json_loads (body request) = Some (JObject members) ->
    member members "payment_intent_id" = Some (JStr k) ->
    member members "amount_cents" = None ->
    Processor.get_payment_intent k (intents app) = Some intent ->
    exists response app',
      refund_handler uuid now request app = Some (Normal response, app') /\
      sessions app' = sessions app /\
      process app' = process app /\
      (Processor.status intent = Processor.SUCCEEDED ->
       response = respond 200 (json_dumps (JObject [("refund_id"%string, JStr uuid)])) /\
       Processor.get_payment_intent k (intents app') =
         Some (Processor.set_status intent Processor.REFUNDED) /\
       forall other, other <> k ->
                     Processor.get_payment_intent other (intents app') =
                     Processor.get_payment_intent other (intents app)) /\
      (Processor.status intent <> Processor.SUCCEEDED ->
       response =
         respond 400
           (json_dumps
              (JObject [("error"%string,
                         JStr "Only succeeded payments can be refunded.")])) /\
       intents app' = intents app).
Proof.
  intros uuid now request app session members k intent Hp Hl Hj Hk Ha Hg.
  unfold refund_handler. rewrite (authenticated_live _ _ _ Hp Hl).
  unfold refund_handler_inner. rewrite Hj, (body_get_member _ _ _ Hk).
  unfold body_get at 1. rewrite Ha. cbn [truthy].
  unfold refund_with_key, Processor.refund.
  unfold Processor.get_payment_intent in *. rewrite Hg.
  destruct (Processor.status_eqb (Processor.status intent) Processor.SUCCEEDED)
    eqn:Hs; simpl.
  - rewrite Z.ltb_irrefl. simpl.
    eexists; eexists. split; [reflexivity|]. split; [reflexivity|].
    split; [reflexivity|]. split.
    + intros _. split; [reflexivity|]. split; [apply pd_get_set_same|].
      intros other Hne. now apply pd_get_set_other.
    + intros Hne. exfalso. apply Hne.
      destruct (Processor.status intent); simpl in Hs; congruence.
  - eexists; eexists. split; [reflexivity|]. split; [reflexivity|].
    split; [reflexivity|]. split.
    + intros He. rewrite He in Hs. discriminate.
    + intros _. split; [reflexivity|]. now destruct app.
Qed.

End WithEnvironment.

(** The order routes over the in-memory datastore. *)
Section WithDatastore.

Context {cfg : Config} {py : Builtins} {js : Json} {gw : Processor.Gateway}.


(** X28.  [list_orders] on a ready process, for a request with the
    token of a live session, answers 200 with the JSON list of the id,
    amount and status of each stored order whose user id is that of the
    session, in the order in which they are stored, and of no other
    order; nothing is changed in the datastore, the sessions or the
    intents. *)
Theorem list_orders_lists_the_orders_of_the_session_user :
  forall (now : float) (request : Request) (app : App) (session : Auth.Session),
    ready (process app) ->
    String.prefix "Bearer " (get_default (headers request) "Authorization" "") = true ->
    live_session now (bearer_token request) (sessions app) session ->
    exists app',
      list_orders now request app =
        Some (Normal
                (respond 200
                   (json_dumps
                      (JList
                         (map (fun o =>
                                 JObject [("id", JInt (Mem.or_id o));
                                          ("total_amount",
                                           json_of_pyval (Mem.or_total_amount o));
                                          ("status",
                                           json_of_pyval (Mem.or_status o))]%string)
                              (filter (fun o =>
                                         Mem.sql_eq (Mem.or_user_id o)
                                                    (PyInt (Auth.user_id session)))
                                      (Mem.orders (content (process app)))))))),
              app') /\
      sessions app' = sessions app /\
      intents app' = intents app /\
      ready (process app') /\
      content (process app') = content (process app).
Proof.
  intros now request app session Hr Hp Hl.
  unfold list_orders. rewrite (authenticated_live _ _ _ Hp Hl).
  unfold list_orders_handler, in_process.
  destruct (get_orders_by_user_ready (Auth.user_id session) Hr)
    as (p' & Hg & Hr' & Hc).
  rewrite Hg. exists (put_process p' app).
  split; [|simpl; auto].
  rewrite map_map. reflexivity.
Qed.

End WithDatastore.

End RoutesFacts.

(** ** The further theorems at work on the samples *)

#[local] Existing Instance SampleServices.builtins.
#[local] Existing Instance SampleServices.json_module.
#[local] Existing Instance SampleServices.crypto.
#[local] Existing Instance SampleServices.gateway.
#[local] Existing Instance SampleServices.mail.

Lemma sample_pool_ok : pool_ok (Sample.pool 2 [0; 1]%nat).
Proof. right; simpl; lia. Qed.

Lemma single_ready : ready SampleServices.single.
Proof.
  exists (Sample.pool 1 [0]%nat).
  split; [reflexivity|]. split; [discriminate|].
  split; [right; simpl; lia|].
  split; [repeat constructor | reflexivity].
Qed.

Lemma sample_live :
  live_session 1000%float
    (Middleware.bearer_token (SampleServices.request SampleServices.order_body))
    (Routes.sessions SampleServices.app) SampleServices.session.
Proof. split; reflexivity. Qed.

Lemma pool_of_size_zero_refuses_every_call_witness :
  @POOL_SIZE SampleServices.no_pool <= 0 /\
  module_pool (mkProcess None Sample.rt0) = None /\
  exists p1 p2,
    @execute Mem.driver SampleServices.no_pool "SELECT 1" []
             (mkProcess None Sample.rt0) =
      Some (Raise (RuntimeError exhausted_message), p1) /\
    @execute Mem.driver SampleServices.no_pool "SELECT 1" [] p1 =
      Some (Raise (RuntimeError exhausted_message), p2).
Proof.
  split; [exact (Z.le_refl 0)|]. split; [reflexivity|].
  destruct (@pool_of_size_zero_refuses_every_call Mem.driver SampleServices.no_pool
              (mkProcess None Sample.rt0) (Z.le_refl 0) eq_refl) as [H _].
  destruct (H "SELECT 1"%string []) as [H1 H2].
  eexists; eexists; split; [exact H1 | exact H2].
Defined.

Lemma pool_serves_connections_in_turn_witness :
  module_pool Sample.serving = Some (Sample.pool 2 [0; 1]%nat) /\
  pool_ok (Sample.pool 2 [0; 1]%nat) /\
  exists p',
    serve [Sample.insert_order; Sample.insert_order] Sample.serving = Some p' /\
    module_pool p' = Some (Sample.pool 2 [0; 1]%nat).
Proof.
  split; [reflexivity|]. split; [exact sample_pool_ok|].
  destruct (@pool_serves_connections_in_turn Mem.driver default_config _
              [Sample.insert_order; Sample.insert_order] Sample.serving
              (Sample.pool 2 [0; 1]%nat) eq_refl sample_pool_ok)
    as (p' & Hs & _ & Hsame).
  exists p'. split; [exact Hs | exact (Hsame eq_refl)].
Defined.

Lemma interrupted_write_is_committed_by_the_next_call_witness :
  ready SampleServices.single /\
  module_pool SampleServices.single = Some (Sample.pool 1 [0]%nat) /\
  idle (Sample.pool 1 [0]%nat) = [0%nat] /\
  Mem.prepare
    "INSERT INTO orders (user_id, total_amount, status) VALUES (?, ?, 'pending')"
    = Some Mem.InsertOrder /\
  Mem.is_dml Mem.InsertOrder = true /\
  exists rs n d',
    Mem.run_stmt Mem.InsertOrder [PyInt 7; PyFloat 42.5%float]
                 (content SampleServices.single) = Normal (rs, n, d') /\
    exists p1,
      with_connection (interrupted_after Sample.insert_order) SampleServices.single =
        Some (Raise KeyboardInterrupt, p1) /\
      content p1 = content SampleServices.single /\
      exists p2 r,
        execute
          "SELECT id, user_id, total_amount, status, created_at FROM orders WHERE user_id = ?"
          [PyInt 7] p1 = Some (Normal r, p2) /\
        content p2 = d' /\
        List.length (rows r) = 1%nat.
Proof.
  split; [exact single_ready|]. split; [reflexivity|]. split; [reflexivity|].
  split; [reflexivity|]. split; [reflexivity|].
  eexists; eexists; eexists. split; [vm_compute; reflexivity|].
  pose proof (fun rs n d' =>
                @interrupted_write_is_committed_by_the_next_call default_config
                  SampleServices.single (Sample.pool 1 [0]%nat) 0%nat
                  "INSERT INTO orders (user_id, total_amount, status) VALUES (?, ?, 'pending')"
                  [PyInt 7; PyFloat 42.5%float] Mem.InsertOrder rs n d'
                  single_ready eq_refl eq_refl eq_refl eq_refl) as T.
  edestruct T as (p1 & H1 & H2 & _ & H4); [vm_compute; reflexivity|].
  exists p1. split; [exact H1|]. split; [exact H2|].
  edestruct (fun rs2 n2 d2 =>
               H4 "SELECT id, user_id, total_amount, status, created_at FROM orders WHERE user_id = ?"%string
                  [PyInt 7] Mem.SelectOrdersByUser rs2 n2 d2 eq_refl)
    as (p2 & H5 & H6); [vm_compute; reflexivity|].
  exists p2. eexists. split; [exact H5|]. split; [exact H6 | reflexivity].
Defined.

Lemma create_user_then_get_by_username_witness :
  ready Sample.serving /\
  exists p1 new_id,
    create_user "bob" "bob@example.org" "h" Sample.serving = Some (Normal 1, p1) /\
    ~ In new_id (map Mem.ur_id (Mem.users (content Sample.serving))) /\
    returns (get_user_by_username "bob") p1
      (Some (mkUserRecord (PyInt new_id) (PyStr "bob") (PyStr "bob@example.org")
                          (PyStr "h") (PyInt 1))).
Proof.
  split; [exact serving_ready|].
  destruct (@create_user_then_get_by_username default_config Sample.serving
              "bob" "bob@example.org" "h" serving_ready)
    as (p1 & new_id & H1 & _ & _ & H4 & H5).
  exists p1, new_id. split; [exact H1|]. split; [exact H4 | exact H5].
Defined.

Lemma deactivate_user_then_get_by_id_witness :
  ready Sample.serving /\
  find (fun r => Mem.ur_id r =? 1) (Mem.users (content Sample.serving)) =
    Some (Mem.mkUserRow 1 (PyStr "ada") (PyStr "ada@example.org") (PyStr "x")
                        (PyInt 1)) /\
  exists p1,
    deactivate_user 1 Sample.serving = Some (Normal true, p1) /\
    returns (get_user_by_id 1) p1
      (Some (mkUserRecord (PyInt 1) (PyStr "ada") (PyStr "ada@example.org")
                          (PyStr "x") (PyInt 0))).
Proof.
  split; [exact serving_ready|]. split; [reflexivity|].
  destruct (@deactivate_user_then_get_by_id default_config Sample.serving 1
              (Mem.mkUserRow 1 (PyStr "ada") (PyStr "ada@example.org") (PyStr "x")
                             (PyInt 1))
              serving_ready eq_refl)
    as (p1 & H1 & H2 & _).
  exists p1. split; [exact H1 | exact H2].
Defined.

Lemma update_order_status_then_get_by_id_witness :
  ready Sample.serving /\
  find (fun r => Mem.or_id r =? 1) (Mem.orders (content Sample.serving)) =
    Some (Mem.mkOrderRow 1 (PyInt 1) (PyFloat 10%float) (PyStr "paid")
                         (PyStr "2023-12-31 09:00:00")) /\
  exists p1,
    update_order_status 1 "shipped" Sample.serving = Some (Normal true, p1) /\
    returns (get_order_by_id 1) p1
      (Some (mkOrderRecord (PyInt 1) (PyInt 1) (PyFloat 10%float) (PyStr "shipped")
                           (PyStr "2023-12-31 09:00:00"))).
Proof.
  split; [exact serving_ready|]. split; [reflexivity|].
  destruct (@update_order_status_then_get_by_id default_config Sample.serving 1
              "shipped"
              (Mem.mkOrderRow 1 (PyInt 1) (PyFloat 10%float) (PyStr "paid")
                              (PyStr "2023-12-31 09:00:00"))
              serving_ready eq_refl)
    as (p1 & H1 & H2 & _).
  exists p1. split; [exact H1 | exact H2].
Defined.


Lemma failed_or_refunded_intent_is_final_witness :
  pd_get (Routes.intents SampleServices.app) "pi-8" = Some SampleServices.failed /\
  (Processor.status SampleServices.failed = Processor.FAILED \/
   Processor.status SampleServices.failed = Processor.REFUNDED) /\
  ProcessorOps.never_draws "pi-8" SampleServices.calls_on_failed /\
  pd_get (ProcessorOps.run SampleServices.calls_on_failed
                           (Routes.intents SampleServices.app)) "pi-8"
    = Some SampleServices.failed.
Proof.
  assert (Hn : ProcessorOps.never_draws "pi-8" SampleServices.calls_on_failed).
  { repeat constructor. discriminate. }
  split; [reflexivity|]. split; [left; reflexivity|]. split; [exact Hn|].
  exact (@ProcessorFacts.failed_or_refunded_intent_is_final
           SampleServices.builtins SampleServices.gateway
           SampleServices.calls_on_failed (Routes.intents SampleServices.app)
           "pi-8" SampleServices.failed eq_refl (or_introl eq_refl) Hn).
Defined.

Lemma notification_is_delivered_at_most_once_witness :
  pd_get [("n-1"%string, SampleServices.note)] "n-1" = Some SampleServices.note /\
  Sender.status SampleServices.note = Sender.PENDING /\
  exists n',
    pd_get (snd (Sender.send_email 1000%float "n-1"
                   [("n-1"%string, SampleServices.note)])) "n-1" = Some n' /\
    Sender.status n' <> Sender.PENDING.
Proof.
  split; [reflexivity|]. split; [reflexivity|].
  destruct (@SenderFacts.notification_is_delivered_at_most_once
              SampleServices.mail SampleServices.json_module SampleServices.crypto
              "n-1" [("n-1"%string, SampleServices.note)] SampleServices.note
              eq_refl) as [_ H].
  destruct (H eq_refl) as [He _]. exact (He 1000%float).
Defined.

Lemma webhook_request_is_signed_when_secret_is_set_witness :
  pd_get [("n-1"%string, SampleServices.note)] "n-1" = Some SampleServices.note /\
  Sender.status SampleServices.note = Sender.PENDING /\
  exists req,
    snd (Sender.send_webhook (fun _ => Sender.Delivered) 1000%float "n-1"
           "https://hooks.example.org/in" [("n-1"%string, SampleServices.note)])
      = Some req /\
    Sender.url req = "https://hooks.example.org/in"%string /\
    Sender.method req = "POST"%string /\
    pd_get (Sender.headers req) "X-VecGrep-Signature" =
      Some (String.append "sha256="
              (hmac_sha256_hex Sender.WEBHOOK_SECRET (Sender.data req))).
Proof.
  split; [reflexivity|]. split; [reflexivity|].
  destruct (@SenderFacts.webhook_request_is_signed_when_secret_is_set
              SampleServices.mail SampleServices.json_module SampleServices.crypto
              (fun _ => Sender.Delivered) 1000%float "n-1"
              "https://hooks.example.org/in" [("n-1"%string, SampleServices.note)]
              SampleServices.note eq_refl eq_refl)
    as (req & H1 & H2 & H3 & _ & _ & H6).
  exists req. split; [exact H1|]. split; [exact H2|]. split; [exact H3 | exact H6].
Defined.

Lemma hashed_password_verifies_witness :
  bytes_fromhex (bytes_hex "salt") = Some "salt"%string /\
  count_char ":" (bytes_hex "salt") = O /\
  count_char ":" (pbkdf2_sha256_hex "open sesame" "salt") = O /\
  is_ascii (pbkdf2_sha256_hex "open sesame" "salt") = true /\
  Auth.verify_password "open sesame" (Auth.hash_password "salt" "open sesame")
    = Normal true /\
  Auth.verify_password "open" (Auth.hash_password "salt" "open sesame")
    = Normal false /\
  Auth.verify_password "open sesame" "no colon here" = Normal false.
Proof.
  destruct (@AuthFacts.hashed_password_verifies SampleServices.crypto) as [Hbad Hgood].
  destruct (Hgood "salt"%string "open sesame"%string eq_refl eq_refl eq_refl eq_refl)
    as [H1 H2].
  split; [reflexivity|]. split; [reflexivity|]. split; [reflexivity|].
  split; [reflexivity|]. split; [exact H1|]. split.
  - exact (H2 "open"%string eq_refl).
  - apply Hbad. discriminate.
Defined.


Lemma list_orders_lists_the_orders_of_the_session_user_witness :
  ready (Routes.process SampleServices.app) /\
  live_session 1000%float
    (Middleware.bearer_token (SampleServices.request SampleServices.order_body))
    (Routes.sessions SampleServices.app) SampleServices.session /\
  exists app',
    Routes.list_orders 1000%float (SampleServices.request SampleServices.order_body)
                       SampleServices.app =
      Some (Normal
              (Middleware.respond 200
                 (json_dumps
                    (JList [JObject [("id", JInt 1);
                                     ("total_amount", JFloat 10%float);
                                     ("status", JStr "paid")]%string]))),
            app') /\
    content (Routes.process app') = content (Routes.process SampleServices.app).
Proof.
  split; [exact serving_ready|]. split; [exact sample_live|].
  destruct (@RoutesFacts.list_orders_lists_the_orders_of_the_session_user
              default_config SampleServices.builtins SampleServices.json_module
              1000%float (SampleServices.request SampleServices.order_body)
              SampleServices.app SampleServices.session
              serving_ready eq_refl sample_live)
    as (app' & H1 & _ & _ & _ & H5).
  exists app'. split; [exact H1 | exact H5].
Defined.

Lemma charge_handler_charges_a_new_intent_of_the_session_user_witness :
  live_session 1000%float
    (Middleware.bearer_token (SampleServices.request SampleServices.charge_body))
    (Routes.sessions SampleServices.app) SampleServices.session /\
  json_loads (Middleware.body (SampleServices.request SampleServices.charge_body)) =
    Some (JObject [("amount_cents"%string, JInt 1200)]) /\
  Routes.truthy (JInt 1200) = true /\
  py_int (JInt 1200) = Normal 1200 /\
  exists app',
    Routes.charge_handler "pi-9" 1000%float 1000%float
      (SampleServices.request SampleServices.charge_body) SampleServices.app =
      Some (Normal
              (Middleware.respond 200
                 (json_dumps
                    (JObject [("payment_intent_id"%string, JStr "pi-9")]))),
            app') /\
    Processor.get_payment_intent "pi-9" (Routes.intents app') =
      Some (Processor.mkPaymentIntent "pi-9" 1 1200 "usd" Processor.SUCCEEDED
                                      1000%float []).
Proof.
  split; [exact sample_live|]. split; [reflexivity|]. split; [reflexivity|].
  split; [reflexivity|].
  destruct (@RoutesFacts.charge_handler_charges_a_new_intent_of_the_session_user
              Mem.driver SampleServices.builtins SampleServices.json_module
              SampleServices.gateway "pi-9" 1000%float 1000%float
              (SampleServices.request SampleServices.charge_body)
              SampleServices.app SampleServices.session
              [("amount_cents"%string, JInt 1200)] (JInt 1200) 1200
              eq_refl sample_live eq_refl eq_refl eq_refl eq_refl eq_refl)
    as (app' & H1 & _ & _ & H4 & _).
  exists app'. split; [exact H1 | exact H4].
Defined.

Lemma refund_handler_does_not_check_the_owner_witness :
  live_session 1000%float
    (Middleware.bearer_token (SampleServices.request SampleServices.refund_body))
    (Routes.sessions SampleServices.app) SampleServices.session /\
  json_loads (Middleware.body (SampleServices.request SampleServices.refund_body)) =
    Some (JObject [("payment_intent_id"%string, JStr "pi-7")]) /\
  Processor.get_payment_intent "pi-7" (Routes.intents SampleServices.app) =
    Some SampleServices.paid /\
  Auth.user_id SampleServices.session <> Processor.user_id SampleServices.paid /\
  exists app',
    Routes.refund_handler "re-1" 1000%float
      (SampleServices.request SampleServices.refund_body) SampleServices.app =
      Some (Normal
              (Middleware.respond 200
                 (json_dumps (JObject [("refund_id"%string, JStr "re-1")]))),
            app') /\
    Processor.get_payment_intent "pi-7" (Routes.intents app') =
      Some (Processor.set_status SampleServices.paid Processor.REFUNDED).
Proof.
  split; [exact sample_live|]. split; [reflexivity|]. split; [reflexivity|].
  split; [discriminate|].
  destruct (@RoutesFacts.refund_handler_does_not_check_the_owner
              Mem.driver SampleServices.builtins SampleServices.json_module
              "re-1" 1000%float
              (SampleServices.request SampleServices.refund_body)
              SampleServices.app SampleServices.session
              [("payment_intent_id"%string, JStr "pi-7")] "pi-7" SampleServices.paid
              eq_refl sample_live eq_refl eq_refl eq_refl eq_refl)
    as (response & app' & H1 & _ & _ & Hok & _).
  destruct (Hok eq_refl) as (Hr & Hg & _).
  exists app'. split; [rewrite <- Hr; exact H1 | exact Hg].
Defined.
